(** * Landsat NDVI notebook: the authored helpers of [03_multidim_analysis.ipynb]

    The notebook defines three functions and one expression of its own:

    - [download_file]: fetch a URL into a local file unless the file exists;
    - [load_scale_factors]: read two rescaling coefficients out of a JSON
      metadata document;
    - [calculate_reflectance]: [toa = M_p * ds + A_p];
    - [ndvi = (nir_toa - red_toa) / (nir_toa + red_toa)].

    Everything else is a call into a library.  The libraries are modelled only
    as far as these four fragments use them: a flat file system whose writes
    can fail, an HTTP client that answers a GET or raises, a JSON decoder
    taken as a parameter, Python's subscript operator on decoded values, and
    labelled arrays of binary64 numbers with elementwise arithmetic that
    pairs the elements by label. *)

From Stdlib Require Import ZArith Lia Bool Reals Lra.
From Stdlib Require Import Floats.
From stdpp Require Import gmap strings list fin_maps pretty.

Set Warnings "-register-all".

Local Open Scope Z_scope.

#[export] Instance byte_eq_dec : EqDecision Byte.byte := Byte.byte_eq_dec.

(** File contents and HTTP bodies are byte strings. *)
Abbreviation bytes := (list Byte.byte).

(** ** Python exceptions and the result of a call *)

Module Py.

(** The exceptions the four fragments can raise.  [KeyError] carries the key
    that was not found.  [ConnectionError], [MissingSchema] and [Timeout] are
    exceptions of the HTTP client; [FileNotFoundError] and [PermissionError]
    are the [OSError]s of [open]; [UnicodeDecodeError] comes from reading a
    file as text, [JSONDecodeError] from parsing it, [ValueError] from
    aligning arrays.  [Unmodelled] stands for operands whose outcome the
    array library decides in ways this development does not follow
    (coefficients that are not JSON reals, records that are not arrays); no
    theorem depends on it. *)
Inductive exn : Type :=
  | FileNotFoundError (path : string)
  | JSONDecodeError
  | KeyError (key : string)
  | TypeError
  | ConnectionError (url : string)
  | Unmodelled
  | MissingSchema (url : string)
  | Timeout (url : string)
  | PermissionError (path : string)
  | UnicodeDecodeError
  | ValueError.

(** [LookupError] is the base class of [KeyError] (and [IndexError]);
    [TypeError] is not below it. *)
Definition is_lookup_error (e : exn) : bool :=
  match e with
  | KeyError _ => true
  | _ => false
  end.

Inductive result (A : Type) : Type :=
  | Ok (a : A)
  | Raise (e : exn).
Arguments Ok {A} a.
Arguments Raise {A} e.

#[export] Instance result_ret : MRet result := fun A a => Ok a.

#[export] Instance result_bind : MBind result := fun A B k r =>
  match r with
  | Ok a => k a
  | Raise e => Raise e
  end.

End Py.

Import Py.

(** ** Decoded JSON values

    What [json.load] returns: [None], [bool], [int], [float], [str], [list]
    and [dict] with string keys.  A [dict] has one value per key, so an
    object is a finite map. *)

Inductive json : Type :=
  | JNull
  | JBool (b : bool)
  | JInt (n : Z)
  | JFloat (x : float)
  | JString (s : string)
  | JArray (l : list json)
  | JObject (o : gmap string json).

(** Python's [v[k]] for a string key [k]: a [dict] looks the key up and raises
    [KeyError] when it is missing; every other decoded value raises
    [TypeError] (lists and strings want integer indices, the rest is not
    subscriptable). *)
Definition getitem (v : json) (k : string) : result json :=
  match v with
  | JObject o =>
      match o !! k with
      | Some x => Ok x
      | None => Raise (KeyError k)
      end
  | _ => Raise TypeError
  end.

(** ** The world the helpers run in

    A flat file system keyed by the path as written, an HTTP service that
    answers a GET with a response or not at all, and two logs: the GET
    requests issued so far and the lines printed so far.  Three more
    components say how the platform fails: what the HTTP client raises when
    no response comes and whether the request went out at all, what becomes
    of an attempt to write a file, and which byte strings are text in the
    locale's encoding. *)

Record response : Type := Response {
  status_code : Z;
  content : bytes
}.

(** How [requests.get] ends without a response: the client raises before
    anything is sent, as it does for a malformed URL, or after the request
    was issued, when the service refuses it, times out and so on. *)
Inductive get_failure : Type :=
  | Rejected (e : exn)
  | Failed (e : exn).

(** What becomes of [with open(path, 'wb') as f: f.write(data)]: the file is
    created or truncated and holds exactly the data; or [open] or [write]
    raises, and the path is as it was ([None]) or holds what was written
    before the failure. *)
Inductive write_outcome : Type :=
  | Written
  | NotWritten (e : exn) (remains : option bytes).

(** [http u = Some r]: a GET of [u] is sent and answered by [r], whatever
    its status; otherwise [get_error u] is how the call ends.  [store p d]
    is the outcome of writing [d] to [p].  [is_text d]: the bytes decode in
    the encoding a file opened as text is read in. *)
Record world : Type := World {
  files : gmap string bytes;
  http : string -> option response;
  requests : list string;
  stdout : list string;
  get_error : string -> get_failure;
  store : string -> bytes -> write_outcome;
  is_text : bytes -> bool
}.

(** The three ways the helpers change the world. *)
Definition printed (line : string) (w : world) : world :=
  World (files w) (http w) (requests w) (stdout w ++ [line])
        (get_error w) (store w) (is_text w).

Definition requested (url : string) (w : world) : world :=
  World (files w) (http w) (requests w ++ [url]) (stdout w)
        (get_error w) (store w) (is_text w).

Definition holding (path : string) (data : bytes) (w : world) : world :=
  World (<[path := data]> (files w)) (http w) (requests w) (stdout w)
        (get_error w) (store w) (is_text w).

(** Computations that read and change the world and may raise.  An exception
    ends the computation: what follows it in a sequence does not run. *)
Definition io (A : Type) : Type := world -> result A * world.

#[export] Instance io_ret : MRet io := fun A a w => (Ok a, w).

#[export] Instance io_bind : MBind io := fun A B k c w =>
  match c w with
  | (Ok a, w') => k a w'
  | (Raise e, w') => (Raise e, w')
  end.

Definition lift {A} (r : result A) : io A := fun w => (r, w).

(** [os.path.exists(path)] *)
Definition os_path_exists (path : string) : io bool :=
  fun w => (Ok (bool_decide (is_Some (files w !! path))), w).

(** [print(a, b)]: one line, the arguments separated by a space. *)
Definition print (a b : string) : io unit :=
  fun w => (Ok tt, printed (a +:+ " " +:+ b) w).

(** [requests.get(url)]: a response comes back, whatever its status code, or
    the client raises.  A malformed URL is rejected before a request is
    issued; every other failure comes after it. *)
Definition requests_get (url : string) : io response :=
  fun w =>
    match http w url with
    | Some r => (Ok r, requested url w)
    | None =>
        match get_error w url with
        | Rejected e => (Raise e, w)
        | Failed e => (Raise e, requested url w)
        end
    end.

(** [with open(path, 'wb') as f: f.write(data)] *)
Definition write_file (path : string) (data : bytes) : io unit :=
  fun w =>
    match store w path data with
    | Written => (Ok tt, holding path data w)
    | NotWritten e None => (Raise e, w)
    | NotWritten e (Some part) => (Raise e, holding path part w)
    end.

(** [with open(path) as f]: the contents, or [FileNotFoundError]. *)
Definition read_file (path : string) : io bytes :=
  fun w =>
    match files w !! path with
    | Some data => (Ok data, w)
    | None => (Raise (FileNotFoundError path), w)
    end.

(** ** [download_file] *)

(** The world after [print('Downloading', url)]. *)
Definition announced (url : string) (w : world) : world :=
  printed ("Downloading" +:+ " " +:+ url) w.

Definition download_file (in_filename out_filename : string) : io unit :=
  found ← os_path_exists out_filename;
  if negb found then
    print "Downloading" in_filename;;
    response ← requests_get in_filename;
    write_file out_filename (content response)
  else
    mret tt.

(** The notebook's three downloads into one destination each; here a run of
    calls that all name the same destination. *)
Fixpoint download_all (in_filenames : list string) (out_filename : string) : io unit :=
  match in_filenames with
  | [] => mret tt
  | u :: us => download_file u out_filename;; download_all us out_filename
  end.

(** What makes a call with a missing destination raise [e]: the client
    raises it for the source, or writing the body the service sent does. *)
Definition raises_on (url path : string) (w : world) (e : exn) : Prop :=
  match http w url with
  | Some r => exists remains, store w path (content r) = NotWritten e remains
  | None => get_error w url = Rejected e \/ get_error w url = Failed e
  end.

(** ** Labelled arrays

    A [DataArray] as the notebook gets it from [open_rasterio]: named
    dimensions, the coordinate labels of each dimension, a shape, and the
    elements in row-major order.  Computed arrays hold binary64 numbers,
    NumPy's [float64] and Python's [float]. *)

#[export] Instance float_eq_dec : EqDecision float := fun x y =>
  match Leibniz.eqb x y as b return Leibniz.eqb x y = b -> Decision (x = y) with
  | true => fun H => left (proj1 (Leibniz.eqb_spec x y) H)
  | false => fun H => right (fun E =>
      eq_ind true (fun b => b = false -> False)
             (fun H' => diff_true_false H') _
             (eq_sym (proj2 (Leibniz.eqb_spec x y) E)) H)
  end eq_refl.

Record DataArray (E : Type) : Type := mkDataArray {
  dims : list string;
  coords : gmap string (list float);
  shape : list nat;
  values : list E
}.
Arguments mkDataArray {E} dims coords shape values.
Arguments dims {E} _.
Arguments coords {E} _.
Arguments shape {E} _.
Arguments values {E} _.

(** One dimension name per axis and one element per grid point. *)
Definition well_formed {E} (a : DataArray E) : Prop :=
  length (dims a) = length (shape a) /\
  length (values a) = foldr Nat.mul 1%nat (shape a).

(** The element types the notebook meets: the 16-bit counts of the Landsat
    rasters and binary64.  An arithmetic operator with a [float] operand
    converts the elements to binary64 first; both conversions are exact. *)
Class Numeric (E : Type) : Type := as_float64 : E -> float.

Record uint16 : Type := U16 {
  u16_val : Z;
  u16_range : bool_decide (0 <= u16_val < 65536)
}.

#[export] Instance uint16_numeric : Numeric uint16 :=
  fun n => of_uint63 (Uint63.of_Z (u16_val n)).

#[export] Instance float64_numeric : Numeric float := fun x => x.

(** [m * ds] and [ds + a] with a Python [float] on one side: elementwise,
    dimensions, coordinates and shape carried over. *)
Definition scalar_mul {E} `{Numeric E} (m : float) (ds : DataArray E) : DataArray float :=
  mkDataArray (dims ds) (coords ds) (shape ds)
              (map (fun x => (m * as_float64 x)%float) (values ds)).

Definition add_scalar (ds : DataArray float) (a : float) : DataArray float :=
  mkDataArray (dims ds) (coords ds) (shape ds)
              (map (fun x => (x + a)%float) (values ds)).

(** Two arrays on the same grid: same dimension names, same shape, same
    coordinate labels. *)
Definition same_grid {E F} (a : DataArray E) (b : DataArray F) : Prop :=
  dims a = dims b /\ shape a = shape b /\ coords a = coords b.

#[export] Instance same_grid_dec {E F} (a : DataArray E) (b : DataArray F) :
  Decision (same_grid a b).
Proof. unfold same_grid. apply _. Defined.

(** *** Alignment and broadcasting

    Arithmetic on two labelled arrays pairs their elements by label, not by
    position.  Along a dimension both arrays have, only the labels both have
    are kept, in the order of the left operand (an inner join); over a
    dimension only one array has, the other is repeated.  On one grid this
    is position by position. *)

(** Index values match as in a pandas index: by [==], and NaN matches NaN. *)
Definition label_eqb (x y : float) : bool :=
  (x =? y)%float || (is_nan x && is_nan y).

Fixpoint find_label (x : float) (l : list float) : option nat :=
  match l with
  | [] => None
  | y :: l' => if label_eqb x y then Some 0%nat else S <$> find_label x l'
  end.

Fixpoint has_duplicates (l : list float) : bool :=
  match l with
  | [] => false
  | x :: l' => bool_decide (is_Some (find_label x l')) || has_duplicates l'
  end.

Fixpoint labels_equal (l k : list float) : bool :=
  match l, k with
  | [], [] => true
  | x :: l', y :: k' => label_eqb x y && labels_equal l' k'
  | _, _ => false
  end.

(** The length of an array along a dimension it has. *)
Definition size_of {E} (a : DataArray E) (d : string) : option nat :=
  '(i, _) ← list_find (fun x => x = d) (dims a); shape a !! i.

(** What the library can hold: one size per dimension, one element per grid
    point, no dimension twice, and labels only for dimensions, as many as
    the dimension is long. *)
Definition holdable {E} (a : DataArray E) : Prop :=
  well_formed a /\
  NoDup (dims a) /\
  map_Forall (fun d l => size_of a d = Some (length l)) (coords a).

#[export] Instance holdable_dec {E} (a : DataArray E) : Decision (holdable a).
Proof. unfold holdable, well_formed. apply _. Defined.

(** One dimension of the result: its labels, if it has any, and for each of
    its positions the position it comes from in the left and in the right
    operand ([None] for an operand without the dimension). *)
Record axis : Type := Axis {
  axis_labels : option (list float);
  axis_left : option (list nat);
  axis_right : option (list nat)
}.

Definition axis_size (ax : axis) : nat :=
  match axis_left ax, axis_right ax with
  | Some l, _ => length l
  | None, Some r => length r
  | None, None => 0%nat
  end.

(** The labels of [la] that [lb] has too, each with its position in [la] and
    in [lb]. *)
Definition join_labels (la lb : list float) : list (nat * nat * float) :=
  omap (fun '(i, x) => (fun j => (i, j, x)) <$> find_label x lb)
       (imap (fun i x => (i, x)) la).

(** Aligning one dimension.  Equal indexes are kept as they are; different
    ones are joined, which needs them free of duplicates; a dimension
    without labels must have the same length in both operands. *)
Definition align_axis (a b : DataArray float) (d : string) : result axis :=
  match size_of a d, size_of b d with
  | Some n, None => Ok (Axis (coords a !! d) (Some (seq 0 n)) None)
  | None, Some m => Ok (Axis (coords b !! d) None (Some (seq 0 m)))
  | Some n, Some m =>
      match coords a !! d, coords b !! d with
      | Some la, Some lb =>
          if labels_equal la lb then
            Ok (Axis (Some la) (Some (seq 0 n)) (Some (seq 0 m)))
          else if has_duplicates la || has_duplicates lb then
            Raise ValueError
          else
            let j := join_labels la lb in
            Ok (Axis (Some (snd <$> j)) (Some ((fst ∘ fst) <$> j))
                     (Some ((snd ∘ fst) <$> j)))
      | Some l, None | None, Some l =>
          if decide (n = m) then
            Ok (Axis (Some l) (Some (seq 0 n)) (Some (seq 0 m)))
          else Raise ValueError
      | None, None =>
          if decide (n = m) then
            Ok (Axis None (Some (seq 0 n)) (Some (seq 0 m)))
          else Raise ValueError
      end
  | None, None => Raise Unmodelled
  end.

(** All positions of a shape, in row-major order, and the place of a
    position in the row-major list of elements. *)
Fixpoint indices (shape : list nat) : list (list nat) :=
  match shape with
  | [] => [[]]
  | n :: rest => i ← seq 0 n; (cons i) <$> indices rest
  end.

Fixpoint flat_index (shape idx : list nat) : nat :=
  match shape, idx with
  | _ :: rest, i :: idx' =>
      (i * foldr Nat.mul 1%nat rest + flat_index rest idx')%nat
  | _, _ => 0%nat
  end.

(** The element of an operand that goes into position [pos] of the result:
    for each of the operand's dimensions, [pos] gives the position along the
    result's dimension of that name, and the axis gives the operand's
    position for it. *)
Definition operand_element (a : DataArray float) (side : axis -> option (list nat))
    (rdims : list string) (axes : list axis) (pos : list nat) : option float :=
  idx ← mapM (fun d =>
          '(k, _) ← list_find (fun x => x = d) rdims;
          ax ← axes !! k;
          ps ← side ax;
          j ← pos !! k;
          ps !! j) (dims a);
  values a !! flat_index (shape a) idx.

Definition aligned_op (f : float -> float -> float) (a b : DataArray float)
  : result (DataArray float) :=
  let rdims := dims a ++ filter (fun d => d ∉ dims a) (dims b) in
  axes ← mapM (align_axis a b) rdims;
  let rshape := axis_size <$> axes in
  match mapM (fun pos =>
          x ← operand_element a axis_left rdims axes pos;
          y ← operand_element b axis_right rdims axes pos;
          Some (f x y)) (indices rshape) with
  | Some vs =>
      Ok (mkDataArray rdims
            (list_to_map (omap (fun '(d, ax) => (fun l => (d, l)) <$> axis_labels ax)
                               (zip rdims axes)))
            rshape vs)
  | None => Raise Unmodelled
  end.

(** A binary operator on two arrays.  On one grid it works position by
    position.  Otherwise the operands are aligned and broadcast, which gives
    an array or raises [ValueError] ([aligned_op_outcomes] below); records
    the library could not hold are not followed. *)
Definition binary_op (f : float -> float -> float) (a b : DataArray float)
  : result (DataArray float) :=
  if decide (same_grid a b) then
    Ok (mkDataArray (dims a) (coords a) (shape a) (zip_with f (values a) (values b)))
  else if decide (holdable a /\ holdable b) then
    aligned_op f a b
  else
    Raise Unmodelled.

(** What an axis is to an operand that has the dimension: positions, as many
    as the axis is long, each within the operand's length. *)
Definition side_ok (size : option nat) (side : option (list nat)) (len : nat) : Prop :=
  match size with
  | Some n => exists ps, side = Some ps /\ length ps = len /\
                         Forall (fun p => (p < n)%nat) ps
  | None => True
  end.

(** A coefficient read from the metadata takes part in the arithmetic as a
    Python [float] when the document has a JSON real there.  What the array
    library makes of an [int], a [bool], a list or anything else is not
    followed here. *)
Definition as_scalar (v : json) : result float :=
  match v with
  | JFloat x => Ok x
  | _ => Raise Unmodelled
  end.

(** [M_p * ds + A_p] *)
Definition linear_rescale {E} `{Numeric E} (M_p A_p : json) (ds : DataArray E)
  : result (DataArray float) :=
  m ← as_scalar M_p;
  a ← as_scalar A_p;
  mret (add_scalar (scalar_mul m ds) a).

(** ** [ndvi = (nir_toa - red_toa) / (nir_toa + red_toa)] *)

Definition ndvi (nir_toa red_toa : DataArray float) : result (DataArray float) :=
  num ← binary_op PrimFloat.sub nir_toa red_toa;
  den ← binary_op PrimFloat.add nir_toa red_toa;
  binary_op PrimFloat.div num den.

(** ** [load_scale_factors] and [calculate_reflectance] *)

Section Loader.

(** [json.load] on a file opened as text: the document it returns for a file
    with these contents, [None] when it raises.  It raises
    [UnicodeDecodeError] when the contents are not text in the locale's
    encoding and [JSONDecodeError] when they are text but not JSON. *)
Variable json_load : bytes -> option json.

Definition load_json (filename : string) : io json :=
  data ← read_file filename;
  match json_load data with
  | Some doc => mret doc
  | None =>
      fun w => (Raise (if is_text w data then JSONDecodeError
                       else UnicodeDecodeError), w)
  end.

(** ['REFLECTANCE_MULT_BAND_{}'.format(band_number)] and its [ADD] twin. *)
Definition mult_key (band_number : Z) : string :=
  "REFLECTANCE_MULT_BAND_" +:+ pretty band_number.

Definition add_key (band_number : Z) : string :=
  "REFLECTANCE_ADD_BAND_" +:+ pretty band_number.

(** The two subscript chains of the function body, on the decoded document. *)
Definition scale_factors (metadata : json) (band_number : Z) : result (json * json) :=
  M_p ← (l1 ← getitem metadata "L1_METADATA_FILE";
         rr ← getitem l1 "RADIOMETRIC_RESCALING";
         getitem rr (mult_key band_number));
  A_p ← (l1 ← getitem metadata "L1_METADATA_FILE";
         rr ← getitem l1 "RADIOMETRIC_RESCALING";
         getitem rr (add_key band_number));
  mret (M_p, A_p).

Definition load_scale_factors (filename : string) (band_number : Z) : io (json * json) :=
  metadata ← load_json filename;
  lift (scale_factors metadata band_number).

(** [toa = M_p * ds + A_p] with the coefficients of [band_number] read from
    [metafile] (the notebook's default is ['meta.json']). *)
Definition calculate_reflectance {E} `{Numeric E}
    (ds : DataArray E) (band_number : Z) (metafile : string) : io (DataArray float) :=
  '(M_p, A_p) ← load_scale_factors metafile band_number;
  toa ← lift (linear_rescale M_p A_p ds);
  mret toa.

End Loader.

(** ** What a metadata document holds

    The specification speaks of the coefficients found under the nested keys
    of a band, and of keys or enclosing structure being absent.  These
    predicates say it on the decoded document, without running the loader. *)

(** [reaches v ks v']: following the keys [ks] from [v] through nested
    mappings arrives at [v']. *)
Inductive reaches : json -> list string -> json -> Prop :=
  | reaches_here v : reaches v [] v
  | reaches_step o k v ks v' :
      o !! k = Some v -> reaches v ks v' -> reaches (JObject o) (k :: ks) v'.

Definition rescaling_path : list string :=
  ["L1_METADATA_FILE"; "RADIOMETRIC_RESCALING"].

Definition is_mapping (v : json) : Prop :=
  match v with
  | JObject _ => True
  | _ => False
  end.

(** The document holds multiplier [m] and offset [a] for the band. *)
Definition contains_factors (doc : json) (band_number : Z) (m a : json) : Prop :=
  exists o, reaches doc rescaling_path (JObject o) /\
            o !! mult_key band_number = Some m /\
            o !! add_key band_number = Some a.

Definition factors_present (doc : json) (band_number : Z) : Prop :=
  exists m a, contains_factors doc band_number m a.

(** A mapping on the way lacks the key that is asked of it: one of the two
    enclosing keys, or one of the band's two keys in the innermost mapping. *)
Definition key_missing (doc : json) (band_number : Z) : Prop :=
  exists ks o k,
    reaches doc ks (JObject o) /\ o !! k = None /\
    ((ks ++ [k]) `prefix_of` rescaling_path \/
     (ks = rescaling_path /\ (k = mult_key band_number \/ k = add_key band_number))).

(** A value on the way is there but is not a mapping: the document itself or
    what one of the two enclosing keys holds. *)
Definition not_a_mapping (doc : json) : Prop :=
  exists ks v, ks `prefix_of` rescaling_path /\ reaches doc ks v /\ ~ is_mapping v.

(** ** Binary floating point: values and rounding *)

Definition bpow (e : Z) : R := powerRZ 2 e.

(** The real number [m * 2^e]. *)
Definition F2R (m e : Z) : R := (IZR m * bpow e)%R.

(** The value of a non-negative number; zero for everything else. *)
Definition SF_value (x : spec_float) : R :=
  match x with
  | S754_finite false m e => F2R (Z.pos m) e
  | _ => 0%R
  end.

(** A zero, or a finite number whose magnitude is at most [B]. *)
Definition SF_abs_le (d : spec_float) (B : R) : Prop :=
  match d with
  | S754_zero _ => True
  | S754_finite _ m e => (F2R (Z.pos m) e <= B)%R
  | _ => False
  end.

(** Plus infinity, or a positive finite number that is at least [B]. *)
Definition SF_pos_ge (s : spec_float) (B : R) : Prop :=
  match s with
  | S754_infinity false => True
  | S754_finite false m e => (B <= F2R (Z.pos m) e)%R
  | _ => False
  end.

(** A zero of either sign or a positive finite number of the format. *)
Definition SF_nonneg_finite (prec emax : Z) (x : spec_float) : Prop :=
  match x with
  | S754_zero _ => True
  | S754_finite false m e => bounded prec emax m e = true
  | _ => False
  end.

(** A zero, or a finite number between minus one and one: its exponent is at
    most that of one, [1 - prec], and its magnitude at most
    [2^(prec-1) * 2^(1-prec)]. *)
Definition SF_in_unit (prec : Z) (q : spec_float) : Prop :=
  match q with
  | S754_zero _ => True
  | S754_finite _ m e =>
      e <= 1 - prec /\ (F2R (Z.pos m) e <= F2R (2 ^ (prec - 1)) (1 - prec))%R
  | _ => False
  end.


(** A zero, or a finite number with sign bit [sgn]. *)
Definition SF_sign_is (sgn : bool) (d : spec_float) : Prop :=
  match d with
  | S754_zero _ => True
  | S754_finite s _ _ => s = sgn
  | _ => False
  end.

Definition SF_is_zero (d : spec_float) : Prop :=
  match d with
  | S754_zero _ => True
  | _ => False
  end.

(** ** The notebook's cells

    The code the notebook runs around its three functions: the names of the
    scene's files, the three downloads, the two reflectance calls and the
    index. *)

Definition url : string :=
  "http://landsat-pds.s3.amazonaws.com/c1/L8/227/065/LC08_L1TP_227065_20200608_20200626_01_T1/".

(** ['LC08_L1TP_227065_20200608_20200626_01_T1_B{}.TIF'.format(band)] *)
Definition band_tif (band : Z) : string :=
  "LC08_L1TP_227065_20200608_20200626_01_T1_B" +:+ pretty band +:+ ".TIF".

Definition redband : string := band_tif 4.
Definition nirband : string := band_tif 5.

(** ['LC08_L1TP_227065_20200608_20200626_01_T1_{}.json'.format('MTL')] *)
Definition mtlfile : string :=
  "LC08_L1TP_227065_20200608_20200626_01_T1_" +:+ "MTL" +:+ ".json".

Definition nir_filename : string := url +:+ nirband.
Definition red_filename : string := url +:+ redband.
Definition mtl_filename : string := url +:+ mtlfile.

(** The download cell: three calls, one destination each. *)
Definition download_cell : io unit :=
  download_file nir_filename "nir.tif";;
  download_file red_filename "red.tif";;
  download_file mtl_filename "meta.json".

(** The overview cell: the second entry of the list of decimation factors
    divides the raster's height and width, with Python's floor division, into
    the shape that is read.  The list index and the division are the two
    places where the cell can raise. *)

Module Overview.

Inductive exn : Type :=
  | IndexError
  | ZeroDivisionError.

(** What the cell asks of the open raster: [src.height], [src.width] and
    [src.overviews(1)]. *)
Record dataset : Type := Dataset {
  height : Z;
  width : Z;
  overviews : list Z
}.

(** [oview = oviews[1]] and
    [out_shape = (1, int(src.height // oview), int(src.width // oview))]. *)
Definition out_shape (src : dataset) : exn + Z * Z * Z :=
  match overviews src !! 1%nat with
  | None => inl IndexError
  | Some oview =>
      if decide (oview = 0) then inl ZeroDivisionError
      else inr (1, height src / oview, width src / oview)
  end.

End Overview.

Section Cells.

Variable json_load : bytes -> option json.

(** [red_toa = calculate_reflectance(red, band_number=4)] and
    [nir_toa = calculate_reflectance(nir, band_number=5)], both with the
    default metadata file. *)
Definition reflectance_cell {E} `{Numeric E} (red nir : DataArray E)
  : io (DataArray float * DataArray float) :=
  red_toa ← calculate_reflectance json_load red 4 "meta.json";
  nir_toa ← calculate_reflectance json_load nir 5 "meta.json";
  mret (red_toa, nir_toa).

(** The two reflectance calls followed by the index. *)
Definition ndvi_cell {E} `{Numeric E} (red nir : DataArray E) : io (DataArray float) :=
  '(red_toa, nir_toa) ← reflectance_cell red nir;
  lift (ndvi nir_toa red_toa).

End Cells.

(** ** Sample data

    A metadata document with the coefficients of band 4 as in the
    specification's scenario, the text it is decoded from, a decoder that
    knows this one text, and a one-pixel raster. *)

Module Sample.

Definition rescaling : gmap string json :=
  {[ "REFLECTANCE_MULT_BAND_4" := JFloat 2%float;
     "REFLECTANCE_ADD_BAND_4" := JFloat (-62)%float ]}.

Definition meta_doc : json :=
  JObject {[ "L1_METADATA_FILE" :=
    JObject {[ "RADIOMETRIC_RESCALING" := JObject rescaling ]} ]}.

(** A key or string of the JSON text, in its double quotes. *)
Definition quoted (s : string) : string :=
  String (Ascii.ascii_of_nat 34) (s +:+ String (Ascii.ascii_of_nat 34) EmptyString).

Definition meta_text : bytes :=
  String.list_byte_of_string
    ("{" +:+ quoted "L1_METADATA_FILE" +:+ ": {" +:+ quoted "RADIOMETRIC_RESCALING"
     +:+ ": {" +:+ quoted "REFLECTANCE_MULT_BAND_4" +:+ ": 2.0, "
     +:+ quoted "REFLECTANCE_ADD_BAND_4" +:+ ": -62.0}}}").

(** A document whose outer key is there but holds [null]. *)
Definition null_doc : json := JObject {[ "L1_METADATA_FILE" := JNull ]}.

Definition null_text : bytes :=
  String.list_byte_of_string ("{" +:+ quoted "L1_METADATA_FILE" +:+ ": null}").

Definition decoder (data : bytes) : option json :=
  if decide (data = meta_text) then Some meta_doc
  else if decide (data = null_text) then Some null_doc
  else None.

Definition tiff : bytes := String.list_byte_of_string "II*".
Definition not_found_page : bytes := String.list_byte_of_string "<html>404</html>".

(** The platform of the samples: the client rejects a URL without a scheme
    before it sends anything and reports a lost connection otherwise; no file
    can be created in the directory [nodir], which does not exist; text is
    what has no byte above 127. *)
Definition has_scheme (u : string) : bool :=
  String.prefix "http://" u || String.prefix "https://" u.

Definition client (u : string) : get_failure :=
  if has_scheme u then Failed (ConnectionError u) else Rejected (MissingSchema u).

Definition filesystem (path : string) (data : bytes) : write_outcome :=
  if String.prefix "nodir/" path then NotWritten (FileNotFoundError path) None
  else Written.

Definition ascii_only (data : bytes) : bool :=
  forallb (fun b => (Byte.to_N b <? 128)%N) data.

(** A service that knows one URL and answers every other well-formed one
    with a 404 page. *)
Definition service (url : string) : option response :=
  if decide (url = "http://bucket/B4.TIF") then Some (Response 200 tiff)
  else if has_scheme url then Some (Response 404 not_found_page)
  else None.

Definition empty_disk : world := World ∅ service [] [] client filesystem ascii_only.

Definition disk_with_meta : world :=
  World {[ "meta.json" := meta_text ]} service [] [] client filesystem ascii_only.

Definition disk_with_null : world :=
  World {[ "meta.json" := null_text ]} service [] [] client filesystem ascii_only.

Definition pixel (n : Z) (H : bool_decide (0 <= n < 65536)) : DataArray uint16 :=
  mkDataArray ["band"; "y"; "x"]
              {[ "band" := [1%float]; "y" := [0%float]; "x" := [0%float] ]}
              [1%nat; 1%nat; 1%nat]
              [U16 n H].

Definition cell (x : float) : DataArray float :=
  mkDataArray ["band"; "y"; "x"]
              {[ "band" := [1%float]; "y" := [0%float]; "x" := [0%float] ]}
              [1%nat; 1%nat; 1%nat]
              [x].

End Sample.

(** ** More sample data *)

Module Scene.

(** A service that refuses every request. *)
Definition offline (u : string) : option response := None.

Definition offline_disk : world := World ∅ offline [] []
        Sample.client Sample.filesystem Sample.ascii_only.

(** A service that has the two bands but not the metadata. *)
Definition bands_only (u : string) : option response :=
  if decide (u = mtl_filename) then None
  else if Sample.has_scheme u then Some (Response 200 Sample.tiff)
  else None.

Definition bands_only_disk : world := World ∅ bands_only [] []
        Sample.client Sample.filesystem Sample.ascii_only.

(** A disk that already holds one of the bands. *)
Definition disk_with_red : world :=
  World {[ "red.tif" := Sample.tiff ]} Sample.service [] []
        Sample.client Sample.filesystem Sample.ascii_only.

(** The doubles that [2.0E-05] and [-0.1] are read as. *)
Definition mult : float := 0x1.4f8b588e368f1p-16%float.
Definition offset : float := (-0x1.999999999999ap-4)%float.

(** Metadata with the coefficients of the red and the near-infrared band. *)
Definition two_band_rescaling : gmap string json :=
  {[ "REFLECTANCE_MULT_BAND_4" := JFloat mult;
     "REFLECTANCE_ADD_BAND_4" := JFloat offset;
     "REFLECTANCE_MULT_BAND_5" := JFloat mult;
     "REFLECTANCE_ADD_BAND_5" := JFloat offset ]}.

Definition two_band_doc : json :=
  JObject {[ "L1_METADATA_FILE" :=
    JObject {[ "RADIOMETRIC_RESCALING" := JObject two_band_rescaling ]} ]}.

Definition two_band_text : bytes :=
  String.list_byte_of_string
    ("{" +:+ Sample.quoted "L1_METADATA_FILE" +:+ ": {"
     +:+ Sample.quoted "RADIOMETRIC_RESCALING" +:+ ": {"
     +:+ Sample.quoted "REFLECTANCE_MULT_BAND_4" +:+ ": 2.0E-05, "
     +:+ Sample.quoted "REFLECTANCE_ADD_BAND_4" +:+ ": -0.1, "
     +:+ Sample.quoted "REFLECTANCE_MULT_BAND_5" +:+ ": 2.0E-05, "
     +:+ Sample.quoted "REFLECTANCE_ADD_BAND_5" +:+ ": -0.1}}}").

Definition decoder (data : bytes) : option json :=
  if decide (data = two_band_text) then Some two_band_doc
  else Sample.decoder data.

Definition disk_with_two_bands : world :=
  World {[ "meta.json" := two_band_text ]} Sample.service [] []
        Sample.client Sample.filesystem Sample.ascii_only.

(** Bytes that are not text: no encoding of a string starts like this. *)
Definition binary : bytes := [Byte.xff; Byte.xfe; Byte.x00; Byte.x80].

(** A disk whose metadata file holds binary data. *)
Definition disk_with_binary : world :=
  World {[ "meta.json" := binary ]} Sample.service [] []
        Sample.client Sample.filesystem Sample.ascii_only.

(** A row of pixels along [x], with the labels of its columns. *)
Definition row (labels vals : list float) : DataArray float :=
  mkDataArray ["band"; "y"; "x"]
              {[ "band" := [1%float]; "y" := [0%float]; "x" := labels ]}
              [1%nat; 1%nat; length labels]
              vals.

(** Two pixels stored from west to east, and two stored from east to west. *)
Definition west_east : DataArray float := row [0; 1]%float [0; 1]%float.
Definition east_west : DataArray float := row [1; 0]%float [1; 0]%float.

(** A disk whose metadata file holds an error page. *)
Definition disk_with_error_page : world :=
  World {[ "meta.json" := Sample.not_found_page ]} Sample.service [] []
        Sample.client Sample.filesystem Sample.ascii_only.

End Scene.

(** * Properties *)

(** ** [download_file] *)

Lemma io_bind_unfold {A B} (c : io A) (k : A -> io B) (w : world) :
  (c ≫= k) w =
    match c w with
    | (Ok a, w') => k a w'
    | (Raise e, w') => (Raise e, w')
    end.
Proof. reflexivity. Qed.

Section Download.

Implicit Types (w : world) (u d : string).

Lemma download_file_existing u d w :
  is_Some (files w !! d) -> download_file u d w = (Ok tt, w).
Proof.
  intros Hd. unfold download_file, mbind, io_bind, os_path_exists.
  rewrite bool_decide_eq_true_2 by done. reflexivity.
Qed.

(** With the destination missing, the call prints, asks for the source and
    writes what comes back; each of the last two steps can raise. *)
Lemma download_file_missing u d w :
  files w !! d = None ->
  download_file u d w =
    match http w u with
    | Some r =>
        match store w d (content r) with
        | Written => (Ok tt, holding d (content r) (requested u (announced u w)))
        | NotWritten e None => (Raise e, requested u (announced u w))
        | NotWritten e (Some part) =>
            (Raise e, holding d part (requested u (announced u w)))
        end
    | None =>
        match get_error w u with
        | Rejected e => (Raise e, announced u w)
        | Failed e => (Raise e, requested u (announced u w))
        end
    end.
Proof.
  intros Hd. unfold download_file, mbind, io_bind, os_path_exists.
  rewrite bool_decide_eq_false_2 by (rewrite Hd; intros [? ?]; discriminate).
  cbn. unfold requests_get. cbn.
  destruct (http w u) as [r|]; cbn.
  - unfold write_file. cbn. destruct (store w d (content r)) as [|e [part|]]; reflexivity.
  - destruct (get_error w u); reflexivity.
Qed.

Lemma download_file_fetch u d w r :
  files w !! d = None -> http w u = Some r -> store w d (content r) = Written ->
  download_file u d w =
    (Ok tt, holding d (content r) (requested u (announced u w))).
Proof.
  intros Hd Hu Hs. rewrite (download_file_missing u d w Hd), Hu, Hs. reflexivity.
Qed.

(** A call that returns leaves the destination on disk. *)
Lemma download_file_ok_present u d w w1 :
  download_file u d w = (Ok tt, w1) -> is_Some (files w1 !! d).
Proof.
  destruct (files w !! d) as [c|] eqn:Hd.
  - rewrite download_file_existing by (rewrite Hd; eauto).
    intros [= <-]. rewrite Hd. eauto.
  - rewrite (download_file_missing u d w Hd).
    destruct (http w u) as [r|].
    + destruct (store w d (content r)) as [|e [part|]]; try discriminate.
      intros [= <-]. cbn. rewrite lookup_insert_eq. eauto.
    + destruct (get_error w u); discriminate.
Qed.

Lemma download_all_existing us d w :
  is_Some (files w !! d) -> download_all us d w = (Ok tt, w).
Proof.
  intros Hd. induction us as [|u us IH]; [reflexivity|].
  cbn. rewrite io_bind_unfold, download_file_existing by done. exact IH.
Qed.

End Download.

(** C5.  [download_file] is idempotent.  Two calls in sequence with the same
    destination leave the world, request log included, as the first call
    alone leaves it, whatever source the second call names.  The sequence
    issues no GET when the destination was there or the client rejects the
    URL before sending, and one GET, for the first call's source, otherwise.
    Whenever the first call returns, the destination is on disk and a second
    call returns at once, changing nothing.  And the first call does return
    for a missing destination that can be written when the service answers:
    it has then issued its one GET and stored the body. *)
Theorem download_file_idempotent (u u2 d : string) (w : world) :
  (download_file u d;; download_file u d) w = download_file u d w /\
  (download_file u d;; download_file u2 d) w = download_file u d w /\
  requests (snd ((download_file u d;; download_file u2 d) w)) =
    requests w ++
      match files w !! d, http w u, get_error w u with
      | Some _, _, _ => []
      | None, None, Rejected _ => []
      | None, _, _ => [u]
      end /\
  (forall w1, download_file u d w = (Ok tt, w1) ->
     is_Some (files w1 !! d) /\ download_file u2 d w1 = (Ok tt, w1)) /\
  (forall r, files w !! d = None -> http w u = Some r ->
     store w d (content r) = Written ->
     exists w1, download_file u d w = (Ok tt, w1) /\
                requests w1 = requests w ++ [u] /\
                files w1 !! d = Some (content r) /\
                download_file u2 d w1 = (Ok tt, w1)).
Proof.
  assert (Hret : forall v w1, download_file u d w = (Ok tt, w1) ->
             is_Some (files w1 !! d) /\ download_file v d w1 = (Ok tt, w1)).
  { intros v w1 H. apply download_file_ok_present in H.
    split; [exact H|]. apply download_file_existing, H. }
  assert (Hseq : forall v,
             (download_file u d;; download_file v d) w = download_file u d w).
  { intros v. rewrite io_bind_unfold.
    destruct (download_file u d w) as [[[]|e] w1] eqn:H; [|reflexivity].
    apply download_file_ok_present in H.
    apply download_file_existing, H. }
  split; [apply Hseq|]. split; [apply Hseq|]. split; [|split].
  - rewrite Hseq. destruct (files w !! d) as [c|] eqn:Hd.
    + rewrite download_file_existing by (rewrite Hd; eauto).
      cbn. rewrite app_nil_r. reflexivity.
    + rewrite (download_file_missing u d w Hd).
      destruct (http w u) as [r|].
      * destruct (store w d (content r)) as [|e [part|]], (get_error w u); reflexivity.
      * destruct (get_error w u); cbn; rewrite ?app_nil_r; reflexivity.
  - apply Hret.
  - intros r Hd Hu Hs. eexists. split; [exact (download_file_fetch u d w r Hd Hu Hs)|].
    split; [reflexivity|]. split; [cbn; apply lookup_insert_eq|].
    apply download_file_existing. cbn. rewrite lookup_insert_eq. eauto.
Qed.

Lemma download_file_idempotent_witness :
  exists w1,
    download_file "http://bucket/B4.TIF" "red.tif" Sample.empty_disk = (Ok tt, w1) /\
    requests w1 = requests Sample.empty_disk ++ ["http://bucket/B4.TIF"] /\
    files w1 !! "red.tif" = Some (content (Response 200 Sample.tiff)) /\
    download_file "http://elsewhere/B4.TIF" "red.tif" w1 = (Ok tt, w1).
Proof.
  apply (proj2 (proj2 (proj2 (proj2
    (download_file_idempotent "http://bucket/B4.TIF" "http://elsewhere/B4.TIF"
                              "red.tif" Sample.empty_disk))))
    (Response 200 Sample.tiff)); reflexivity.
Defined.

(** C9, as the code has it.  With the destination missing and writable,
    whatever the service answers is written to it, error pages included (the
    status code is never read); one GET is logged; and every later run of
    calls with that destination returns without a request and without a
    change. *)
Theorem download_file_persists_any_response
    (u d : string) (w : world) (status : Z) (body : bytes) :
  files w !! d = None ->
  http w u = Some (Response status body) ->
  store w d body = Written ->
  exists w',
    download_file u d w = (Ok tt, w') /\
    files w' = <[d := body]> (files w) /\
    requests w' = requests w ++ [u] /\
    forall later : list string, download_all later d w' = (Ok tt, w').
Proof.
  intros Hd Hu Hs. eexists.
  split; [exact (download_file_fetch u d w _ Hd Hu Hs)|].
  cbn. repeat split.
  intros later. apply download_all_existing. cbn.
  rewrite lookup_insert_eq. eauto.
Qed.

Lemma download_file_persists_any_response_witness :
  exists w',
    download_file "http://bucket/missing.TIF" "red.tif" Sample.empty_disk = (Ok tt, w') /\
    files w' = <["red.tif" := Sample.not_found_page]> (files Sample.empty_disk) /\
    requests w' = requests Sample.empty_disk ++ ["http://bucket/missing.TIF"] /\
    forall later : list string, download_all later "red.tif" w' = (Ok tt, w').
Proof.
  apply (download_file_persists_any_response
           "http://bucket/missing.TIF" "red.tif" Sample.empty_disk 404 Sample.not_found_page).
  - reflexivity.
  - reflexivity.
  - reflexivity.
Defined.

(** A destination in a directory that does not exist: the GET goes out,
    [open] raises, nothing is stored, and the next call asks the service
    again. *)
Lemma download_file_unwritable_destination :
  exists w1 w2,
    download_file "http://bucket/B4.TIF" "nodir/red.tif" Sample.empty_disk
      = (Raise (FileNotFoundError "nodir/red.tif"), w1) /\
    files w1 = files Sample.empty_disk /\
    requests w1 = ["http://bucket/B4.TIF"] /\
    download_file "http://bucket/B4.TIF" "nodir/red.tif" w1
      = (Raise (FileNotFoundError "nodir/red.tif"), w2) /\
    requests w2 = ["http://bucket/B4.TIF"; "http://bucket/B4.TIF"].
Proof.
  do 2 eexists. split; [reflexivity|]. split; [reflexivity|].
  split; [reflexivity|]. split; reflexivity.
Qed.

(** C9, as stated, fails: a missing destination and a response do not make
    the body persist.  The destination [nodir/red.tif] is missing and the
    service answers the request, but the file cannot be created: the call
    raises and later calls find no file. *)
Lemma download_file_unwritable_destination_counterexample :
  ~ (files Sample.empty_disk !! "nodir/red.tif" = None ->
     http Sample.empty_disk "http://bucket/B4.TIF" = Some (Response 200 Sample.tiff) ->
     exists w',
       download_file "http://bucket/B4.TIF" "nodir/red.tif" Sample.empty_disk
         = (Ok tt, w') /\
       files w' !! "nodir/red.tif" = Some Sample.tiff /\
       forall later : list string,
         download_all later "nodir/red.tif" w' = (Ok tt, w')).
Proof.
  intros H. destruct (H eq_refl eq_refl) as (w' & Hw & _).
  vm_compute in Hw. discriminate Hw.
Qed.

(** C10.  With the destination present, [download_file] returns at once for
    any source URL: no GET, nothing printed, every file as it was. *)
Theorem download_file_existing_untouched (u d : string) (w : world) (old : bytes) :
  files w !! d = Some old ->
  download_file u d w = (Ok tt, w).
Proof.
  intros Hd. apply download_file_existing. rewrite Hd. eauto.
Qed.

Lemma download_file_existing_untouched_witness :
  download_file "http://elsewhere/other.json" "meta.json" Sample.disk_with_meta
  = (Ok tt, Sample.disk_with_meta).
Proof.
  apply (download_file_existing_untouched
           "http://elsewhere/other.json" "meta.json" Sample.disk_with_meta Sample.meta_text).
  reflexivity.
Defined.

(** ** [load_scale_factors] *)

Section LoaderFacts.

Variable json_load : bytes -> option json.

Lemma load_json_decoded filename w data doc :
  files w !! filename = Some data -> json_load data = Some doc ->
  load_json json_load filename w = (Ok doc, w).
Proof.
  intros Hf Hj. unfold load_json. rewrite io_bind_unfold.
  unfold read_file. rewrite Hf, Hj. reflexivity.
Qed.

Lemma load_scale_factors_decoded filename band w data doc :
  files w !! filename = Some data -> json_load data = Some doc ->
  load_scale_factors json_load filename band w = (scale_factors doc band, w).
Proof.
  intros Hf Hj. unfold load_scale_factors.
  rewrite io_bind_unfold, (load_json_decoded _ _ _ _ Hf Hj). reflexivity.
Qed.

End LoaderFacts.

Lemma reaches_nil_inv v v' : reaches v [] v' -> v' = v.
Proof. inversion 1; reflexivity. Qed.

Lemma reaches_cons_inv v k ks v' :
  reaches v (k :: ks) v' ->
  exists o x, v = JObject o /\ o !! k = Some x /\ reaches x ks v'.
Proof. inversion 1; subst; eauto. Qed.

Lemma reaches_rescaling doc v :
  reaches doc rescaling_path v <->
  exists o1 o2, doc = JObject o1 /\
                o1 !! "L1_METADATA_FILE" = Some (JObject o2) /\
                o2 !! "RADIOMETRIC_RESCALING" = Some v.
Proof.
  unfold rescaling_path. split.
  - intros H. apply reaches_cons_inv in H as (o1 & x & -> & H1 & H).
    apply reaches_cons_inv in H as (o2 & y & -> & H2 & H).
    apply reaches_nil_inv in H as ->. eauto.
  - intros (o1 & o2 & -> & H1 & H2).
    eapply reaches_step; [exact H1|]. eapply reaches_step; [exact H2|]. constructor.
Qed.

Lemma scale_factors_found doc band m a :
  contains_factors doc band m a -> scale_factors doc band = Ok (m, a).
Proof.
  intros (o & Hr & Hm & Ha).
  apply reaches_rescaling in Hr as (o1 & o2 & -> & H1 & H2).
  unfold scale_factors, mbind, result_bind, getitem.
  rewrite H1, H2, Hm, Ha. reflexivity.
Qed.

Lemma scale_factors_ok_inv doc band m a :
  scale_factors doc band = Ok (m, a) -> contains_factors doc band m a.
Proof.
  unfold scale_factors, mbind, result_bind, getitem. intros H.
  destruct doc as [| | | | | |o1]; try discriminate.
  destruct (o1 !! "L1_METADATA_FILE") as [[| | | | | |o2]|] eqn:H1; try discriminate.
  destruct (o2 !! "RADIOMETRIC_RESCALING") as [[| | | | | |o3]|] eqn:H2; try discriminate.
  destruct (o3 !! mult_key band) as [m'|] eqn:Hm; try discriminate.
  destruct (o3 !! add_key band) as [a'|] eqn:Ha; try discriminate.
  injection H as -> ->. exists o3. split; [|auto].
  apply reaches_rescaling. eauto.
Qed.

Lemma prefix_of_rescaling_path ks :
  ks `prefix_of` rescaling_path ->
  ks = [] \/ ks = ["L1_METADATA_FILE"] \/ ks = rescaling_path.
Proof.
  intros [rest H]. unfold rescaling_path in *.
  destruct ks as [|k1 [|k2 [|k3 ks]]]; cbn in H.
  - auto.
  - injection H as <- _. auto.
  - injection H as <- <- _. auto.
  - destruct rest; discriminate.
Qed.

Lemma snoc_prefix_of_rescaling_path ks k :
  (ks ++ [k]) `prefix_of` rescaling_path ->
  (ks = [] /\ k = "L1_METADATA_FILE") \/
  (ks = ["L1_METADATA_FILE"] /\ k = "RADIOMETRIC_RESCALING").
Proof.
  intros H. apply prefix_of_rescaling_path in H as [H|[H|H]].
  - destruct ks; discriminate.
  - destruct ks as [|k1 [|k2 ks]]; cbn in H; try discriminate.
    injection H as ->. auto.
  - unfold rescaling_path in H.
    destruct ks as [|k1 [|k2 [|k3 ks]]]; cbn in H; try discriminate.
    injection H as -> ->. auto.
Qed.

Lemma scale_factors_key_error doc band :
  (exists e, scale_factors doc band = Raise e /\ is_lookup_error e = true) <->
  key_missing doc band.
Proof.
  unfold scale_factors, mbind, result_bind, getitem. split.
  - intros (e & H & He).
    destruct doc as [| | | | | |o1];
      try (injection H as <-; discriminate).
    destruct (o1 !! "L1_METADATA_FILE") as [v1|] eqn:H1.
    2:{ exists [], o1, "L1_METADATA_FILE". split; [constructor|]. split; [done|].
        left. exists ["RADIOMETRIC_RESCALING"]. reflexivity. }
    destruct v1 as [| | | | | |o2];
      try (injection H as <-; discriminate).
    destruct (o2 !! "RADIOMETRIC_RESCALING") as [v2|] eqn:H2.
    2:{ exists ["L1_METADATA_FILE"], o2, "RADIOMETRIC_RESCALING".
        split; [eapply reaches_step; [exact H1|constructor]|]. split; [done|].
        left. exists []. reflexivity. }
    destruct v2 as [| | | | | |o3];
      try (injection H as <-; discriminate).
    assert (Hr : reaches (JObject o1) rescaling_path (JObject o3))
      by (apply reaches_rescaling; eauto).
    destruct (o3 !! mult_key band) as [m|] eqn:Hm.
    2:{ exists rescaling_path, o3, (mult_key band). auto 10. }
    destruct (o3 !! add_key band) as [a|] eqn:Ha; [discriminate|].
    exists rescaling_path, o3, (add_key band). auto 10.
  - intros (ks & o & k & Hr & Hk & [Hp|[-> Hp]]).
    + apply snoc_prefix_of_rescaling_path in Hp as [[-> ->]|[-> ->]].
      * apply reaches_nil_inv in Hr. subst doc. rewrite Hk. eauto.
      * apply reaches_cons_inv in Hr as (o1 & x & -> & H1 & Hr).
        apply reaches_nil_inv in Hr. subst x. rewrite H1, Hk. eauto.
    + apply reaches_rescaling in Hr as (o1 & o2 & -> & H1 & H2).
      rewrite H1, H2.
      destruct Hp as [-> | ->].
      * rewrite Hk. eauto.
      * rewrite Hk. destruct (o !! mult_key band); eauto.
Qed.

Lemma scale_factors_type_error doc band :
  scale_factors doc band = Raise TypeError <-> not_a_mapping doc.
Proof.
  unfold scale_factors, mbind, result_bind, getitem. split.
  - intros H.
    destruct doc as [| | | | | |o1];
      try (eexists [], _; split; [by exists rescaling_path|];
           split; [constructor|]; cbn; tauto).
    destruct (o1 !! "L1_METADATA_FILE") as [v1|] eqn:H1; [|discriminate].
    destruct v1 as [| | | | | |o2];
      try (eexists ["L1_METADATA_FILE"], _;
           split; [by exists ["RADIOMETRIC_RESCALING"]|];
           split; [eapply reaches_step; [exact H1|constructor]|]; cbn; tauto).
    destruct (o2 !! "RADIOMETRIC_RESCALING") as [v2|] eqn:H2; [|discriminate].
    destruct v2 as [| | | | | |o3];
      try (eexists rescaling_path, _; split; [by exists []|];
           split; [apply reaches_rescaling; eauto|]; cbn; tauto).
    destruct (o3 !! mult_key band); [|discriminate].
    destruct (o3 !! add_key band); discriminate.
  - intros (ks & v & Hp & Hr & Hv).
    apply prefix_of_rescaling_path in Hp as [->|[->| ->]].
    + apply reaches_nil_inv in Hr as ->. destruct doc; cbn in Hv; tauto.
    + apply reaches_cons_inv in Hr as (o1 & x & -> & H1 & Hr).
      apply reaches_nil_inv in Hr as ->. rewrite H1.
      destruct x; cbn in Hv; tauto.
    + apply reaches_rescaling in Hr as (o1 & o2 & -> & H1 & H2).
      rewrite H1, H2. destruct v; cbn in Hv; tauto.
Qed.

Lemma scale_factors_outcomes doc band :
  (exists m a, scale_factors doc band = Ok (m, a)) \/
  (exists k, scale_factors doc band = Raise (KeyError k)) \/
  scale_factors doc band = Raise TypeError.
Proof.
  unfold scale_factors, mbind, result_bind, getitem.
  destruct doc as [| | | | | |o1]; auto.
  destruct (o1 !! "L1_METADATA_FILE") as [[| | | | | |o2]|]; eauto.
  destruct (o2 !! "RADIOMETRIC_RESCALING") as [[| | | | | |o3]|]; eauto.
  destruct (o3 !! mult_key band); eauto.
  destruct (o3 !! add_key band); eauto.
Qed.

(** C3.  When the file decodes to a document that holds a multiplier and an
    offset under the nested keys of the band, [load_scale_factors] returns
    exactly these two values, multiplier first, and leaves the world alone. *)
Theorem load_scale_factors_returns_pair
    (json_load : bytes -> option json) (filename : string) (band_number : Z)
    (w : world) (data : bytes) (doc m a : json) :
  files w !! filename = Some data ->
  json_load data = Some doc ->
  contains_factors doc band_number m a ->
  load_scale_factors json_load filename band_number w = (Ok (m, a), w).
Proof.
  intros Hf Hj Hc.
  rewrite (load_scale_factors_decoded json_load _ _ _ _ _ Hf Hj).
  rewrite (scale_factors_found _ _ _ _ Hc). reflexivity.
Qed.

Lemma load_scale_factors_returns_pair_witness :
  load_scale_factors Sample.decoder "meta.json" 4 Sample.disk_with_meta
  = (Ok (JFloat 2%float, JFloat (-62)%float), Sample.disk_with_meta).
Proof.
  apply (load_scale_factors_returns_pair
           Sample.decoder "meta.json" 4 Sample.disk_with_meta
           Sample.meta_text Sample.meta_doc (JFloat 2%float) (JFloat (-62)%float)).
  - reflexivity.
  - reflexivity.
  - exists Sample.rescaling. split; [|split; reflexivity].
    eapply reaches_step; [reflexivity|].
    eapply reaches_step; [reflexivity|]. constructor.
Defined.

(** C4, as the code has it.  On a decoded document [load_scale_factors] has
    three outcomes and never changes the world (one read, nothing retried):
    it raises a lookup error ([KeyError]) exactly when a mapping on the way
    lacks the key asked of it; it raises [TypeError] exactly when a value on
    the way is present but is not a mapping; it returns a pair exactly when
    the document holds both coefficients.  One of the three always applies. *)
Theorem load_scale_factors_failure_modes
    (json_load : bytes -> option json) (filename : string) (band_number : Z)
    (w : world) (data : bytes) (doc : json) :
  files w !! filename = Some data ->
  json_load data = Some doc ->
  let r := load_scale_factors json_load filename band_number w in
  snd r = w /\
  ((exists e, fst r = Raise e /\ is_lookup_error e = true)
     <-> key_missing doc band_number) /\
  (fst r = Raise TypeError <-> not_a_mapping doc) /\
  ((exists m a, fst r = Ok (m, a)) <-> factors_present doc band_number) /\
  (factors_present doc band_number \/ key_missing doc band_number \/ not_a_mapping doc).
Proof.
  intros Hf Hj r. subst r.
  rewrite (load_scale_factors_decoded json_load _ _ _ _ _ Hf Hj). cbn [fst snd].
  split; [reflexivity|].
  split; [apply scale_factors_key_error|].
  split; [apply scale_factors_type_error|].
  assert (Hok : (exists m a, scale_factors doc band_number = Ok (m, a))
                <-> factors_present doc band_number).
  { split.
    - intros (m & a & H). exists m, a. by apply scale_factors_ok_inv.
    - intros (m & a & H). exists m, a. by apply scale_factors_found. }
  split; [exact Hok|].
  destruct (scale_factors_outcomes doc band_number) as [H|[[k H]|H]].
  - left. by apply Hok.
  - right; left. apply scale_factors_key_error. eauto.
  - right; right. by apply (scale_factors_type_error doc band_number).
Qed.

Lemma load_scale_factors_failure_modes_witness :
  let r := load_scale_factors Sample.decoder "meta.json" 4 Sample.disk_with_null in
  snd r = Sample.disk_with_null /\
  ((exists e, fst r = Raise e /\ is_lookup_error e = true)
     <-> key_missing Sample.null_doc 4) /\
  (fst r = Raise TypeError <-> not_a_mapping Sample.null_doc) /\
  ((exists m a, fst r = Ok (m, a)) <-> factors_present Sample.null_doc 4) /\
  (factors_present Sample.null_doc 4 \/ key_missing Sample.null_doc 4
   \/ not_a_mapping Sample.null_doc).
Proof.
  apply (load_scale_factors_failure_modes
           Sample.decoder "meta.json" 4 Sample.disk_with_null
           Sample.null_text Sample.null_doc).
  - reflexivity.
  - reflexivity.
Defined.

(** C4, as stated, fails: the document [{"L1_METADATA_FILE": null}] holds no
    rescaling structure for band 4, yet the loader does not raise a lookup
    error on it; it raises [TypeError]. *)
Lemma load_scale_factors_null_structure_counterexample :
  ~ (~ factors_present Sample.null_doc 4 ->
     exists e,
       fst (load_scale_factors Sample.decoder "meta.json" 4 Sample.disk_with_null)
         = Raise e /\
       is_lookup_error e = true).
Proof.
  intros H.
  destruct H as (e & He & Hl).
  - intros (m & a & o & Hr & _).
    apply reaches_rescaling in Hr as (o1 & o2 & [= <-] & H1 & _).
    vm_compute in H1. discriminate.
  - vm_compute in He. injection He as <-. discriminate.
Qed.

(** ** Elementwise arithmetic *)

Lemma linear_rescale_floats {E} `{Numeric E} (m a : float) (ds : DataArray E) :
  linear_rescale (JFloat m) (JFloat a) ds = Ok (add_scalar (scalar_mul m ds) a).
Proof. reflexivity. Qed.

Lemma linear_rescale_ok_inv {E} `{Numeric E} (M_p A_p : json) (ds : DataArray E) toa :
  linear_rescale M_p A_p ds = Ok toa ->
  exists m a, M_p = JFloat m /\ A_p = JFloat a /\ toa = add_scalar (scalar_mul m ds) a.
Proof.
  unfold linear_rescale, as_scalar, mbind, result_bind.
  destruct M_p; try discriminate. destruct A_p; try discriminate.
  intros [= <-]. eauto.
Qed.

Lemma rescaled_lookup {E} `{Numeric E} (m a : float) (ds : DataArray E) (i : nat) :
  values (add_scalar (scalar_mul m ds) a) !! i
  = (fun x => (m * as_float64 x + a)%float) <$> values ds !! i.
Proof.
  cbn. rewrite !list_lookup_fmap. destruct (values ds !! i); reflexivity.
Qed.

Lemma rescaled_length {E} `{Numeric E} (m a : float) (ds : DataArray E) :
  length (values (add_scalar (scalar_mul m ds) a)) = length (values ds).
Proof. cbn. by rewrite !length_map. Qed.

Lemma rescaled_same_grid {E} `{Numeric E} (m a : float) (ds : DataArray E) :
  same_grid (add_scalar (scalar_mul m ds) a) ds.
Proof. repeat split. Qed.

Lemma rescaled_well_formed {E} `{Numeric E} (m a : float) (ds : DataArray E) :
  well_formed ds -> well_formed (add_scalar (scalar_mul m ds) a).
Proof.
  intros [Hd Hv]. split; [exact Hd|].
  rewrite rescaled_length. exact Hv.
Qed.

Lemma calculate_reflectance_loaded
    (json_load : bytes -> option json) {E} `{Numeric E}
    (ds : DataArray E) band metafile w w' (m a : float) :
  load_scale_factors json_load metafile band w = (Ok (JFloat m, JFloat a), w') ->
  calculate_reflectance json_load ds band metafile w
  = (Ok (add_scalar (scalar_mul m ds) a), w').
Proof.
  intros Hl. unfold calculate_reflectance.
  rewrite io_bind_unfold, Hl. reflexivity.
Qed.

Lemma calculate_reflectance_ok_inv
    (json_load : bytes -> option json) {E} `{Numeric E}
    (ds : DataArray E) band metafile w w' toa :
  calculate_reflectance json_load ds band metafile w = (Ok toa, w') ->
  exists m a, toa = add_scalar (scalar_mul m ds) a.
Proof.
  unfold calculate_reflectance. rewrite io_bind_unfold.
  destruct (load_scale_factors json_load metafile band w) as [[[M_p A_p]|e] w1];
    [|discriminate].
  rewrite io_bind_unfold. unfold lift.
  destruct (linear_rescale M_p A_p ds) as [t|e] eqn:Hr; [|discriminate].
  intros [= <- <-].
  apply linear_rescale_ok_inv in Hr as (m & a & _ & _ & ->). eauto.
Qed.

Lemma zip_with_quotient (l k : list float) :
  zip_with PrimFloat.div (zip_with PrimFloat.sub l k) (zip_with PrimFloat.add l k)
  = zip_with (fun a b => ((a - b) / (a + b))%float) l k.
Proof.
  revert k. induction l as [|x l IH]; intros [|y k]; cbn; try reflexivity.
  by rewrite IH.
Qed.

Lemma ndvi_same_grid (A B : DataArray float) :
  same_grid A B ->
  ndvi A B = Ok (mkDataArray (dims A) (coords A) (shape A)
                   (zip_with (fun a b => ((a - b) / (a + b))%float)
                             (values A) (values B))).
Proof.
  intros HAB. unfold ndvi, binary_op, mbind, result_bind.
  rewrite !decide_True by exact HAB.
  rewrite decide_True by (repeat split).
  cbn. by rewrite zip_with_quotient.
Qed.

Lemma well_formed_same_length {E F} (A : DataArray E) (B : DataArray F) :
  well_formed A -> well_formed B -> same_grid A B ->
  length (values A) = length (values B).
Proof.
  intros [_ HA] [_ HB] (_ & Hs & _). rewrite HA, HB, Hs. reflexivity.
Qed.

(** C1.  With coefficients [m] and [a] in the metadata, [calculate_reflectance]
    returns an array with one element per input element, the element at each
    position being [m * x + a] for the input element [x] there.  In
    particular, with multiplier 2.0 and offset -62.0 for band 4, the pixel
    value 218 becomes 374.0. *)
Theorem calculate_reflectance_linear (json_load : bytes -> option json) :
  (forall (E : Type) (num : Numeric E) (ds : DataArray E)
          (band_number : Z) (metafile : string) (w : world)
          (data : bytes) (doc : json) (m a : float),
      files w !! metafile = Some data ->
      json_load data = Some doc ->
      contains_factors doc band_number (JFloat m) (JFloat a) ->
      exists toa,
        calculate_reflectance json_load ds band_number metafile w = (Ok toa, w) /\
        length (values toa) = length (values ds) /\
        forall i x, values ds !! i = Some x ->
                    values toa !! i = Some (m * as_float64 x + a)%float) /\
  (forall (w : world) (data : bytes) (H218 : bool_decide (0 <= 218 < 65536)),
      files w !! "meta.json" = Some data ->
      json_load data = Some Sample.meta_doc ->
      calculate_reflectance json_load (Sample.pixel 218 H218) 4 "meta.json" w
      = (Ok (Sample.cell 374%float), w)).
Proof.
  split.
  - intros E num ds band metafile w data doc m a Hf Hj Hc.
    exists (add_scalar (scalar_mul m ds) a). split; [|split].
    + apply calculate_reflectance_loaded.
      rewrite (load_scale_factors_decoded json_load _ _ _ _ _ Hf Hj).
      by rewrite (scale_factors_found _ _ _ _ Hc).
    + apply rescaled_length.
    + intros i x Hx. rewrite rescaled_lookup, Hx. reflexivity.
  - intros w data H218 Hf Hj.
    erewrite calculate_reflectance_loaded.
    2:{ rewrite (load_scale_factors_decoded json_load _ _ _ _ _ Hf Hj).
        reflexivity. }
    reflexivity.
Qed.

Lemma calculate_reflectance_linear_witness :
  (exists toa,
      calculate_reflectance Sample.decoder (Sample.pixel 218 I) 4 "meta.json"
                            Sample.disk_with_meta
      = (Ok toa, Sample.disk_with_meta) /\
      length (values toa) = length (values (Sample.pixel 218 I)) /\
      forall i x, values (Sample.pixel 218 I) !! i = Some x ->
                  values toa !! i = Some (2 * as_float64 x + (-62))%float) /\
  calculate_reflectance Sample.decoder (Sample.pixel 218 I) 4 "meta.json"
                        Sample.disk_with_meta
  = (Ok (Sample.cell 374%float), Sample.disk_with_meta).
Proof.
  split.
  - apply (proj1 (calculate_reflectance_linear Sample.decoder)
                 uint16 _ (Sample.pixel 218 I) 4 "meta.json"
                 Sample.disk_with_meta Sample.meta_text Sample.meta_doc
                 2%float (-62)%float).
    + reflexivity.
    + reflexivity.
    + exists Sample.rescaling. split; [|split; reflexivity].
      eapply reaches_step; [reflexivity|].
      eapply reaches_step; [reflexivity|]. constructor.
  - apply (proj2 (calculate_reflectance_linear Sample.decoder)
                 Sample.disk_with_meta Sample.meta_text I).
    + reflexivity.
    + reflexivity.
Defined.

(** C7.  Whatever [calculate_reflectance] returns has the dimension names,
    the shape and the coordinate labels of its input, and as many elements;
    a well-formed input gives a well-formed result.  It does return whenever
    the metadata holds the band's two coefficients. *)
Theorem calculate_reflectance_keeps_grid
    (json_load : bytes -> option json) (E : Type) (num : Numeric E)
    (ds : DataArray E) (band_number : Z) (metafile : string) (w : world) :
  (forall toa w',
      calculate_reflectance json_load ds band_number metafile w = (Ok toa, w') ->
      dims toa = dims ds /\ shape toa = shape ds /\ coords toa = coords ds /\
      length (values toa) = length (values ds) /\
      (well_formed ds -> well_formed toa)) /\
  (forall data doc (m a : float),
      files w !! metafile = Some data ->
      json_load data = Some doc ->
      contains_factors doc band_number (JFloat m) (JFloat a) ->
      exists toa,
        calculate_reflectance json_load ds band_number metafile w = (Ok toa, w)).
Proof.
  split.
  - intros toa w' Hc.
    apply calculate_reflectance_ok_inv in Hc as (m & a & ->).
    destruct (rescaled_same_grid m a ds) as (Hd & Hs & Hc).
    repeat split; try assumption.
    + apply rescaled_length.
    + apply rescaled_well_formed; assumption.
    + apply rescaled_well_formed; assumption.
  - intros data doc m a Hf Hj Hc. eexists.
    apply calculate_reflectance_loaded.
    rewrite (load_scale_factors_decoded json_load _ _ _ _ _ Hf Hj).
    by rewrite (scale_factors_found _ _ _ _ Hc).
Qed.

Lemma calculate_reflectance_keeps_grid_witness :
  exists toa,
    calculate_reflectance Sample.decoder (Sample.pixel 218 I) 4 "meta.json"
                          Sample.disk_with_meta
    = (Ok toa, Sample.disk_with_meta) /\
    dims toa = dims (Sample.pixel 218 I) /\
    shape toa = shape (Sample.pixel 218 I) /\
    coords toa = coords (Sample.pixel 218 I).
Proof.
  destruct (calculate_reflectance_keeps_grid
              Sample.decoder uint16 _ (Sample.pixel 218 I) 4 "meta.json"
              Sample.disk_with_meta) as [Hkeep Hret].
  assert (Hdoc : contains_factors Sample.meta_doc 4
                                  (JFloat 2%float) (JFloat (-62)%float)).
  { exists Sample.rescaling. split; [|split; reflexivity].
    eapply reaches_step; [reflexivity|].
    eapply reaches_step; [reflexivity|]. constructor. }
  destruct (Hret Sample.meta_text Sample.meta_doc 2%float (-62)%float
                 eq_refl eq_refl Hdoc) as [toa Htoa].
  exists toa. split; [exact Htoa|].
  destruct (Hkeep toa _ Htoa) as (Hd & Hs & Hc & _).
  auto.
Defined.

(** ** Zeros of binary64 *)

Lemma SFeqb_zero_inv (x : spec_float) :
  SFeqb x (S754_zero false) = true -> exists s, x = S754_zero s.
Proof.
  destruct x as [s|[|]| |[|] m e]; cbn; try discriminate. eauto.
Qed.

Lemma float_eqb_zero_inv (x : float) :
  (x =? 0)%float = true -> x = 0%float \/ x = (-0)%float.
Proof.
  intros H. rewrite FloatAxioms.eqb_spec in H. change (Prim2SF 0) with (S754_zero false) in H.
  apply SFeqb_zero_inv in H as [s Hs].
  rewrite <- (SF2Prim_Prim2SF x), Hs. destruct s; cbn; auto.
Qed.

(** C2, as the code has it.  For two well-formed arrays on one grid without
    a position where [a + b] equals zero, the index is computed, lies on the
    same grid, and holds [(a - b) / (a + b)] at every position. *)
Theorem ndvi_normalized_difference (A B : DataArray float) :
  well_formed A -> well_formed B -> same_grid A B ->
  (forall i a b, values A !! i = Some a -> values B !! i = Some b ->
                 (a + b =? 0)%float = false) ->
  exists R,
    ndvi A B = Ok R /\
    same_grid R A /\
    length (values R) = length (values A) /\
    forall i a b, values A !! i = Some a -> values B !! i = Some b ->
                  values R !! i = Some ((a - b) / (a + b))%float.
Proof.
  intros HA HB HAB _. eexists. split; [exact (ndvi_same_grid A B HAB)|].
  split; [repeat split|]. cbn. split.
  - rewrite length_zip_with, (well_formed_same_length A B HA HB HAB). lia.
  - intros i a b Ha Hb. rewrite lookup_zip_with, Ha, Hb. reflexivity.
Qed.

Lemma ndvi_normalized_difference_witness :
  exists R,
    ndvi (Sample.cell 3%float) (Sample.cell 1%float) = Ok R /\
    same_grid R (Sample.cell 3%float) /\
    length (values R) = length (values (Sample.cell 3%float)) /\
    forall i a b,
      values (Sample.cell 3%float) !! i = Some a ->
      values (Sample.cell 1%float) !! i = Some b ->
      values R !! i = Some ((a - b) / (a + b))%float.
Proof.
  apply (ndvi_normalized_difference (Sample.cell 3%float) (Sample.cell 1%float)).
  - split; reflexivity.
  - split; reflexivity.
  - repeat split.
  - intros [|i] a b; cbn; [|discriminate].
    intros [= <-] [= <-]. reflexivity.
Defined.

Lemma Ok_inj {A} (a b : A) : Ok a = Ok b -> a = b.
Proof.
  intros H.
  exact (f_equal (fun r => match r with Ok x => x | Raise _ => a end) H).
Qed.

Lemma nan_is_not (q : float) : is_nan q = false -> Some nan <> Some q.
Proof.
  intros Hq H.
  apply (f_equal (fun o => match o with Some x => is_nan x | None => false end)) in H.
  cbn in H. rewrite Hq in H. discriminate H.
Qed.

(** ** Alignment

    Aligning two arrays the library can hold never leaves them: every
    position of the result has an element in both operands. *)

Section Alignment.

Local Open Scope nat_scope.

Lemma mapM_result_Ok {A B} (f : A -> result B) (l : list A) (k : list B) :
  mapM f l = Ok k -> Forall2 (fun x y => f x = Ok y) l k.
Proof.
  revert k. induction l as [|x l IH]; intros k; cbn.
  - intros [= <-]. constructor.
  - unfold mbind, result_bind, mret, result_ret.
    destruct (f x) as [y|e] eqn:Hx; [|discriminate].
    destruct (mapM f l) as [k'|e]; [|discriminate].
    intros H. apply Ok_inj in H. subst k. constructor; auto.
Qed.

Lemma mapM_result_Raise {A B} (f : A -> result B) (l : list A) (e : exn) :
  mapM f l = Raise e -> exists x, x ∈ l /\ f x = Raise e.
Proof.
  induction l as [|x l IH]; cbn; [discriminate|].
  unfold mbind, result_bind, mret, result_ret.
  destruct (f x) as [y|e'] eqn:Hx.
  - destruct (mapM f l) as [k'|e'']; [discriminate|].
    intros H. destruct IH as (x' & Hin & Hx'); [congruence|].
    exists x'. split; [by right|exact Hx'].
  - intros H. exists x. split; [by left|congruence].
Qed.

Lemma size_of_dim {E} (a : DataArray E) (d : string) :
  length (dims a) = length (shape a) -> d ∈ dims a -> is_Some (size_of a d).
Proof.
  intros Hl Hd. unfold size_of.
  destruct (list_find (fun x => x = d) (dims a)) as [[i x]|] eqn:Hf.
  - cbn. apply list_find_Some in Hf as (Hi & _ & _).
    apply lookup_lt_is_Some. rewrite <- Hl. by eapply lookup_lt_Some.
  - apply list_find_None in Hf. rewrite Forall_forall in Hf.
    by specialize (Hf d Hd).
Qed.

Lemma size_of_not_dim {E} (a : DataArray E) (d : string) :
  d ∉ dims a -> size_of a d = None.
Proof.
  intros Hd. unfold size_of.
  destruct (list_find (fun x => x = d) (dims a)) as [[i x]|] eqn:Hf; [|reflexivity].
  apply list_find_Some in Hf as (Hi & -> & _).
  exfalso. apply Hd. by eapply list_elem_of_lookup_2.
Qed.

Lemma size_of_lookup {E} (a : DataArray E) (i : nat) (d : string) :
  NoDup (dims a) -> dims a !! i = Some d -> size_of a d = shape a !! i.
Proof.
  intros Hnd Hi. unfold size_of.
  destruct (list_find (fun x => x = d) (dims a)) as [[i' x]|] eqn:Hf.
  - cbn. apply list_find_Some in Hf as (Hi' & -> & _).
    by rewrite (NoDup_lookup _ _ _ _ Hnd Hi Hi').
  - apply list_find_None in Hf. rewrite Forall_forall in Hf.
    exfalso. apply (Hf d); [by eapply list_elem_of_lookup_2|reflexivity].
Qed.

Lemma find_label_lt (x : float) (l : list float) (j : nat) :
  find_label x l = Some j -> (j < length l)%nat.
Proof.
  revert j. induction l as [|y l IH]; intros j; cbn; [discriminate|].
  destruct (label_eqb x y).
  - intros [= <-]. lia.
  - destruct (find_label x l) as [j'|]; cbn; [|discriminate].
    intros [= <-]. specialize (IH j' eq_refl). lia.
Qed.

Lemma labels_equal_length (l k : list float) :
  labels_equal l k = true -> length l = length k.
Proof.
  revert k. induction l as [|x l IH]; intros [|y k]; cbn; try discriminate; auto.
  intros H. apply andb_true_iff in H as [_ H]. by rewrite (IH k H).
Qed.

Lemma join_labels_spec (la lb : list float) (i j : nat) (x : float) :
  (i, j, x) ∈ join_labels la lb -> (i < length la)%nat /\ (j < length lb)%nat.
Proof.
  unfold join_labels. intros H.
  apply list_elem_of_omap in H as ([i' x'] & Hin & Hf).
  apply elem_of_lookup_imap in Hin as (i'' & y & [= -> ->] & Hl).
  destruct (find_label y lb) as [j'|] eqn:Hj; cbn in Hf; [|discriminate].
  injection Hf as <- <- _. split.
  - by eapply lookup_lt_Some.
  - by eapply find_label_lt.
Qed.

Lemma seq_below (n : nat) : Forall (fun p => (p < n)%nat) (seq 0%nat n).
Proof. apply Forall_forall. intros p Hp. apply elem_of_seq in Hp. lia. Qed.

Lemma holdable_labels {E} (a : DataArray E) (d : string) (l : list float) :
  holdable a -> coords a !! d = Some l -> size_of a d = Some (length l).
Proof. intros (_ & _ & Hc) Hl. exact (map_Forall_lookup_1 _ _ _ _ Hc Hl). Qed.

Lemma align_axis_ok (a b : DataArray float) (d : string) (ax : axis) :
  holdable a -> holdable b -> align_axis a b d = Ok ax ->
  side_ok (size_of a d) (axis_left ax) (axis_size ax) /\
  side_ok (size_of b d) (axis_right ax) (axis_size ax).
Proof.
  intros Ha Hb. unfold align_axis.
  destruct (size_of a d) as [n|] eqn:Hn, (size_of b d) as [m|] eqn:Hm;
    [| | |discriminate].
  - destruct (coords a !! d) as [la|] eqn:Hla, (coords b !! d) as [lb|] eqn:Hlb.
    + apply (holdable_labels a) in Hla; [|exact Ha].
      apply (holdable_labels b) in Hlb; [|exact Hb].
      assert (n = length la) as -> by congruence.
      assert (m = length lb) as -> by congruence.
      destruct (labels_equal la lb) eqn:Heq.
      * intros H. apply Ok_inj in H. subst ax. unfold axis_size. cbn.
        apply labels_equal_length in Heq. rewrite !length_seq.
        split; eexists; (split; [reflexivity|]); rewrite length_seq;
          (split; [congruence|apply seq_below]).
      * destruct (has_duplicates la || has_duplicates lb); [discriminate|].
        intros H. apply Ok_inj in H. subst ax. unfold axis_size. cbn.
        rewrite !length_fmap.
        split; eexists; (split; [reflexivity|]); rewrite length_fmap;
          (split; [reflexivity|]); apply Forall_fmap, Forall_forall;
          intros [[i j] x] Hin; apply join_labels_spec in Hin; cbn; lia.
    + destruct (decide (n = m)) as [->|]; [|discriminate].
      intros H. apply Ok_inj in H. subst ax. unfold axis_size. cbn.
      split; eexists; (split; [reflexivity|]); (split; [reflexivity|apply seq_below]).
    + destruct (decide (n = m)) as [->|]; [|discriminate].
      intros H. apply Ok_inj in H. subst ax. unfold axis_size. cbn.
      split; eexists; (split; [reflexivity|]); (split; [reflexivity|apply seq_below]).
    + destruct (decide (n = m)) as [->|]; [|discriminate].
      intros H. apply Ok_inj in H. subst ax. unfold axis_size. cbn.
      split; eexists; (split; [reflexivity|]); (split; [reflexivity|apply seq_below]).
  - intros H. apply Ok_inj in H. subst ax. unfold axis_size. cbn.
    split; [|exact I]. eexists. split; [reflexivity|]. split; [reflexivity|apply seq_below].
  - intros H. apply Ok_inj in H. subst ax. unfold axis_size. cbn.
    split; [exact I|]. eexists. split; [reflexivity|]. split; [reflexivity|apply seq_below].
Qed.

Lemma align_axis_raises (a b : DataArray float) (d : string) (e : exn) :
  align_axis a b d = Raise e ->
  e = ValueError \/ (size_of a d = None /\ size_of b d = None).
Proof.
  unfold align_axis.
  destruct (size_of a d) as [n|], (size_of b d) as [m|]; try discriminate; [|auto].
  destruct (coords a !! d) as [la|], (coords b !! d) as [lb|];
    repeat case_match; try discriminate; intros [= <-]; auto.
Qed.

Lemma indices_spec (shape : list nat) (pos : list nat) :
  pos ∈ indices shape -> Forall2 (fun j n => (j < n)%nat) pos shape.
Proof.
  revert pos. induction shape as [|n rest IH]; intros pos; cbn.
  - intros H. apply list_elem_of_singleton in H as ->. constructor.
  - intros H. apply list_elem_of_bind in H as (i & Hin & Hi).
    apply list_elem_of_fmap in Hin as (pos' & -> & Hpos').
    apply elem_of_seq in Hi. constructor; [lia|]. by apply IH.
Qed.

Lemma flat_index_lt (shape idx : list nat) :
  Forall2 (fun j n => (j < n)%nat) idx shape ->
  (flat_index shape idx < foldr Nat.mul 1%nat shape)%nat.
Proof.
  intros H. induction H as [|j n idx shape Hj H IH]; cbn; [lia|].
  nia.
Qed.

Lemma mapM_option_Forall2 {A B} (g : A -> option B) (P : A -> B -> Prop) (l : list A) :
  (forall x, x ∈ l -> exists y, g x = Some y /\ P x y) ->
  exists k, mapM g l = Some k /\ Forall2 P l k.
Proof.
  induction l as [|x l IH]; intros H.
  - exists []. split; [reflexivity|constructor].
  - destruct (H x) as (y & Hy & Py); [by left|].
    destruct IH as (k & Hk & Pk); [intros x' Hx'; apply H; by right|].
    exists (y :: k). split; [|by constructor].
    cbn. rewrite Hy. cbn. rewrite Hk. reflexivity.
Qed.

Lemma operand_element_is_Some (a : DataArray float) (side : axis -> option (list nat))
    (rdims : list string) (axes : list axis) (pos : list nat) :
  holdable a ->
  dims a ⊆ rdims ->
  Forall2 (fun d ax => side_ok (size_of a d) (side ax) (axis_size ax)) rdims axes ->
  Forall2 (fun j ax => (j < axis_size ax)%nat) pos axes ->
  is_Some (operand_element a side rdims axes pos).
Proof.
  intros Ha Hsub Hax Hpos. pose proof Ha as ([Hl Hv] & Hnd & _).
  unfold operand_element.
  edestruct (mapM_option_Forall2
               (fun d => '(k, _) ← list_find (fun x => x = d) rdims;
                         ax ← axes !! k; ps ← side ax; j ← pos !! k; ps !! j)
               (fun d p => exists n, size_of a d = Some n /\ (p < n)%nat)
               (dims a)) as (idx & Hidx & Hin).
  { intros d Hd.
    destruct (size_of_dim a d Hl Hd) as [n Hn].
    destruct (list_find (fun x => x = d) rdims) as [[k x]|] eqn:Hf.
    2:{ apply list_find_None in Hf. rewrite Forall_forall in Hf.
        exfalso. apply (Hf d); [by apply Hsub|reflexivity]. }
    apply list_find_Some in Hf as (Hk & -> & _).
    destruct (Forall2_lookup_l _ _ _ _ _ Hax Hk) as (ax & Hax' & Hok).
    rewrite Hn in Hok. destruct Hok as (ps & Hps & Hlen & Hlt).
    destruct (Forall2_lookup_r _ _ _ _ _ Hpos Hax') as (j & Hj & Hjlt).
    destruct (lookup_lt_is_Some_2 ps j) as [p Hp]; [lia|].
    exists p. cbn. rewrite Hax'. cbn. rewrite Hps. cbn. rewrite Hj. cbn.
    split; [exact Hp|]. exists n. split; [exact Hn|].
    rewrite Forall_forall in Hlt. apply Hlt. by eapply list_elem_of_lookup_2. }
  rewrite Hidx. cbn. apply lookup_lt_is_Some. rewrite Hv.
  apply flat_index_lt. apply Forall2_same_length_lookup_2.
  - apply Forall2_length in Hin. congruence.
  - intros i p n Hp Hn.
    destruct (lookup_lt_is_Some_2 (dims a) i) as [d Hd].
    { rewrite Hl. by eapply lookup_lt_Some. }
    destruct (Forall2_lookup_l _ _ _ _ _ Hin Hd) as (p' & Hp' & n' & Hn' & Hlt).
    rewrite (size_of_lookup a i d Hnd Hd) in Hn'. congruence.
Qed.

(** Aligning two arrays the library can hold gives an array, or fails with
    [ValueError] on an index with duplicates or on lengths that differ. *)
Lemma aligned_op_outcomes (f : float -> float -> float) (a b : DataArray float) :
  holdable a -> holdable b ->
  (exists r, aligned_op f a b = Ok r) \/ aligned_op f a b = Raise ValueError.
Proof.
  intros Ha Hb. unfold aligned_op.
  set (rdims := dims a ++ filter (fun d => d ∉ dims a) (dims b)).
  assert (Hsa : dims a ⊆ rdims) by (intros d Hd; apply elem_of_app; by left).
  assert (Hsb : dims b ⊆ rdims).
  { intros d Hd. apply elem_of_app.
    destruct (decide (d ∈ dims a)); [by left|].
    right. by apply list_elem_of_filter. }
  destruct (mapM (align_axis a b) rdims) as [axes|e] eqn:Hm; cbn.
  2:{ right. apply mapM_result_Raise in Hm as (d & Hd & He).
      apply align_axis_raises in He as [->|[Hna Hnb]]; [reflexivity|].
      exfalso. apply elem_of_app in Hd as [Hd|Hd].
      - destruct (size_of_dim a d (proj1 (proj1 Ha)) Hd) as [n Hn]. congruence.
      - apply list_elem_of_filter in Hd as [_ Hd].
        destruct (size_of_dim b d (proj1 (proj1 Hb)) Hd) as [n Hn]. congruence. }
  apply mapM_result_Ok in Hm.
  assert (Hboth : Forall2 (fun d ax =>
            side_ok (size_of a d) (axis_left ax) (axis_size ax) /\
            side_ok (size_of b d) (axis_right ax) (axis_size ax)) rdims axes).
  { eapply Forall2_impl; [exact Hm|]. intros d ax. by apply align_axis_ok. }
  left.
  match goal with
  | |- context [mapM ?g (indices ?s)] =>
      destruct (mapM_is_Some_2 g (indices s)) as [vs ->]; [|eauto]
  end.
  apply Forall_forall. intros pos Hpos. apply indices_spec in Hpos.
  rewrite Forall2_fmap_r in Hpos. cbn.
  destruct (operand_element_is_Some a axis_left rdims axes pos Ha Hsa) as [x ->];
    [eapply Forall2_impl; [exact Hboth|]; by intros ? ? [? ?]|exact Hpos|].
  destruct (operand_element_is_Some b axis_right rdims axes pos Hb Hsb) as [y ->];
    [eapply Forall2_impl; [exact Hboth|]; by intros ? ? [? ?]|exact Hpos|].
  cbn. eauto.
Qed.

Lemma aligned_op_grid (f g : float -> float -> float) (a b r r' : DataArray float) :
  aligned_op f a b = Ok r -> aligned_op g a b = Ok r' -> same_grid r r'.
Proof.
  unfold aligned_op.
  destruct (mapM (align_axis a b) _) as [axes|]; cbn; [|discriminate].
  repeat case_match; try discriminate.
  intros Hr Hr'. apply Ok_inj in Hr, Hr'. subst. repeat split.
Qed.

Lemma binary_op_grid (f g : float -> float -> float) (a b r r' : DataArray float) :
  binary_op f a b = Ok r -> binary_op g a b = Ok r' -> same_grid r r'.
Proof.
  unfold binary_op. destruct (decide (same_grid a b)).
  - intros H H'. apply Ok_inj in H, H'. subst. repeat split.
  - destruct (decide (holdable a /\ holdable b)); [|discriminate].
    apply aligned_op_grid.
Qed.

Lemma binary_op_outcomes (f : float -> float -> float) (a b : DataArray float) :
  holdable a -> holdable b ->
  (exists r, binary_op f a b = Ok r) \/ binary_op f a b = Raise ValueError.
Proof.
  intros Ha Hb. unfold binary_op. destruct (decide (same_grid a b)); [eauto|].
  rewrite decide_True by done. by apply aligned_op_outcomes.
Qed.

(** For any two arrays the library can hold, the index is computed or the
    alignment fails with [ValueError]; the division never fails. *)
Lemma ndvi_outcomes (A B : DataArray float) :
  holdable A -> holdable B ->
  (exists R, ndvi A B = Ok R) \/ ndvi A B = Raise ValueError.
Proof.
  intros HA HB. unfold ndvi, mbind, result_bind.
  destruct (binary_op_outcomes PrimFloat.sub A B HA HB) as [[num Hnum]|Hnum];
    rewrite Hnum; [|by right].
  destruct (binary_op_outcomes PrimFloat.add A B HA HB) as [[den Hden]|Hden];
    rewrite Hden; [|by right].
  left. unfold binary_op.
  rewrite decide_True by (eapply binary_op_grid; eassumption). eauto.
Qed.

End Alignment.

(** Off one grid the operands are paired by label.  The two rows hold the
    same two columns in opposite order: the sums by position are 1 and 1, but
    column 0 meets column 0 and column 1 meets column 1, so the index is
    [0 / 0] and [0 / 2]. *)
Lemma ndvi_pairs_by_label :
  exists R,
    ndvi Scene.west_east Scene.east_west = Ok R /\
    dims R = ["band"; "y"; "x"] /\
    coords R !! "x" = Some [0; 1]%float /\
    shape R = [1; 1; 2]%nat /\
    values R = [nan; 0%float].
Proof. eexists. split; [vm_compute; reflexivity|]. repeat split. Qed.

(** Rows without a common label give an index without elements. *)
Lemma ndvi_disjoint_labels_is_empty :
  exists R,
    ndvi (Scene.row [0%float] [3%float]) (Scene.row [1%float] [1%float]) = Ok R /\
    shape R = [1; 1; 0]%nat /\
    values R = [].
Proof. eexists. split; [vm_compute; reflexivity|]. repeat split. Qed.

(** Arrays of equal shape along dimensions of different names are not
    paired at all: each element of one meets each element of the other. *)
Lemma ndvi_broadcasts_over_other_dimensions :
  exists R,
    ndvi (mkDataArray ["x"] {[ "x" := [0; 1]%float ]} [2%nat] [1; 2]%float)
         (mkDataArray ["y"] {[ "y" := [0; 1]%float ]} [2%nat] [1; 2]%float) = Ok R /\
    dims R = ["x"; "y"] /\
    shape R = [2; 2]%nat /\
    length (values R) = 4%nat.
Proof. eexists. split; [vm_compute; reflexivity|]. repeat split. Qed.

(** C2, as stated, fails: equal shapes are not enough.  The two rows have
    the same dimensions and the same shape and no position where the sum is
    zero, but their columns are labelled in opposite order; the first
    element of the index is [0 / 0], not [(0 - 1) / (0 + 1)]. *)
Lemma ndvi_permuted_labels_counterexample :
  ~ (forall A B : DataArray float,
       well_formed A -> well_formed B ->
       dims A = dims B -> shape A = shape B ->
       (forall i a b, values A !! i = Some a -> values B !! i = Some b ->
                      (a + b =? 0)%float = false) ->
       exists R,
         ndvi A B = Ok R /\
         forall i a b, values A !! i = Some a -> values B !! i = Some b ->
                       values R !! i = Some ((a - b) / (a + b))%float).
Proof.
  intros H.
  destruct (H Scene.west_east Scene.east_west) as (R & HR & Hat).
  - split; reflexivity.
  - split; reflexivity.
  - reflexivity.
  - reflexivity.
  - intros [|[|i]] a b; cbn; try discriminate; intros [= <-] [= <-]; reflexivity.
  - specialize (Hat 0%nat 0%float 1%float eq_refl eq_refl).
    destruct ndvi_pairs_by_label as (R' & HR' & _ & _ & _ & Hv).
    rewrite HR' in HR. apply Ok_inj in HR. subst R'.
    rewrite Hv in Hat. apply nan_is_not in Hat; [exact Hat|]. reflexivity.
Qed.

(** C8.  On one grid the index is always computed, whatever the elements
    are: nothing guards the division.  Where both inputs are zero (of either
    sign) the element of the result is a NaN. *)
Theorem ndvi_zero_over_zero_is_nan (A B : DataArray float) :
  well_formed A -> well_formed B -> same_grid A B ->
  exists R,
    ndvi A B = Ok R /\
    length (values R) = length (values A) /\
    forall i a b, values A !! i = Some a -> values B !! i = Some b ->
                  (a =? 0)%float = true -> (b =? 0)%float = true ->
                  exists q, values R !! i = Some q /\ is_nan q = true.
Proof.
  intros HA HB HAB. eexists. split; [exact (ndvi_same_grid A B HAB)|].
  cbn. split.
  - rewrite length_zip_with, (well_formed_same_length A B HA HB HAB). lia.
  - intros i a b Ha Hb Za Zb. eexists.
    split; [rewrite lookup_zip_with, Ha, Hb; reflexivity|].
    apply float_eqb_zero_inv in Za as [-> | ->];
      apply float_eqb_zero_inv in Zb as [-> | ->]; reflexivity.
Qed.

Lemma ndvi_zero_over_zero_is_nan_witness :
  exists R,
    ndvi (Sample.cell 0%float) (Sample.cell (-0)%float) = Ok R /\
    length (values R) = length (values (Sample.cell 0%float)) /\
    forall i a b,
      values (Sample.cell 0%float) !! i = Some a ->
      values (Sample.cell (-0)%float) !! i = Some b ->
      (a =? 0)%float = true -> (b =? 0)%float = true ->
      exists q, values R !! i = Some q /\ is_nan q = true.
Proof.
  apply (ndvi_zero_over_zero_is_nan (Sample.cell 0%float) (Sample.cell (-0)%float)).
  - split; reflexivity.
  - split; reflexivity.
  - repeat split.
Defined.

(** ** Rounding in a binary format

    The operations of [SpecFloat], to which the axioms of the primitive
    binary64 numbers refer, for any precision and exponent range. *)

Section Binary.

Variables prec emax : Z.
Hypothesis Hprec : 0 < prec.
Hypothesis Hemax : 1 < emax.

#[local] Unset Default Proof Using.

Abbreviation emin := (SpecFloat.emin prec emax).
Abbreviation fexp := (SpecFloat.fexp prec emax).
Abbreviation SF_nonneg_finite := (SF_nonneg_finite prec emax).
Abbreviation SF_in_unit := (SF_in_unit prec).

Lemma bpow_pos e : (0 < bpow e)%R.
Proof. apply powerRZ_lt. lra. Qed.

Lemma bpow_add a b : bpow (a + b) = (bpow a * bpow b)%R.
Proof. apply powerRZ_add. lra. Qed.

Lemma bpow_IZR n : 0 <= n -> bpow n = IZR (2 ^ n).
Proof.
  intros Hn. unfold bpow. destruct n as [|p|p]; [reflexivity| |lia].
  symmetry. apply (Zpower_pos_powerRZ 2 p).
Qed.

Lemma bpow_ge_1 n : 0 <= n -> (1 <= bpow n)%R.
Proof.
  intros Hn. rewrite bpow_IZR by exact Hn. apply IZR_le.
  assert (0 < 2 ^ n) by (apply Z.pow_pos_nonneg; lia). lia.
Qed.

Lemma bpow_le a b : a <= b -> (bpow a <= bpow b)%R.
Proof.
  intros H. replace b with (a + (b - a)) by lia. rewrite bpow_add.
  pose proof (bpow_pos a). pose proof (bpow_ge_1 (b - a) ltac:(lia)). nra.
Qed.

Lemma bpow_lt a b : a < b -> (bpow a < bpow b)%R.
Proof.
  intros H. replace b with (a + (1 + (b - a - 1))) by lia.
  rewrite (bpow_add a), (bpow_add 1).
  pose proof (bpow_pos a). pose proof (bpow_ge_1 (b - a - 1) ltac:(lia)).
  assert (E : bpow 1 = 2%R) by exact (powerRZ_1 2). rewrite E.
  assert (1 < 2 * bpow (b - a - 1))%R by lra. nra.
Qed.

Lemma bpow_lt_inv a b : (bpow a < bpow b)%R -> a < b.
Proof.
  intros H. destruct (Z_lt_le_dec a b) as [|Hle]; [assumption|].
  apply bpow_le in Hle. lra.
Qed.

Lemma F2R_shift m e n : 0 <= n -> F2R (m * 2 ^ n) e = F2R m (e + n).
Proof.
  intros Hn. unfold F2R. rewrite mult_IZR, (Z.add_comm e n), bpow_add.
  rewrite <- bpow_IZR by exact Hn. ring.
Qed.

Lemma F2R_le m1 m2 e : m1 <= m2 -> (F2R m1 e <= F2R m2 e)%R.
Proof.
  intros H. unfold F2R. apply IZR_le in H. pose proof (bpow_pos e). nra.
Qed.

Lemma F2R_le_inv m1 m2 e : (F2R m1 e <= F2R m2 e)%R -> m1 <= m2.
Proof.
  unfold F2R. intros H. apply le_IZR. pose proof (bpow_pos e). nra.
Qed.

Lemma F2R_lt_inv m1 m2 e : (F2R m1 e < F2R m2 e)%R -> m1 < m2.
Proof.
  unfold F2R. intros H. apply lt_IZR. pose proof (bpow_pos e). nra.
Qed.

(** *** Number of binary digits *)

Lemma digits2_pos_size p : digits2_pos p = Pos.size p.
Proof. induction p; cbn; congruence. Qed.

Lemma Zdigits2_bounds m :
  0 < m -> 2 ^ (Zdigits2 m - 1) <= m < 2 ^ Zdigits2 m.
Proof.
  destruct m as [|p|p]; try lia. intros _. cbn [Zdigits2].
  rewrite digits2_pos_size.
  pose proof (Pos.size_gt p) as Hgt. pose proof (Pos.size_le p) as Hle.
  split.
  - assert (H2 : 2 ^ Z.pos (Pos.size p) = 2 * 2 ^ (Z.pos (Pos.size p) - 1)).
    { rewrite <- Z.pow_succ_r by lia. f_equal. lia. }
    assert (H3 : 2 ^ Z.pos (Pos.size p) <= 2 * Z.pos p).
    { change (2 * Z.pos p) with (Z.pos p~0). rewrite <- Pos2Z.inj_pow. lia. }
    lia.
  - change 2 with (Z.pos 2). rewrite <- Pos2Z.inj_pow. lia.
Qed.

Lemma Zdigits2_nonneg m : 0 <= Zdigits2 m.
Proof. destruct m; cbn; lia. Qed.

Lemma Zdigits2_pos m : 0 < m -> 0 < Zdigits2 m.
Proof. destruct m; cbn; lia. Qed.

(** [2^k <= m] puts more than [k] digits into [m]. *)
Lemma Zdigits2_gt k m : 0 <= k -> 2 ^ k <= m -> k < Zdigits2 m.
Proof.
  intros Hk Hm.
  assert (0 < 2 ^ k) by (apply Z.pow_pos_nonneg; lia).
  destruct (Zdigits2_bounds m ltac:(lia)) as [_ Hu].
  destruct (Z_lt_le_dec k (Zdigits2 m)) as [|Hle]; [assumption|].
  pose proof (Z.pow_le_mono_r 2 _ _ ltac:(lia) Hle). lia.
Qed.

Lemma Zdigits2_le k m : 0 <= k -> 0 <= m < 2 ^ k -> Zdigits2 m <= k.
Proof.
  intros Hk [H0 Hm].
  destruct (Z.eq_dec m 0) as [->|Hne]; [cbn; lia|].
  destruct (Zdigits2_bounds m ltac:(lia)) as [Hl _].
  destruct (Z_le_gt_dec (Zdigits2 m) k) as [|Hgt]; [assumption|].
  pose proof (Z.pow_le_mono_r 2 k (Zdigits2 m - 1) ltac:(lia) ltac:(lia)). lia.
Qed.

Lemma F2R_bounds m e :
  0 < m -> (bpow (Zdigits2 m + e - 1) <= F2R m e < bpow (Zdigits2 m + e))%R.
Proof.
  intros Hm. destruct (Zdigits2_bounds m Hm) as [Hl Hu].
  pose proof (Zdigits2_pos m Hm) as Hd.
  unfold F2R. pose proof (bpow_pos e).
  replace (Zdigits2 m + e - 1) with ((Zdigits2 m - 1) + e) by lia.
  rewrite !bpow_add.
  rewrite (bpow_IZR (Zdigits2 m - 1)), (bpow_IZR (Zdigits2 m)) by lia.
  apply IZR_le in Hl. apply IZR_lt in Hu.
  split; [apply Rmult_le_compat_r|apply Rmult_lt_compat_r]; lra.
Qed.

(** *** The exponent function *)

Lemma fexp_mono a b : a <= b -> fexp a <= fexp b.
Proof. unfold SpecFloat.fexp. lia. Qed.

Lemma fexp_ge_emin a : emin <= fexp a.
Proof. unfold SpecFloat.fexp. lia. Qed.

Lemma fexp_lt_inv a b : fexp a < fexp b -> a < b.
Proof. unfold SpecFloat.fexp. lia. Qed.

Lemma canonical_mantissa_spec m e :
  canonical_mantissa prec emax m e = true <-> fexp (Zdigits2 (Z.pos m) + e) = e.
Proof. unfold canonical_mantissa. cbn [Zdigits2]. apply Z.eqb_eq. Qed.

(** *** Shifting right with round and sticky bits *)

Lemma iter_pos_nat {A} (f : A -> A) (p : positive) (x : A) :
  SpecFloat.iter_pos f p x = Nat.iter (Pos.to_nat p) f x.
Proof.
  revert x. induction p as [p IH|p IH|]; intros x; cbn [SpecFloat.iter_pos].
  - rewrite !IH, Pos2Nat.inj_xI, <- Nat.iter_add, <- Nat.iter_succ_r.
    f_equal. lia.
  - rewrite !IH, Pos2Nat.inj_xO, <- Nat.iter_add. f_equal. lia.
  - reflexivity.
Qed.

Lemma shr_1_m mrs : 0 <= shr_m mrs -> shr_m (shr_1 mrs) = shr_m mrs / 2.
Proof.
  destruct mrs as [m r s]. cbn [shr_m]. intros Hm.
  destruct m as [|[p|p|]|p]; cbn [shr_1 shr_m]; try lia.
  - reflexivity.
  - apply Z.div_unique with (r := 1); lia.
  - apply Z.div_unique with (r := 0); lia.
  - reflexivity.
Qed.

Lemma shr_1_exact mrs :
  0 <= shr_m mrs -> shr_r mrs = false -> shr_s mrs = false ->
  shr_m mrs mod 2 = 0 ->
  shr_r (shr_1 mrs) = false /\ shr_s (shr_1 mrs) = false.
Proof.
  destruct mrs as [m r s]. cbn [shr_m shr_r shr_s]. intros Hm -> -> Hmod.
  destruct m as [|[p|p|]|p]; cbn [shr_1 shr_r shr_s orb]; try lia; auto.
  - exfalso. revert Hmod. rewrite Pos2Z.inj_xI, Z.add_comm, Z.mul_comm, Z.mod_add by lia.
    discriminate.
  - discriminate.
Qed.

Lemma iter_shr_1_m (n : nat) mrs :
  0 <= shr_m mrs ->
  shr_m (Nat.iter n shr_1 mrs) = shr_m mrs / 2 ^ Z.of_nat n.
Proof.
  intros Hm. induction n as [|n IH].
  - cbn. by rewrite Z.div_1_r.
  - rewrite Nat.iter_succ, shr_1_m.
    + rewrite IH, Nat2Z.inj_succ, Z.pow_succ_r by lia.
      rewrite Z.div_div by (try apply Z.pow_pos_nonneg; lia).
      f_equal. lia.
    + rewrite IH. apply Z.div_pos; [lia|]. apply Z.pow_pos_nonneg; lia.
Qed.

Lemma iter_shr_1_exact (n : nat) mrs :
  0 <= shr_m mrs -> shr_r mrs = false -> shr_s mrs = false ->
  shr_m mrs mod 2 ^ Z.of_nat n = 0 ->
  loc_of_shr_record (Nat.iter n shr_1 mrs) = loc_Exact.
Proof.
  revert mrs. induction n as [|n IH]; intros mrs Hm Hr Hs Hmod.
  - cbn. destruct mrs as [m r s]. cbn in Hr, Hs. by subst.
  - rewrite Nat.iter_succ_r.
    rewrite Nat2Z.inj_succ, Z.pow_succ_r in Hmod by lia.
    assert (H2n : 0 < 2 ^ Z.of_nat n) by (apply Z.pow_pos_nonneg; lia).
    apply Z.mod_divide in Hmod as [k Hk]; [|lia].
    assert (Hm2 : shr_m mrs mod 2 = 0).
    { rewrite Hk. replace (k * (2 * 2 ^ Z.of_nat n)) with (k * 2 ^ Z.of_nat n * 2) by ring.
      apply Z.mod_mul. lia. }
    destruct (shr_1_exact mrs Hm Hr Hs Hm2) as [Hr' Hs'].
    assert (Hhalf : shr_m (shr_1 mrs) = k * 2 ^ Z.of_nat n).
    { rewrite shr_1_m, Hk by exact Hm.
      replace (k * (2 * 2 ^ Z.of_nat n)) with (k * 2 ^ Z.of_nat n * 2) by ring.
      apply Z.div_mul. lia. }
    apply IH; try assumption.
    + rewrite shr_1_m by exact Hm. apply Z.div_pos; lia.
    + rewrite Hhalf. apply Z.mod_mul. lia.
Qed.

Lemma shr_record_of_loc_m m l : shr_m (shr_record_of_loc m l) = m.
Proof. destruct l as [|[| |]]; reflexivity. Qed.

Lemma loc_of_shr_record_of_loc m l :
  loc_of_shr_record (shr_record_of_loc m l) = l.
Proof. destruct l as [|[| |]]; reflexivity. Qed.

(** What [shr_fexp] does to a non-negative mantissa: it drops
    [n = fexp (digits m + e) - e] low bits when that is positive, and reports
    an exact position when nothing but zeros was dropped. *)
Lemma shr_fexp_spec m e l :
  0 <= m ->
  let n := Z.max (fexp (Zdigits2 m + e) - e) 0 in
  let r := shr_fexp prec emax m e l in
  snd r = e + n /\
  shr_m (fst r) = m / 2 ^ n /\
  (l = loc_Exact -> m mod 2 ^ n = 0 -> loc_of_shr_record (fst r) = loc_Exact).
Proof.
  intros Hm n r. subst n r. unfold shr_fexp, shr.
  destruct (fexp (Zdigits2 m + e) - e) as [|p|p] eqn:Hn.
  - cbn [fst snd]. rewrite Z.max_id, Z.add_0_r, Z.pow_0_r, Z.div_1_r.
    rewrite shr_record_of_loc_m, loc_of_shr_record_of_loc. auto.
  - cbn [fst snd]. rewrite Z.max_l by lia.
    rewrite iter_pos_nat, <- (positive_nat_Z p).
    split; [reflexivity|]. split.
    + rewrite iter_shr_1_m; rewrite shr_record_of_loc_m; [reflexivity|lia].
    + intros -> Hmod. apply iter_shr_1_exact; cbn; auto.
  - cbn [fst snd]. rewrite Z.max_r by lia. rewrite Z.add_0_r, Z.pow_0_r, Z.div_1_r.
    rewrite shr_record_of_loc_m, loc_of_shr_record_of_loc. auto.
Qed.

Lemma round_nearest_even_bounds m l :
  m <= round_nearest_even m l <= m + 1.
Proof.
  destruct l as [|[| |]]; cbn [round_nearest_even]; try lia.
  destruct (Z.even m); lia.
Qed.

Lemma round_nearest_even_exact m : round_nearest_even m loc_Exact = m.
Proof. reflexivity. Qed.

(** *** Representable bounds survive rounding

    A mantissa [mu > 0] is canonical at exponent [eu] when
    [fexp (digits mu + eu) = eu].  Rounding a value that lies below such a
    number cannot land above it, and rounding a value that lies above such a
    number cannot land below it. *)

Lemma canonical_exp_ge m e mu eu :
  0 < m -> 0 < mu -> fexp (Zdigits2 mu + eu) = eu ->
  (F2R m e <= F2R mu eu)%R ->
  fexp (Zdigits2 m + e) <= eu.
Proof.
  intros Hm Hmu Hcan Hle.
  destruct (F2R_bounds m e Hm) as [Hl _].
  destruct (F2R_bounds mu eu Hmu) as [_ Hu].
  assert (Hlt : (bpow (Zdigits2 m + e - 1) < bpow (Zdigits2 mu + eu))%R) by lra.
  apply bpow_lt_inv in Hlt. rewrite <- Hcan. apply fexp_mono. lia.
Qed.

Lemma shifted_exp_le m e mu eu :
  0 <= m -> e <= fexp (Zdigits2 m + e) ->
  0 < mu -> fexp (Zdigits2 mu + eu) = eu ->
  (F2R m e <= F2R mu eu)%R ->
  fexp (Zdigits2 m + e) <= eu.
Proof.
  intros Hm Hpre Hmu Hcan Hle.
  destruct (Z.eq_dec m 0) as [->|Hne].
  - cbn [Zdigits2] in *. rewrite <- Hcan.
    pose proof (fexp_ge_emin (Zdigits2 mu + eu)).
    unfold SpecFloat.fexp in *. lia.
  - apply (canonical_exp_ge m e mu eu); (assumption || lia).
Qed.

Lemma F2R_floor m e n :
  0 <= m -> 0 <= n -> (F2R (m / 2 ^ n) (e + n) <= F2R m e)%R.
Proof.
  intros Hm Hn. rewrite <- F2R_shift by exact Hn. apply F2R_le.
  assert (0 < 2 ^ n) by (apply Z.pow_pos_nonneg; lia).
  rewrite Z.mul_comm. apply Z.mul_div_le. lia.
Qed.

Lemma ceil_bracket m e mu eu :
  0 <= m -> e <= fexp (Zdigits2 m + e) ->
  0 < mu -> fexp (Zdigits2 mu + eu) = eu ->
  let n := fexp (Zdigits2 m + e) - e in
  (F2R m e <= F2R mu eu)%R ->
  (F2R (m / 2 ^ n) (e + n) < F2R mu eu)%R ->
  (F2R (m / 2 ^ n + 1) (e + n) <= F2R mu eu)%R.
Proof.
  intros Hm Hpre Hmu Hcan n Hle Hlt. subst n.
  pose proof (shifted_exp_le m e mu eu Hm Hpre Hmu Hcan Hle) as He.
  replace (e + (fexp (Zdigits2 m + e) - e)) with (fexp (Zdigits2 m + e)) in * by lia.
  set (e1 := fexp (Zdigits2 m + e)) in *.
  assert (HU : F2R mu eu = F2R (mu * 2 ^ (eu - e1)) e1).
  { rewrite F2R_shift by lia. f_equal. lia. }
  rewrite HU in *. apply F2R_le. apply F2R_lt_inv in Hlt. lia.
Qed.

Lemma floor_bracket m e ml el :
  0 <= m -> 0 < ml -> fexp (Zdigits2 ml + el) = el ->
  let n := Z.max (fexp (Zdigits2 m + e) - e) 0 in
  (F2R ml el <= F2R m e)%R ->
  (F2R ml el <= F2R (m / 2 ^ n) (e + n))%R.
Proof.
  intros Hm Hml Hcan n Hle. subst n.
  destruct (Z_le_gt_dec (fexp (Zdigits2 m + e) - e) 0) as [Hn|Hn].
  { rewrite Z.max_r by lia. rewrite Z.pow_0_r, Z.div_1_r, Z.add_0_r. exact Hle. }
  rewrite Z.max_l by lia.
  replace (e + (fexp (Zdigits2 m + e) - e)) with (fexp (Zdigits2 m + e)) by lia.
  set (n := fexp (Zdigits2 m + e) - e) in *.
  set (e1 := fexp (Zdigits2 m + e)) in *.
  assert (H2n : 0 < 2 ^ n) by (apply Z.pow_pos_nonneg; lia).
  destruct (F2R_bounds ml el Hml) as [HLl HLu].
  assert (Hmpos : 0 < m).
  { destruct (Z.eq_dec m 0) as [->|]; [|lia].
    unfold F2R at 2 in Hle. pose proof (bpow_pos (Zdigits2 ml + el - 1)). lra. }
  destruct (F2R_bounds m e Hmpos) as [HMl HMu].
  assert (Hg : Zdigits2 ml + el <= Zdigits2 m + e).
  { assert (Hlt : (bpow (Zdigits2 ml + el - 1) < bpow (Zdigits2 m + e))%R) by lra.
    apply bpow_lt_inv in Hlt. lia. }
  assert (Hel : el <= e1) by (rewrite <- Hcan; apply fexp_mono; exact Hg).
  destruct (Z.eq_dec el e1) as [Heq|Hneq].
  - rewrite Heq in *. apply F2R_le. apply Z.div_le_lower_bound; [lia|].
    replace e1 with (e + n) in Hle by (subst n e1; lia).
    rewrite <- F2R_shift in Hle by lia. apply F2R_le_inv in Hle. lia.
  - assert (Hg' : Zdigits2 ml + el < Zdigits2 m + e).
    { apply fexp_lt_inv. rewrite Hcan. fold e1. lia. }
    pose proof (Zdigits2_pos ml Hml) as Hdl.
    pose proof (fexp_ge_emin (Zdigits2 ml + el)) as Hemin. rewrite Hcan in Hemin.
    assert (Hk : 0 <= Zdigits2 m - 1 - n).
    { subst n e1. unfold SpecFloat.fexp in *. lia. }
    destruct (Zdigits2_bounds m Hmpos) as [Hlow _].
    assert (Hq : 2 ^ (Zdigits2 m - 1 - n) <= m / 2 ^ n).
    { apply Z.div_le_lower_bound; [lia|].
      rewrite <- Z.pow_add_r by lia.
      replace (n + (Zdigits2 m - 1 - n)) with (Zdigits2 m - 1) by lia. exact Hlow. }
    apply (F2R_le _ _ e1) in Hq.
    assert (Hb : F2R (2 ^ (Zdigits2 m - 1 - n)) e1 = bpow (Zdigits2 m + e - 1)).
    { unfold F2R. rewrite <- bpow_IZR, <- bpow_add by lia. f_equal. subst n e1. lia. }
    rewrite Hb in Hq.
    assert (Hb2 : (bpow (Zdigits2 ml + el) <= bpow (Zdigits2 m + e - 1))%R)
      by (apply bpow_le; lia).
    lra.
Qed.

(** [binary_round_aux] below a representable bound. *)
Lemma binary_round_aux_ub sx m e l mu eu :
  0 <= m -> e <= fexp (Zdigits2 m + e) ->
  0 < mu -> fexp (Zdigits2 mu + eu) = eu -> eu <= emax - prec ->
  (F2R m e <= F2R mu eu)%R ->
  (l <> loc_Exact -> (F2R m e < F2R mu eu)%R) ->
  binary_round_aux prec emax sx m e l = S754_zero sx \/
  exists m2 e2,
    binary_round_aux prec emax sx m e l = S754_finite sx m2 e2 /\
    e2 <= eu /\ (F2R (Z.pos m2) e2 <= F2R mu eu)%R.
Proof.
  intros Hm Hpre Hmu Hcan Hmax Hle Hlt.
  unfold binary_round_aux.
  destruct (shr_fexp_spec m e l Hm) as (He' & Hm' & Hloc).
  destruct (shr_fexp prec emax m e l) as [mrs' e'].
  cbn [fst snd] in He', Hm', Hloc.
  rewrite Z.max_l in He', Hm', Hloc by lia.
  set (n := fexp (Zdigits2 m + e) - e) in *.
  assert (H2n : 0 < 2 ^ n) by (apply Z.pow_pos_nonneg; lia).
  assert (Hm'0 : 0 <= shr_m mrs').
  { rewrite Hm'. apply Z.div_pos; lia. }
  set (m1 := round_nearest_even (shr_m mrs') (loc_of_shr_record mrs')).
  pose proof (round_nearest_even_bounds (shr_m mrs') (loc_of_shr_record mrs')) as Hrne.
  fold m1 in Hrne.
  pose proof (F2R_floor m e n Hm ltac:(lia)) as Hfloor.
  assert (He'u : e' <= eu).
  { rewrite He'. replace (e + n) with (fexp (Zdigits2 m + e)) by (subst n; lia).
    apply (shifted_exp_le m e mu eu); assumption. }
  assert (Hm1 : (F2R m1 e' <= F2R mu eu)%R).
  { destruct (loc_of_shr_record mrs') as [|c] eqn:Hl'.
    - subst m1. rewrite round_nearest_even_exact, Hm', He'. lra.
    - assert (Hstrict : (F2R (m / 2 ^ n) (e + n) < F2R mu eu)%R).
      { destruct l as [|c'].
        - destruct (Z.eq_dec (m mod 2 ^ n) 0) as [Hz|Hnz].
          + specialize (Hloc eq_refl Hz). discriminate Hloc.
          + assert (m / 2 ^ n * 2 ^ n < m).
            { pose proof (Z.div_mod m (2 ^ n) ltac:(lia)).
              pose proof (Z.mod_pos_bound m (2 ^ n) ltac:(lia)). lia. }
            assert ((F2R (m / 2 ^ n * 2 ^ n) e < F2R m e)%R).
            { unfold F2R. pose proof (bpow_pos e).
              apply Rmult_lt_compat_r; [assumption|]. apply IZR_lt. assumption. }
            rewrite F2R_shift in * by lia. lra.
        - assert ((F2R m e < F2R mu eu)%R) by (apply Hlt; discriminate). lra. }
      pose proof (ceil_bracket m e mu eu Hm Hpre Hmu Hcan Hle Hstrict) as Hceil.
      fold n in Hceil. rewrite He'.
      apply Rle_trans with (2 := Hceil). apply F2R_le. rewrite <- Hm'. lia. }
  assert (Hm10 : 0 <= m1) by lia.
  destruct (shr_fexp_spec m1 e' loc_Exact Hm10) as (He'' & Hm'' & _).
  destruct (shr_fexp prec emax m1 e' loc_Exact) as [mrs'' e''].
  cbn [fst snd] in He'', Hm''.
  set (n2 := Z.max (fexp (Zdigits2 m1 + e') - e') 0) in *.
  assert (H2n2 : 0 < 2 ^ n2) by (apply Z.pow_pos_nonneg; lia).
  pose proof (F2R_floor m1 e' n2 Hm10 ltac:(lia)) as Hfloor2.
  rewrite <- Hm'', <- He'' in Hfloor2.
  destruct (shr_m mrs'') as [|m2|m2] eqn:Hm2.
  - auto.
  - right.
    assert (Hm1pos : 0 < m1).
    { destruct (Z.eq_dec m1 0) as [Hz|]; [|lia].
      assert (m1 / 2 ^ n2 = 0) by (rewrite Hz; apply Z.div_0_l; lia). lia. }
    assert (He''u : e'' <= eu).
    { pose proof (canonical_exp_ge m1 e' mu eu Hm1pos Hmu Hcan Hm1). lia. }
    rewrite (proj2 (Z.leb_le e'' (emax - prec))) by lia.
    exists m2, e''. split; [reflexivity|]. split; [exact He''u|]. lra.
  - exfalso. assert (0 <= m1 / 2 ^ n2) by (apply Z.div_pos; lia). lia.
Qed.

(** [binary_round_aux] above a representable bound. *)
Lemma binary_round_aux_lb sx m e l ml el :
  0 <= m -> 0 < ml -> fexp (Zdigits2 ml + el) = el ->
  (F2R ml el <= F2R m e)%R ->
  binary_round_aux prec emax sx m e l = S754_infinity sx \/
  exists m2 e2,
    binary_round_aux prec emax sx m e l = S754_finite sx m2 e2 /\
    (F2R ml el <= F2R (Z.pos m2) e2)%R.
Proof.
  intros Hm Hml Hcan Hle.
  unfold binary_round_aux.
  destruct (shr_fexp_spec m e l Hm) as (He' & Hm' & _).
  pose proof (floor_bracket m e ml el Hm Hml Hcan Hle) as Hfb. cbn zeta in Hfb.
  destruct (shr_fexp prec emax m e l) as [mrs' e'].
  cbn [fst snd] in He', Hm'.
  set (n := Z.max (fexp (Zdigits2 m + e) - e) 0) in *.
  assert (H2n : 0 < 2 ^ n) by (apply Z.pow_pos_nonneg; lia).
  assert (Hm'0 : 0 <= shr_m mrs').
  { rewrite Hm'. apply Z.div_pos; lia. }
  set (m1 := round_nearest_even (shr_m mrs') (loc_of_shr_record mrs')).
  pose proof (round_nearest_even_bounds (shr_m mrs') (loc_of_shr_record mrs')) as Hrne.
  fold m1 in Hrne.
  assert (Hm10 : 0 <= m1) by lia.
  assert (Hm1 : (F2R ml el <= F2R m1 e')%R).
  { rewrite <- Hm', <- He' in Hfb. apply Rle_trans with (1 := Hfb).
    apply F2R_le. lia. }
  destruct (shr_fexp_spec m1 e' loc_Exact Hm10) as (He'' & Hm'' & _).
  pose proof (floor_bracket m1 e' ml el Hm10 Hml Hcan Hm1) as Hfb2. cbn zeta in Hfb2.
  destruct (shr_fexp prec emax m1 e' loc_Exact) as [mrs'' e''].
  cbn [fst snd] in He'', Hm''.
  rewrite <- Hm'', <- He'' in Hfb2.
  destruct (F2R_bounds ml el Hml) as [HLl _].
  pose proof (bpow_pos (Zdigits2 ml + el - 1)) as Hpos.
  destruct (shr_m mrs'') as [|m2|m2] eqn:Hm2.
  - exfalso. unfold F2R at 2 in Hfb2. lra.
  - destruct (e'' <=? emax - prec); eauto.
  - exfalso.
    assert (0 <= m1 / 2 ^ Z.max (fexp (Zdigits2 m1 + e') - e') 0).
    { apply Z.div_pos; [lia|]. apply Z.pow_pos_nonneg; lia. }
    lia.
Qed.

(** *** Aligning mantissas *)

Lemma Zdigits2_unique k m : 0 < k -> 2 ^ (k - 1) <= m < 2 ^ k -> Zdigits2 m = k.
Proof.
  intros Hk [Hl Hu].
  pose proof (Zdigits2_gt (k - 1) m ltac:(lia) Hl).
  assert (0 < 2 ^ (k - 1)) by (apply Z.pow_pos_nonneg; lia).
  pose proof (Zdigits2_le k m ltac:(lia) ltac:(lia)). lia.
Qed.

Lemma Zdigits2_shift m d : 0 < m -> 0 <= d -> Zdigits2 (m * 2 ^ d) = Zdigits2 m + d.
Proof.
  intros Hm Hd. destruct (Zdigits2_bounds m Hm) as [Hl Hu].
  pose proof (Zdigits2_pos m Hm).
  assert (0 < 2 ^ d) by (apply Z.pow_pos_nonneg; lia).
  apply Zdigits2_unique; [lia|]. split.
  - replace (Zdigits2 m + d - 1) with ((Zdigits2 m - 1) + d) by lia.
    rewrite Z.pow_add_r by lia. nia.
  - rewrite Z.pow_add_r by lia. nia.
Qed.

Lemma iter_xO_pow (m d : positive) : Z.pos (Pos.iter xO m d) = Z.pos m * 2 ^ Z.pos d.
Proof.
  change (Pos.iter xO m d) with (shift_pos d m).
  rewrite shift_pos_correct, Z.mul_comm. reflexivity.
Qed.

Lemma shl_align_spec mx ex ex' :
  let r := shl_align mx ex ex' in
  snd r = Z.min ex ex' /\
  Z.pos (fst r) = Z.pos mx * 2 ^ (ex - Z.min ex ex').
Proof.
  unfold shl_align. destruct (ex' - ex) as [|d|d] eqn:Hd; cbn [fst snd].
  - rewrite Z.min_l by lia. rewrite Z.sub_diag. split; lia.
  - rewrite Z.min_l by lia. rewrite Z.sub_diag. split; lia.
  - rewrite Z.min_r by lia. split; [reflexivity|].
    rewrite iter_xO_pow. f_equal. f_equal. lia.
Qed.

Lemma shl_align_F2R mx ex ex' :
  F2R (Z.pos (fst (shl_align mx ex ex'))) (Z.min ex ex') = F2R (Z.pos mx) ex.
Proof.
  destruct (shl_align_spec mx ex ex') as [_ ->].
  rewrite F2R_shift by lia. f_equal. lia.
Qed.

Lemma binary_round_ub sx mx ex mu eu :
  0 < mu -> fexp (Zdigits2 mu + eu) = eu -> eu <= emax - prec ->
  (F2R (Z.pos mx) ex <= F2R mu eu)%R ->
  binary_round prec emax sx mx ex = S754_zero sx \/
  exists m2 e2,
    binary_round prec emax sx mx ex = S754_finite sx m2 e2 /\
    e2 <= eu /\ (F2R (Z.pos m2) e2 <= F2R mu eu)%R.
Proof.
  intros Hmu Hcan Hmax Hle. unfold binary_round.
  pose proof (shl_align_spec mx ex (fexp (Z.pos (digits2_pos mx) + ex))) as [He Hm].
  pose proof (shl_align_F2R mx ex (fexp (Z.pos (digits2_pos mx) + ex))) as HF.
  destruct (shl_align mx ex (fexp (Z.pos (digits2_pos mx) + ex))) as [mz ez].
  cbn [fst snd] in He, Hm, HF. rewrite <- He in HF.
  apply binary_round_aux_ub; try assumption; try lia.
  - rewrite Hm, Zdigits2_shift by lia. cbn [Zdigits2]. rewrite He.
    replace (Z.pos (digits2_pos mx) + (ex - Z.min ex (fexp (Z.pos (digits2_pos mx) + ex)))
             + Z.min ex (fexp (Z.pos (digits2_pos mx) + ex)))
      with (Z.pos (digits2_pos mx) + ex) by lia.
    lia.
  - rewrite HF. exact Hle.
  - intros H. congruence.
Qed.

Lemma binary_round_lb sx mx ex ml el :
  0 < ml -> fexp (Zdigits2 ml + el) = el ->
  (F2R ml el <= F2R (Z.pos mx) ex)%R ->
  binary_round prec emax sx mx ex = S754_infinity sx \/
  exists m2 e2,
    binary_round prec emax sx mx ex = S754_finite sx m2 e2 /\
    (F2R ml el <= F2R (Z.pos m2) e2)%R.
Proof.
  intros Hml Hcan Hle. unfold binary_round.
  pose proof (shl_align_spec mx ex (fexp (Z.pos (digits2_pos mx) + ex))) as [He Hm].
  pose proof (shl_align_F2R mx ex (fexp (Z.pos (digits2_pos mx) + ex))) as HF.
  destruct (shl_align mx ex (fexp (Z.pos (digits2_pos mx) + ex))) as [mz ez].
  cbn [fst snd] in He, Hm, HF. rewrite <- He in HF.
  apply binary_round_aux_lb; try assumption; try lia.
  rewrite HF. exact Hle.
Qed.

(** *** Addition and subtraction of non-negative numbers *)

Lemma bounded_inv m e :
  bounded prec emax m e = true ->
  fexp (Zdigits2 (Z.pos m) + e) = e /\ e <= emax - prec.
Proof.
  unfold bounded. intros H. apply andb_true_iff in H as [Hc He].
  apply canonical_mantissa_spec in Hc. apply Z.leb_le in He. auto.
Qed.

Lemma F2R_pos m e : 0 < m -> (0 < F2R m e)%R.
Proof.
  intros Hm. unfold F2R. apply Rmult_lt_0_compat; [|apply bpow_pos].
  apply IZR_lt. exact Hm.
Qed.

Lemma F2R_add m1 m2 e : F2R (m1 + m2) e = (F2R m1 e + F2R m2 e)%R.
Proof. unfold F2R. rewrite plus_IZR. ring. Qed.

Lemma aligned_left mx ex ey :
  F2R (Z.pos (fst (shl_align mx ex (Z.min ex ey)))) (Z.min ex ey) = F2R (Z.pos mx) ex.
Proof.
  rewrite <- (shl_align_F2R mx ex (Z.min ex ey)). f_equal. lia.
Qed.

Lemma aligned_right my ex ey :
  F2R (Z.pos (fst (shl_align my ey (Z.min ex ey)))) (Z.min ex ey) = F2R (Z.pos my) ey.
Proof.
  rewrite <- (shl_align_F2R my ey (Z.min ex ey)). f_equal. lia.
Qed.

Lemma SFadd_lb x y :
  SF_nonneg_finite x -> SF_nonneg_finite y ->
  SFeqb (SFadd prec emax x y) (S754_zero false) = false ->
  SF_pos_ge (SFadd prec emax x y) (SF_value x) /\
  SF_pos_ge (SFadd prec emax x y) (SF_value y).
Proof.
  destruct x as [sx| | |[|] mx ex]; cbn [SF_nonneg_finite]; try tauto;
    destruct y as [sy| | |[|] my ey]; cbn [SF_nonneg_finite]; try tauto;
    intros Hx Hy.
  - destruct sx, sy; cbn; discriminate.
  - intros _. cbn [SFadd SF_pos_ge SF_value].
    pose proof (F2R_pos (Z.pos my) ey ltac:(lia)). split; lra.
  - intros _. cbn [SFadd SF_pos_ge SF_value].
    pose proof (F2R_pos (Z.pos mx) ex ltac:(lia)). split; lra.
  - intros _. cbn [SFadd SF_value cond_Zopp].
    apply bounded_inv in Hx as [Hcx _]. apply bounded_inv in Hy as [Hcy _].
    set (ez := Z.min ex ey).
    pose proof (aligned_left mx ex ey) as HX.
    pose proof (aligned_right my ex ey) as HY. fold ez in HX, HY.
    set (ax := fst (shl_align mx ex ez)) in *.
    set (ay := fst (shl_align my ey ez)) in *.
    change (Z.pos ax + Z.pos ay) with (Z.pos (ax + ay)).
    cbn [binary_normalize].
    assert (Hsum : F2R (Z.pos (ax + ay)) ez
                   = (F2R (Z.pos mx) ex + F2R (Z.pos my) ey)%R).
    { rewrite Pos2Z.inj_add, F2R_add, HX, HY. reflexivity. }
    pose proof (F2R_pos (Z.pos mx) ex ltac:(lia)) as Hxp.
    pose proof (F2R_pos (Z.pos my) ey ltac:(lia)) as Hyp.
    destruct (binary_round_lb false (ax + ay) ez (Z.pos mx) ex ltac:(lia) Hcx
                ltac:(rewrite Hsum; lra)) as [Hinf|(m2 & e2 & Hr & Hb)].
    + rewrite Hinf. cbn. auto.
    + destruct (binary_round_lb false (ax + ay) ez (Z.pos my) ey ltac:(lia) Hcy
                  ltac:(rewrite Hsum; lra)) as [Hinf|(m3 & e3 & Hr3 & Hb3)].
      * rewrite Hinf. cbn. auto.
      * rewrite Hr in Hr3. injection Hr3 as <- <-.
        rewrite Hr. cbn [SF_pos_ge]. auto.
Qed.

Lemma SFsub_ub x y :
  SF_nonneg_finite x -> SF_nonneg_finite y ->
  SF_abs_le (SFsub prec emax x y) (SF_value x) \/
  SF_abs_le (SFsub prec emax x y) (SF_value y).
Proof.
  destruct x as [sx| | |[|] mx ex]; cbn [SF_nonneg_finite]; try tauto;
    destruct y as [sy| | |[|] my ey]; cbn [SF_nonneg_finite]; try tauto;
    intros Hx Hy.
  - left. destruct sx, sy; exact I.
  - right. cbn. lra.
  - left. cbn. lra.
  - cbn [SFsub SF_value cond_Zopp].
    apply bounded_inv in Hx as [Hcx Hbx]. apply bounded_inv in Hy as [Hcy Hby].
    set (ez := Z.min ex ey).
    pose proof (aligned_left mx ex ey) as HX.
    pose proof (aligned_right my ex ey) as HY. fold ez in HX, HY.
    set (ax := fst (shl_align mx ex ez)) in *.
    set (ay := fst (shl_align my ey ez)) in *.
    pose proof (F2R_pos (Z.pos mx) ex ltac:(lia)) as Hxp.
    pose proof (F2R_pos (Z.pos my) ey ltac:(lia)) as Hyp.
    assert (Hdiff : F2R (Z.pos ax - Z.pos ay) ez
                    = (F2R (Z.pos mx) ex - F2R (Z.pos my) ey)%R).
    { unfold Z.sub. rewrite F2R_add, HX, <- HY. unfold F2R.
      rewrite opp_IZR. ring. }
    destruct (Z.pos ax - Z.pos ay) as [|p|p] eqn:Hp; cbn [binary_normalize].
    + left. exact I.
    + left.
      destruct (binary_round_ub false p ez (Z.pos mx) ex ltac:(lia) Hcx Hbx
                  ltac:(rewrite Hdiff; lra)) as [Hz|(m2 & e2 & Hr & _ & Hb)].
      * rewrite Hz. exact I.
      * rewrite Hr. exact Hb.
    + right.
      assert (Hneg : F2R (Z.pos p) ez = (F2R (Z.pos my) ey - F2R (Z.pos mx) ex)%R).
      { change (Z.pos p) with (- Z.neg p). unfold F2R in *.
        rewrite opp_IZR. lra. }
      destruct (binary_round_ub true p ez (Z.pos my) ey ltac:(lia) Hcy Hby
                  ltac:(rewrite Hneg; lra)) as [Hz|(m2 & e2 & Hr & _ & Hb)].
      * rewrite Hz. exact I.
      * rewrite Hr. exact Hb.
Qed.

(** *** Division of a smaller by a larger magnitude *)

Lemma new_location_exact m r :
  new_location m r = loc_Exact -> r = 0.
Proof.
  unfold new_location, new_location_even, new_location_odd.
  destruct (Z.even m); destruct (r =? 0) eqn:Hr; try discriminate;
    intros _; by apply Z.eqb_eq.
Qed.

Lemma one_canonical : fexp (Zdigits2 (2 ^ (prec - 1)) + (1 - prec)) = 1 - prec.
Proof.
  assert (0 < 2 ^ (prec - 1)) by (apply Z.pow_pos_nonneg; lia).
  rewrite (Zdigits2_unique prec (2 ^ (prec - 1))); [|lia|].
  - unfold SpecFloat.fexp, SpecFloat.emin. lia.
  - split; [lia|]. apply Z.pow_lt_mono_r; lia.
Qed.

Lemma F2R_one : F2R (2 ^ (prec - 1)) (1 - prec) = 1%R.
Proof.
  unfold F2R. rewrite <- bpow_IZR, <- bpow_add by lia.
  replace (prec - 1 + (1 - prec)) with 0 by lia. reflexivity.
Qed.

Lemma SFdiv_core_binary_spec m1 e1 m2 e2 :
  0 < m1 -> 0 < m2 ->
  (F2R m1 e1 <= F2R m2 e2)%R ->
  let '(q, e', l) := SFdiv_core_binary prec emax m1 e1 m2 e2 in
  0 <= q /\ e' <= fexp (Zdigits2 q + e') /\
  (F2R q e' <= 1)%R /\ (l <> loc_Exact -> (F2R q e' < 1)%R).
Proof.
  intros Hm1 Hm2 Hle. unfold SFdiv_core_binary.
  set (d1 := Zdigits2 m1). set (d2 := Zdigits2 m2).
  set (e' := Z.min (fexp (d1 + e1 - (d2 + e2))) (e1 - e2)).
  set (s := e1 - e2 - e').
  assert (Hs : 0 <= s) by (subst s e'; lia).
  set (m' := match s with Z.pos _ => Z.shiftl m1 s | 0 => m1 | Z.neg _ => 0 end).
  assert (Hm' : m' = m1 * 2 ^ s).
  { subst m'. destruct s as [|p|p]; [cbn; lia| |lia].
    rewrite Z.shiftl_mul_pow2 by lia. reflexivity. }
  pose proof (Z_div_mod m' m2 ltac:(lia)) as Hdm.
  destruct (Z.div_eucl m' m2) as [q r]. destruct Hdm as [Hdm Hr].
  assert (H2s : 0 < 2 ^ s) by (apply Z.pow_pos_nonneg; lia).
  assert (Hq : 0 <= q) by nia.
  pose proof (F2R_pos m2 e2 Hm2) as Hpos2.
  assert (Hval : (F2R q e' * F2R m2 e2 + F2R r (e' + e2) = F2R m1 e1)%R).
  { replace e1 with ((e' + e2) + s) at 1 by (subst s; lia).
    rewrite <- (F2R_shift m1 (e' + e2) s), <- Hm', Hdm by lia.
    unfold F2R. rewrite plus_IZR, mult_IZR, bpow_add. ring. }
  assert (Hrnn : (0 <= F2R r (e' + e2))%R).
  { unfold F2R. apply Rmult_le_pos; [apply IZR_le; lia|].
    pose proof (bpow_pos (e' + e2)). lra. }
  split; [exact Hq|]. split; [|split].
  - destruct (Z_le_gt_dec e' emin) as [Hlow|Hhigh].
    { pose proof (fexp_ge_emin (Zdigits2 q + e')). lia. }
    assert (Hprecs : prec <= d1 - d2 + s).
    { subst s e'. unfold SpecFloat.fexp in *. lia. }
    destruct (Zdigits2_bounds m1 Hm1) as [Hl1 _].
    destruct (Zdigits2_bounds m2 Hm2) as [_ Hu2].
    fold d1 in Hl1. fold d2 in Hu2.
    pose proof (Zdigits2_pos m1 Hm1) as Hd1. fold d1 in Hd1.
    pose proof (Zdigits2_pos m2 Hm2) as Hd2. fold d2 in Hd2.
    assert (Hbig : 2 ^ (prec - 1) <= q).
    { assert (Hc : 2 ^ (prec - 1) * m2 <= m').
      { rewrite Hm'.
        apply Z.le_trans with (2 ^ (prec - 1) * 2 ^ d2).
        { apply Z.mul_le_mono_nonneg_l; [apply Z.pow_nonneg|]; lia. }
        rewrite <- Z.pow_add_r by lia.
        apply Z.le_trans with (2 ^ (d1 - 1 + s)).
        { apply Z.pow_le_mono_r; lia. }
        rewrite Z.pow_add_r by lia.
        apply Z.mul_le_mono_nonneg_r; lia. }
      assert (0 < 2 ^ (prec - 1)) by (apply Z.pow_pos_nonneg; lia).
      nia. }
    pose proof (Zdigits2_gt (prec - 1) q ltac:(lia) Hbig).
    unfold SpecFloat.fexp. lia.
  - assert (H : (F2R q e' * F2R m2 e2 <= 1 * F2R m2 e2)%R) by lra.
    apply Rmult_le_reg_r in H; assumption.
  - intros Hl.
    assert (Hrne : r <> 0).
    { intros ->. apply Hl. unfold new_location, new_location_even, new_location_odd.
      destruct (Z.even m2); reflexivity. }
    assert (Hrpos : (0 < F2R r (e' + e2))%R) by (apply F2R_pos; lia).
    assert (H : (F2R q e' * F2R m2 e2 < 1 * F2R m2 e2)%R) by lra.
    apply Rmult_lt_reg_r in H; assumption.
Qed.

Lemma SFdiv_unit d s B :
  SF_abs_le d B -> SF_pos_ge s B -> SF_in_unit (SFdiv prec emax d s).
Proof.
  destruct d as [sd| | |sd md ed]; cbn [SF_abs_le]; try tauto;
    destruct s as [ss|[|]| |[|] ms es]; cbn [SF_pos_ge]; try tauto;
    intros Hd Hs; try exact I.
  cbn [SFdiv].
  pose proof (SFdiv_core_binary_spec (Z.pos md) ed (Z.pos ms) es
                ltac:(lia) ltac:(lia) ltac:(lra)) as Hcore.
  destruct (SFdiv_core_binary prec emax (Z.pos md) ed (Z.pos ms) es) as [[q e'] l].
  destruct Hcore as (Hq & Hpre & Hle & Hlt).
  assert (H2 : 0 < 2 ^ (prec - 1)) by (apply Z.pow_pos_nonneg; lia).
  destruct (binary_round_aux_ub (xorb sd false) q e' l (2 ^ (prec - 1)) (1 - prec)
              Hq Hpre H2 one_canonical ltac:(lia)
              ltac:(rewrite F2R_one; exact Hle)
              ltac:(rewrite F2R_one; exact Hlt))
    as [Hz|(m2 & e2 & Hr & He & Hb)].
  - rewrite Hz. exact I.
  - rewrite Hr. cbn [SF_in_unit]. auto.
Qed.

(** *** The normalized difference of two non-negative numbers *)

Lemma SF_in_unit_leb q (one : positive) :
  Z.pos one = 2 ^ (prec - 1) ->
  SF_in_unit q ->
  SFleb (S754_finite true one (1 - prec)) q = true /\
  SFleb q (S754_finite false one (1 - prec)) = true.
Proof.
  intros Hone. destruct q as [sq| | |sq m e]; cbn [SF_in_unit]; try tauto.
  intros [He Hb]. rewrite <- Hone in Hb.
  unfold SFleb, SFcompare.
  destruct (Z.compare_spec e (1 - prec)) as [Heq|Hlt|Hgt]; [| |lia].
  - subst e. apply F2R_le_inv in Hb.
    rewrite Z.compare_refl.
    change (Pos.compare_cont Eq) with Pos.compare.
    destruct (Pos.compare_spec m one) as [->|?|?]; [| |lia].
    + rewrite Pos.compare_refl. destruct sq; auto.
    + rewrite (proj2 (Pos.compare_gt_iff one m)) by lia. destruct sq; auto.
  - rewrite (proj2 (Z.compare_gt_iff (1 - prec) e)) by lia. destruct sq; auto.
Qed.

Theorem SF_normalized_difference_in_unit x y (one : positive) :
  Z.pos one = 2 ^ (prec - 1) ->
  SF_nonneg_finite x -> SF_nonneg_finite y ->
  SFeqb (SFadd prec emax x y) (S754_zero false) = false ->
  let q := SFdiv prec emax (SFsub prec emax x y) (SFadd prec emax x y) in
  SFleb (S754_finite true one (1 - prec)) q = true /\
  SFleb q (S754_finite false one (1 - prec)) = true.
Proof.
  intros Hone Hx Hy Hnz q. subst q.
  apply SF_in_unit_leb; [exact Hone|].
  destruct (SFadd_lb x y Hx Hy Hnz) as [Hsx Hsy].
  destruct (SFsub_ub x y Hx Hy) as [Hd|Hd].
  - exact (SFdiv_unit _ _ _ Hd Hsx).
  - exact (SFdiv_unit _ _ _ Hd Hsy).
Qed.

(** *** Order and sign *)

Lemma SFleb_value x y :
  SF_nonneg_finite x -> SF_nonneg_finite y ->
  SFleb y x = true -> (SF_value y <= SF_value x)%R.
Proof.
  destruct x as [sx| | |[|] mx ex]; cbn [SF_nonneg_finite]; try tauto;
    destruct y as [sy| | |[|] my ey]; cbn [SF_nonneg_finite]; try tauto;
    intros Hx Hy; cbn [SF_value].
  - lra.
  - discriminate.
  - intros _. pose proof (F2R_pos (Z.pos mx) ex ltac:(lia)). lra.
  - apply bounded_inv in Hx as [Hcx _]. apply bounded_inv in Hy as [Hcy _].
    unfold SFleb, SFcompare.
    destruct (Z.compare_spec ey ex) as [Heq|Hlt|Hgt]; [| |discriminate].
    + subst ey. change (Pos.compare_cont Eq) with Pos.compare.
      destruct (Pos.compare_spec my mx) as [->|?|?]; try discriminate;
        intros _; apply F2R_le; lia.
    + intros _. destruct (Rle_or_lt (F2R (Z.pos my) ey) (F2R (Z.pos mx) ex)) as [|Hc];
        [assumption|].
      pose proof (canonical_exp_ge (Z.pos mx) ex (Z.pos my) ey
                    ltac:(lia) ltac:(lia) Hcy ltac:(lra)) as H.
      rewrite Hcx in H. lia.
Qed.

Lemma SFsub_sign_nonneg x y :
  SF_nonneg_finite x -> SF_nonneg_finite y ->
  (SF_value y <= SF_value x)%R ->
  SF_sign_is false (SFsub prec emax x y).
Proof.
  destruct x as [sx| | |[|] mx ex]; cbn [SF_nonneg_finite]; try tauto;
    destruct y as [sy| | |[|] my ey]; cbn [SF_nonneg_finite]; try tauto;
    intros Hx Hy; cbn [SF_value].
  - intros _. destruct sx, sy; exact I.
  - intros H. pose proof (F2R_pos (Z.pos my) ey ltac:(lia)). lra.
  - intros _. reflexivity.
  - intros Hle. cbn [SFsub cond_Zopp].
    apply bounded_inv in Hx as [Hcx Hbx].
    set (ez := Z.min ex ey).
    pose proof (aligned_left mx ex ey) as HX.
    pose proof (aligned_right my ex ey) as HY. fold ez in HX, HY.
    set (ax := fst (shl_align mx ex ez)) in *.
    set (ay := fst (shl_align my ey ez)) in *.
    pose proof (F2R_pos (Z.pos my) ey ltac:(lia)) as Hyp.
    assert (Hdiff : F2R (Z.pos ax - Z.pos ay) ez
                    = (F2R (Z.pos mx) ex - F2R (Z.pos my) ey)%R).
    { unfold Z.sub. rewrite F2R_add, HX, <- HY. unfold F2R.
      rewrite opp_IZR. ring. }
    assert (Hge : 0 <= Z.pos ax - Z.pos ay).
    { apply (F2R_le_inv _ _ ez). rewrite Hdiff. unfold F2R at 1. lra. }
    destruct (Z.pos ax - Z.pos ay) as [|p|p] eqn:Hp; cbn [binary_normalize];
      [exact I| |lia].
    destruct (binary_round_ub false p ez (Z.pos mx) ex ltac:(lia) Hcx Hbx
                ltac:(rewrite Hdiff; lra)) as [Hz|(m2 & e2 & Hr & _)].
    + rewrite Hz. exact I.
    + rewrite Hr. reflexivity.
Qed.

Lemma SFsub_sign_nonpos x y :
  SF_nonneg_finite x -> SF_nonneg_finite y ->
  (SF_value x <= SF_value y)%R ->
  SF_sign_is true (SFsub prec emax x y).
Proof.
  destruct x as [sx| | |[|] mx ex]; cbn [SF_nonneg_finite]; try tauto;
    destruct y as [sy| | |[|] my ey]; cbn [SF_nonneg_finite]; try tauto;
    intros Hx Hy; cbn [SF_value].
  - intros _. destruct sx, sy; exact I.
  - intros _. reflexivity.
  - intros H. pose proof (F2R_pos (Z.pos mx) ex ltac:(lia)). lra.
  - intros Hle. cbn [SFsub cond_Zopp].
    apply bounded_inv in Hy as [Hcy Hby].
    set (ez := Z.min ex ey).
    pose proof (aligned_left mx ex ey) as HX.
    pose proof (aligned_right my ex ey) as HY. fold ez in HX, HY.
    set (ax := fst (shl_align mx ex ez)) in *.
    set (ay := fst (shl_align my ey ez)) in *.
    pose proof (F2R_pos (Z.pos mx) ex ltac:(lia)) as Hxp.
    assert (Hdiff : F2R (Z.pos ax - Z.pos ay) ez
                    = (F2R (Z.pos mx) ex - F2R (Z.pos my) ey)%R).
    { unfold Z.sub. rewrite F2R_add, HX, <- HY. unfold F2R.
      rewrite opp_IZR. ring. }
    assert (Hge : Z.pos ax - Z.pos ay <= 0).
    { apply (F2R_le_inv _ _ ez). rewrite Hdiff. unfold F2R at 3. lra. }
    destruct (Z.pos ax - Z.pos ay) as [|p|p] eqn:Hp; cbn [binary_normalize];
      [exact I|lia|].
    assert (Hneg : F2R (Z.pos p) ez = (F2R (Z.pos my) ey - F2R (Z.pos mx) ex)%R).
    { change (Z.pos p) with (- Z.neg p). unfold F2R in *.
      rewrite opp_IZR. lra. }
    destruct (binary_round_ub true p ez (Z.pos my) ey ltac:(lia) Hcy Hby
                ltac:(rewrite Hneg; lra)) as [Hz|(m2 & e2 & Hr & _)].
    + rewrite Hz. exact I.
    + rewrite Hr. reflexivity.
Qed.

(** The quotient of a magnitude by a larger positive one keeps the sign of
    the numerator. *)
Lemma SFdiv_sign d s B sgn :
  SF_abs_le d B -> SF_pos_ge s B -> SF_sign_is sgn d ->
  SF_sign_is sgn (SFdiv prec emax d s).
Proof.
  destruct d as [sd| | |sd md ed]; cbn [SF_abs_le]; try tauto;
    destruct s as [ss|[|]| |[|] ms es]; cbn [SF_pos_ge]; try tauto;
    intros Hd Hs Hsgn; try exact I.
  cbn [SF_sign_is] in Hsgn. subst sd. cbn [SFdiv].
  pose proof (SFdiv_core_binary_spec (Z.pos md) ed (Z.pos ms) es
                ltac:(lia) ltac:(lia) ltac:(lra)) as Hcore.
  destruct (SFdiv_core_binary prec emax (Z.pos md) ed (Z.pos ms) es) as [[q e'] l].
  destruct Hcore as (Hq & Hpre & Hle & Hlt).
  assert (H2 : 0 < 2 ^ (prec - 1)) by (apply Z.pow_pos_nonneg; lia).
  destruct (binary_round_aux_ub (xorb sgn false) q e' l (2 ^ (prec - 1)) (1 - prec)
              Hq Hpre H2 one_canonical ltac:(lia)
              ltac:(rewrite F2R_one; exact Hle)
              ltac:(rewrite F2R_one; exact Hlt))
    as [Hz|(m2 & e2 & Hr & _)].
  - rewrite Hz. exact I.
  - rewrite Hr. cbn. by rewrite xorb_false_r.
Qed.

Lemma SF_sign_leb q :
  (SF_sign_is false q -> SFleb (S754_zero false) q = true) /\
  (SF_sign_is true q -> SFleb q (S754_zero false) = true).
Proof.
  destruct q as [s| | |s m e]; cbn [SF_sign_is]; split; try tauto;
    try (intros ->); reflexivity.
Qed.

Lemma SFsub_magnitude_and_sum x y :
  SF_nonneg_finite x -> SF_nonneg_finite y ->
  SFeqb (SFadd prec emax x y) (S754_zero false) = false ->
  exists B, SF_abs_le (SFsub prec emax x y) B /\ SF_pos_ge (SFadd prec emax x y) B.
Proof.
  intros Hx Hy Hnz.
  destruct (SFadd_lb x y Hx Hy Hnz) as [Hsx Hsy].
  destruct (SFsub_ub x y Hx Hy) as [Hd|Hd]; eauto.
Qed.

Theorem SF_normalized_difference_sign x y :
  SF_nonneg_finite x -> SF_nonneg_finite y ->
  SFeqb (SFadd prec emax x y) (S754_zero false) = false ->
  let q := SFdiv prec emax (SFsub prec emax x y) (SFadd prec emax x y) in
  (SFleb y x = true -> SFleb (S754_zero false) q = true) /\
  (SFleb x y = true -> SFleb q (S754_zero false) = true).
Proof.
  intros Hx Hy Hnz q. subst q.
  destruct (SFsub_magnitude_and_sum x y Hx Hy Hnz) as (B & Hd & Hs).
  split; intros Hle.
  - apply SF_sign_leb. apply (SFdiv_sign _ _ B); try assumption.
    apply SFsub_sign_nonneg; try assumption. by apply SFleb_value.
  - apply SF_sign_leb. apply (SFdiv_sign _ _ B); try assumption.
    apply SFsub_sign_nonpos; try assumption. by apply SFleb_value.
Qed.

(** *** A number divided by itself *)

Lemma SFdiv_core_binary_self m e :
  0 < m ->
  let '(q, e', l) := SFdiv_core_binary prec emax m e m e in
  F2R q e' = 1%R.
Proof.
  intros Hm. unfold SFdiv_core_binary.
  set (d := Zdigits2 m).
  set (e' := Z.min (fexp (d + e - (d + e))) (e - e)).
  set (s := e - e - e').
  assert (Hs : 0 <= s) by (subst s e'; lia).
  set (m' := match s with Z.pos _ => Z.shiftl m s | 0 => m | Z.neg _ => 0 end).
  assert (Hm' : m' = 2 ^ s * m).
  { subst m'. destruct s as [|p|p]; [cbn; lia| |lia].
    rewrite Z.shiftl_mul_pow2 by lia. ring. }
  destruct (Z.div_eucl m' m) as [q r] eqn:E.
  assert (Hq : q = 2 ^ s).
  { replace q with (m' / m) by (unfold Z.div; by rewrite E).
    rewrite Hm'. apply Z.div_mul. lia. }
  subst q. unfold F2R. rewrite <- bpow_IZR, <- bpow_add by exact Hs.
  replace (s + e') with 0 by (subst s; lia). reflexivity.
Qed.

Lemma SFdiv_self sx sy m e (one : positive) :
  Z.pos one = 2 ^ (prec - 1) ->
  let q := SFdiv prec emax (S754_finite sx m e) (S754_finite sy m e) in
  SpecFloat.valid_binary prec emax q = true ->
  q = S754_finite (xorb sx sy) one (1 - prec).
Proof.
  intros Hone q. subst q. cbn [SFdiv].
  pose proof (SFdiv_core_binary_spec (Z.pos m) e (Z.pos m) e
                ltac:(lia) ltac:(lia) ltac:(lra)) as Hcore.
  pose proof (SFdiv_core_binary_self (Z.pos m) e ltac:(lia)) as Hself.
  destruct (SFdiv_core_binary prec emax (Z.pos m) e (Z.pos m) e) as [[q e'] l].
  destruct Hcore as (Hq & Hpre & Hle & Hlt).
  assert (H2 : 0 < 2 ^ (prec - 1)) by (apply Z.pow_pos_nonneg; lia).
  destruct (binary_round_aux_ub (xorb sx sy) q e' l (2 ^ (prec - 1)) (1 - prec)
              Hq Hpre H2 one_canonical ltac:(lia)
              ltac:(rewrite F2R_one; exact Hle)
              ltac:(rewrite F2R_one; exact Hlt))
    as [Hz|(m2 & e2 & Hr & He & Hb)];
    destruct (binary_round_aux_lb (xorb sx sy) q e' l (2 ^ (prec - 1)) (1 - prec)
                Hq H2 one_canonical ltac:(rewrite F2R_one, Hself; lra))
      as [Hi|(m3 & e3 & Hr3 & Hb3)]; try congruence.
  rewrite Hr in Hr3 |- *. injection Hr3 as <- <-.
  cbn [SpecFloat.valid_binary]. intros Hv. apply bounded_inv in Hv as [Hc _].
  pose proof (canonical_exp_ge (2 ^ (prec - 1)) (1 - prec) (Z.pos m2) e2
                H2 ltac:(lia) Hc Hb3) as Hge.
  rewrite one_canonical in Hge.
  assert (e2 = 1 - prec) by lia. subst e2.
  apply F2R_le_inv in Hb. apply F2R_le_inv in Hb3.
  f_equal. lia.
Qed.

(** *** Exchanging the operands *)

Lemma binary_round_aux_opp sx m e l :
  SFopp (binary_round_aux prec emax sx m e l)
  = binary_round_aux prec emax (negb sx) m e l.
Proof.
  unfold binary_round_aux.
  destruct (shr_fexp prec emax m e l) as [mrs' e'].
  destruct (shr_fexp prec emax _ e' loc_Exact) as [mrs'' e''].
  destruct (shr_m mrs''); [reflexivity| |reflexivity].
  destruct (e'' <=? emax - prec); reflexivity.
Qed.

Lemma binary_round_opp sx m e :
  SFopp (binary_round prec emax sx m e) = binary_round prec emax (negb sx) m e.
Proof.
  unfold binary_round.
  destruct (shl_align m e (fexp (Z.pos (digits2_pos m) + e))) as [mz ez].
  apply binary_round_aux_opp.
Qed.

Lemma binary_normalize_opp m e :
  m <> 0 ->
  binary_normalize prec emax (- m) e false
  = SFopp (binary_normalize prec emax m e false).
Proof.
  destruct m as [|p|p]; [done| |]; intros _; cbn [Z.opp binary_normalize].
  - by rewrite binary_round_opp.
  - by rewrite binary_round_opp.
Qed.

Lemma SFadd_comm x y : SFadd prec emax x y = SFadd prec emax y x.
Proof.
  destruct x as [sx|sx| |sx mx ex], y as [sy|sy| |sy my ey];
    try reflexivity; try (destruct sx, sy; reflexivity).
  cbn [SFadd]. rewrite (Z.min_comm ey ex). f_equal. apply Z.add_comm.
Qed.

Lemma SFsub_swap x y :
  SFsub prec emax y x = SFopp (SFsub prec emax x y) \/
  (SF_is_zero (SFsub prec emax y x) /\ SF_is_zero (SFsub prec emax x y)).
Proof.
  destruct x as [sx|sx| |sx mx ex], y as [sy|sy| |sy my ey];
    try (left; reflexivity);
    try (destruct sx, sy; cbn; auto; fail).
  cbn [SFsub]. rewrite (Z.min_comm ey ex).
  set (ez := Z.min ex ey).
  set (a := cond_Zopp sx (Z.pos (fst (shl_align mx ex ez)))).
  set (b := cond_Zopp sy (Z.pos (fst (shl_align my ey ez)))).
  destruct (Z.eq_dec (a - b) 0) as [Hz|Hnz].
  - right. replace (b - a) with 0 by lia. rewrite Hz. cbn. auto.
  - left. replace (b - a) with (- (a - b)) by lia.
    by apply binary_normalize_opp.
Qed.

Lemma SFdiv_opp_l d s :
  SFdiv prec emax (SFopp d) s = SFopp (SFdiv prec emax d s).
Proof.
  destruct d as [sd|sd| |sd md ed], s as [ss|ss| |ss ms es];
    try reflexivity; cbn [SFopp SFdiv];
    try (by rewrite negb_xorb_l).
  destruct (SFdiv_core_binary prec emax (Z.pos md) ed (Z.pos ms) es) as [[q e'] l].
  by rewrite binary_round_aux_opp, negb_xorb_l.
Qed.

Lemma SFdiv_of_zeros d d' s :
  SF_is_zero d -> SF_is_zero d' ->
  (SF_is_zero (SFdiv prec emax d s) /\ SF_is_zero (SFdiv prec emax d' s)) \/
  (SFdiv prec emax d s = S754_nan /\ SFdiv prec emax d' s = S754_nan).
Proof.
  destruct d; cbn [SF_is_zero]; try tauto.
  destruct d'; cbn [SF_is_zero]; try tauto.
  intros _ _. destruct s; cbn; auto.
Qed.

Theorem SF_normalized_difference_swap x y :
  let q := SFdiv prec emax (SFsub prec emax x y) (SFadd prec emax x y) in
  let q' := SFdiv prec emax (SFsub prec emax y x) (SFadd prec emax y x) in
  q' = SFopp q \/ (SF_is_zero q /\ SF_is_zero q').
Proof.
  intros q q'. subst q q'. rewrite (SFadd_comm y x).
  destruct (SFsub_swap x y) as [->|[Hz' Hz]].
  - left. apply SFdiv_opp_l.
  - destruct (SFdiv_of_zeros _ _ (SFadd prec emax x y) Hz Hz') as [[H H']|[-> ->]];
      auto.
Qed.


End Binary.

(** ** binary64 *)

Lemma float_nonneg_finite (a : float) :
  (0 <=? a)%float = true -> (a <? infinity)%float = true ->
  SF_nonneg_finite FloatOps.prec FloatOps.emax (Prim2SF a).
Proof.
  rewrite leb_spec, ltb_spec.
  change (Prim2SF 0) with (S754_zero false).
  change (Prim2SF infinity) with (S754_infinity false).
  pose proof (Prim2SF_valid a) as Hv.
  destruct (Prim2SF a) as [s|[|]| |[|] m e]; cbn; try discriminate; auto.
Qed.

Lemma float_normalized_difference_in_unit (a b : float) :
  (0 <=? a)%float = true -> (a <? infinity)%float = true ->
  (0 <=? b)%float = true -> (b <? infinity)%float = true ->
  (a + b =? 0)%float = false ->
  (-1 <=? (a - b) / (a + b))%float = true /\
  ((a - b) / (a + b) <=? 1)%float = true.
Proof.
  intros Ha Hfa Hb Hfb Hnz.
  apply float_nonneg_finite in Ha; [|exact Hfa].
  apply float_nonneg_finite in Hb; [|exact Hfb].
  rewrite FloatAxioms.eqb_spec, add_spec in Hnz.
  change (Prim2SF 0) with (S754_zero false) in Hnz.
  rewrite !leb_spec, div_spec, sub_spec, add_spec.
  change (Prim2SF 1) with (S754_finite false 4503599627370496 (1 - FloatOps.prec)).
  change (Prim2SF (-1)) with (S754_finite true 4503599627370496 (1 - FloatOps.prec)).
  apply (SF_normalized_difference_in_unit FloatOps.prec FloatOps.emax);
    try assumption; reflexivity.
Qed.

(** C6, as the code has it.  For two well-formed arrays on one grid whose
    elements are all finite and non-negative, with no position where [a + b]
    equals zero, the index is computed and every element of it lies between
    minus one and one. *)
Theorem ndvi_within_unit_interval (A B : DataArray float) :
  well_formed A -> well_formed B -> same_grid A B ->
  (forall i a, values A !! i = Some a ->
               (0 <=? a)%float = true /\ (a <? infinity)%float = true) ->
  (forall i b, values B !! i = Some b ->
               (0 <=? b)%float = true /\ (b <? infinity)%float = true) ->
  (forall i a b, values A !! i = Some a -> values B !! i = Some b ->
                 (a + b =? 0)%float = false) ->
  exists R,
    ndvi A B = Ok R /\
    length (values R) = length (values A) /\
    forall i q, values R !! i = Some q ->
                (-1 <=? q)%float = true /\ (q <=? 1)%float = true.
Proof.
  intros HA HB HAB HposA HposB Hnz.
  eexists. split; [exact (ndvi_same_grid A B HAB)|]. cbn. split.
  - rewrite length_zip_with, (well_formed_same_length A B HA HB HAB). lia.
  - intros i q Hq. apply lookup_zip_with_Some in Hq as (a & b & -> & Ha & Hb).
    destruct (HposA i a Ha) as [Ha0 Hafin].
    destruct (HposB i b Hb) as [Hb0 Hbfin].
    apply float_normalized_difference_in_unit; try assumption.
    exact (Hnz i a b Ha Hb).
Qed.

Lemma ndvi_within_unit_interval_witness :
  exists R,
    ndvi (Sample.cell 3%float) (Sample.cell 1%float) = Ok R /\
    length (values R) = length (values (Sample.cell 3%float)) /\
    forall i q, values R !! i = Some q ->
                (-1 <=? q)%float = true /\ (q <=? 1)%float = true.
Proof.
  apply (ndvi_within_unit_interval (Sample.cell 3%float) (Sample.cell 1%float)).
  - split; reflexivity.
  - split; reflexivity.
  - repeat split.
  - intros [|i] a; cbn; [|discriminate]. intros [= <-]. split; reflexivity.
  - intros [|i] b; cbn; [|discriminate]. intros [= <-]. split; reflexivity.
  - intros [|i] a b; cbn; [|discriminate]. intros [= <-] [= <-]. reflexivity.
Defined.

(** C6, as stated, fails twice over.  Non-negative elements need not be
    finite: with plus infinity against zero, on one grid, no sum is zero, and
    the one element of the index is [inf / inf], a NaN, which is not at most
    one.  And equal shapes are not one grid: two rows of finite non-negative
    elements whose columns are labelled in opposite order have no position
    where the sum is zero, but column 0 meets column 0, and the first
    element of the index is [0 / 0], a NaN again. *)
Lemma ndvi_unit_interval_counterexample :
  ~ (forall A B : DataArray float,
       well_formed A -> well_formed B -> same_grid A B ->
       (forall i a, values A !! i = Some a -> (0 <=? a)%float = true) ->
       (forall i b, values B !! i = Some b -> (0 <=? b)%float = true) ->
       (forall i a b, values A !! i = Some a -> values B !! i = Some b ->
                      (a + b =? 0)%float = false) ->
       exists R,
         ndvi A B = Ok R /\
         forall i q, values R !! i = Some q ->
                     (-1 <=? q)%float = true /\ (q <=? 1)%float = true) /\
  ~ (forall A B : DataArray float,
       well_formed A -> well_formed B ->
       dims A = dims B -> shape A = shape B ->
       (forall i a, values A !! i = Some a ->
                    (0 <=? a)%float = true /\ (a <? infinity)%float = true) ->
       (forall i b, values B !! i = Some b ->
                    (0 <=? b)%float = true /\ (b <? infinity)%float = true) ->
       (forall i a b, values A !! i = Some a -> values B !! i = Some b ->
                      (a + b =? 0)%float = false) ->
       exists R,
         ndvi A B = Ok R /\
         forall i q, values R !! i = Some q ->
                     (-1 <=? q)%float = true /\ (q <=? 1)%float = true).
Proof.
  split; intros H.
  - destruct (H (Sample.cell infinity) (Sample.cell 0%float)) as (R & HR & Hin).
    + split; reflexivity.
    + split; reflexivity.
    + repeat split.
    + intros [|i] a; cbn; [|discriminate]. intros [= <-]. reflexivity.
    + intros [|i] b; cbn; [|discriminate]. intros [= <-]. reflexivity.
    + intros [|i] a b; cbn; [|discriminate]. intros [= <-] [= <-]. reflexivity.
    + rewrite ndvi_same_grid in HR by (repeat split).
      injection HR as <-.
      destruct (Hin 0%nat nan eq_refl) as [_ Hle]. discriminate Hle.
  - destruct (H Scene.west_east Scene.east_west) as (R & HR & Hin).
    + split; reflexivity.
    + split; reflexivity.
    + reflexivity.
    + reflexivity.
    + intros [|[|i]] a; cbn; try discriminate; intros [= <-]; split; reflexivity.
    + intros [|[|i]] b; cbn; try discriminate; intros [= <-]; split; reflexivity.
    + intros [|[|i]] a b; cbn; try discriminate; intros [= <-] [= <-]; reflexivity.
    + destruct ndvi_pairs_by_label as (R' & HR' & _ & _ & _ & Hv).
      rewrite HR' in HR. apply Ok_inj in HR. subst R'.
      destruct (Hin 0%nat nan) as [_ Hle]; [by rewrite Hv|].
      discriminate Hle.
Qed.

(** * Further properties *)

(** ** One download *)

(** The ways a call ends: the destination is there; or it is missing and
    the body is stored, the client raises before or after sending, or the
    write raises with or without leaving something behind. *)
Ltac download_file_outcomes u d w :=
  let Hd := fresh "Hd" in
  let Hu := fresh "Hu" in
  let Hs := fresh "Hs" in
  let Hg := fresh "Hg" in
  destruct (files w !! d) as [?c|] eqn:Hd;
  [ rewrite (download_file_existing u d w) by (rewrite Hd; eauto)
  | rewrite (download_file_missing u d w Hd);
    destruct (http w u) as [?r|] eqn:Hu;
    [ match goal with
      | |- context [store w d ?b] =>
          destruct (store w d b) as [|?e [?part|]] eqn:Hs
      end
    | destruct (get_error w u) as [?e|?e] eqn:Hg ] ].

Lemma download_file_platform (u d : string) (w : world) :
  http (snd (download_file u d w)) = http w /\
  get_error (snd (download_file u d w)) = get_error w /\
  store (snd (download_file u d w)) = store w /\
  is_text (snd (download_file u d w)) = is_text w.
Proof. download_file_outcomes u d w; repeat split. Qed.

Lemma download_file_frame (u d : string) (w : world) :
  http (snd (download_file u d w)) = http w /\
  (forall p c, files w !! p = Some c ->
               files (snd (download_file u d w)) !! p = Some c) /\
  (forall p, p <> d -> files (snd (download_file u d w)) !! p = files w !! p).
Proof.
  download_file_outcomes u d w; cbn [snd files http holding requested announced printed];
    repeat split; auto.
  all: try (intros p c' Hp; destruct (decide (p = d)) as [->|Hne]; [congruence|];
            by rewrite lookup_insert_ne).
  all: intros p Hne; by rewrite lookup_insert_ne.
Qed.

Lemma download_file_returned (u d : string) (w w' : world) :
  download_file u d w = (Ok tt, w') ->
  is_Some (files w' !! d) /\
  files w' !! d = match files w !! d with
                  | Some c => Some c
                  | None => content <$> http w u
                  end /\
  requests w' =
    requests w ++ (if bool_decide (is_Some (files w !! d)) then [] else [u]).
Proof.
  download_file_outcomes u d w; try discriminate; intros [= <-].
  - rewrite Hd, bool_decide_eq_true_2 by eauto. rewrite app_nil_r. eauto.
  - cbn [files requests holding requested announced printed].
    rewrite lookup_insert_eq.
    rewrite bool_decide_eq_false_2 by (intros [? ?]; discriminate). eauto.
Qed.

Lemma raises_on_platform (u d : string) (w w' : world) (e : exn) :
  http w' = http w -> get_error w' = get_error w -> store w' = store w ->
  raises_on u d w' e -> raises_on u d w e.
Proof.
  unfold raises_on. intros Hh Hg Hs. rewrite Hh, Hg.
  destruct (http w u) as [r|]; [|done].
  intros [l H]. exists l. rewrite <- Hs. exact H.
Qed.

(** A call that raises had a missing destination, and the client or the
    write raised; the request is the last one logged unless the client
    rejected the URL. *)
Lemma download_file_raise_inv (u d : string) (w w1 : world) (e : exn) :
  download_file u d w = (Raise e, w1) ->
  files w !! d = None /\ raises_on u d w e /\
  ((http w u = None /\ get_error w u = Rejected e) \/
   last (requests w1) = Some u).
Proof.
  unfold raises_on.
  download_file_outcomes u d w; try discriminate; intros [= <- <-];
    (split; [reflexivity|]);
    cbn [requests holding requested announced printed]; rewrite ?last_snoc;
    eauto 10.
Qed.

(** X1.  [download_file] never deletes or overwrites: whatever the outcome,
    every file that was there keeps its contents, every path other than the
    destination is as it was, and the service is left alone. *)
Theorem download_file_never_overwrites (u d : string) (w : world) :
  http (snd (download_file u d w)) = http w /\
  (forall p c, files w !! p = Some c ->
               files (snd (download_file u d w)) !! p = Some c) /\
  (forall p, p <> d -> files (snd (download_file u d w)) !! p = files w !! p).
Proof. exact (download_file_frame u d w). Qed.

Lemma download_file_never_overwrites_witness :
  files (snd (download_file "http://bucket/B4.TIF" "meta.json" Sample.disk_with_meta))
    !! "meta.json" = Some Sample.meta_text /\
  files (snd (download_file "http://bucket/B4.TIF" "red.tif" Sample.disk_with_meta))
    !! "meta.json" = files Sample.disk_with_meta !! "meta.json".
Proof.
  split.
  - apply (proj1 (proj2 (download_file_never_overwrites
                           "http://bucket/B4.TIF" "meta.json" Sample.disk_with_meta))).
    reflexivity.
  - apply (proj2 (proj2 (download_file_never_overwrites
                           "http://bucket/B4.TIF" "red.tif" Sample.disk_with_meta))).
    discriminate.
Defined.

(** X2.  [download_file] prints its line before it asks for anything.  With
    the destination missing it prints one line naming the source, whatever
    comes of the request and of the write; with the destination present it
    prints nothing.  A GET is logged when the destination is missing and the
    client accepts the URL: a malformed URL is announced but never
    requested. *)
Theorem download_file_prints_before_it_requests (u d : string) (w : world) :
  stdout (snd (download_file u d w)) =
    stdout w ++ (if bool_decide (is_Some (files w !! d)) then []
                 else ["Downloading" +:+ " " +:+ u]) /\
  requests (snd (download_file u d w)) =
    requests w ++
      match files w !! d, http w u, get_error w u with
      | Some _, _, _ => []
      | None, None, Rejected _ => []
      | None, _, _ => [u]
      end.
Proof.
  download_file_outcomes u d w;
    cbn [snd requests stdout holding requested announced printed];
    rewrite ?bool_decide_eq_true_2 by eauto;
    rewrite ?bool_decide_eq_false_2 by (intros [? ?]; discriminate);
    rewrite ?app_nil_r; try (split; reflexivity).
  all: destruct (get_error w u); split; reflexivity.
Qed.

Lemma download_file_prints_before_it_requests_witness :
  download_file "" "red.tif" Sample.empty_disk
    = (Raise (MissingSchema ""), announced "" Sample.empty_disk) /\
  stdout (snd (download_file "" "red.tif" Sample.empty_disk)) = ["Downloading "] /\
  requests (snd (download_file "" "red.tif" Sample.empty_disk)) = [].
Proof.
  split; [reflexivity|].
  exact (download_file_prints_before_it_requests "" "red.tif" Sample.empty_disk).
Defined.

(** X3.  When no response comes, the client's exception reaches the caller
    and no file is created, so nothing is cached: the next call with that
    destination goes through the same steps again, printing its line and,
    unless the client rejects the URL, issuing the request once more. *)
Theorem download_file_failed_request_is_retried (u d : string) (w : world) :
  files w !! d = None -> http w u = None ->
  exists e w1 w2,
    (get_error w u = Rejected e \/ get_error w u = Failed e) /\
    download_file u d w = (Raise e, w1) /\
    files w1 = files w /\
    download_file u d w1 = (Raise e, w2) /\
    files w2 = files w /\
    stdout w2 = stdout w ++ ["Downloading" +:+ " " +:+ u; "Downloading" +:+ " " +:+ u] /\
    requests w2 = requests w ++ match get_error w u with
                                | Rejected _ => []
                                | Failed _ => [u; u]
                                end.
Proof.
  intros Hd Hu.
  destruct (get_error w u) as [e|e] eqn:Hg; exists e; do 2 eexists.
  all: split; [eauto|].
  all: split; [rewrite (download_file_missing u d w Hd), Hu, Hg; reflexivity|].
  all: split; [reflexivity|].
  all: split; [rewrite download_file_missing by exact Hd; cbn; rewrite Hu, Hg; reflexivity|].
  all: cbn; rewrite <- ?app_assoc, ?app_nil_r; auto.
Qed.

Lemma download_file_failed_request_is_retried_witness :
  exists e w1 w2,
    (Sample.client mtl_filename = Rejected e \/ Sample.client mtl_filename = Failed e) /\
    download_file mtl_filename "meta.json" Scene.offline_disk = (Raise e, w1) /\
    files w1 = files Scene.offline_disk /\
    download_file mtl_filename "meta.json" w1 = (Raise e, w2) /\
    files w2 = files Scene.offline_disk /\
    stdout w2 = stdout Scene.offline_disk
                ++ ["Downloading" +:+ " " +:+ mtl_filename;
                    "Downloading" +:+ " " +:+ mtl_filename] /\
    requests w2 = requests Scene.offline_disk ++ [mtl_filename; mtl_filename].
Proof.
  apply (download_file_failed_request_is_retried
           mtl_filename "meta.json" Scene.offline_disk).
  - reflexivity.
  - reflexivity.
Defined.

(** ** The download cell *)

Lemma download_cell_unfold (w : world) :
  download_cell w =
    match download_file nir_filename "nir.tif" w with
    | (Ok _, w1) =>
        match download_file red_filename "red.tif" w1 with
        | (Ok _, w2) => download_file mtl_filename "meta.json" w2
        | (Raise e, w2) => (Raise e, w2)
        end
    | (Raise e, w1) => (Raise e, w1)
    end.
Proof. reflexivity. Qed.

(** X4.  When the download cell returns, it has requested exactly the
    sources whose destination was missing, in the order nir, red, metadata;
    each destination holds what it held before or, if it was missing, the
    body the service sent; every other path is as it was. *)
Theorem download_cell_fetches_what_is_missing (w w' : world) :
  download_cell w = (Ok tt, w') ->
  requests w' =
    requests w
    ++ (if bool_decide (is_Some (files w !! "nir.tif")) then [] else [nir_filename])
    ++ (if bool_decide (is_Some (files w !! "red.tif")) then [] else [red_filename])
    ++ (if bool_decide (is_Some (files w !! "meta.json")) then [] else [mtl_filename]) /\
  (forall u d,
      (u, d) ∈ [(nir_filename, "nir.tif"); (red_filename, "red.tif");
                (mtl_filename, "meta.json")] ->
      files w' !! d = match files w !! d with
                      | Some c => Some c
                      | None => content <$> http w u
                      end) /\
  (forall p, p ∉ ["nir.tif"; "red.tif"; "meta.json"] ->
             files w' !! p = files w !! p).
Proof.
  rewrite download_cell_unfold.
  destruct (download_file nir_filename "nir.tif" w) as [[[]|e1] w1] eqn:H1;
    [|discriminate].
  destruct (download_file red_filename "red.tif" w1) as [[[]|e2] w2] eqn:H2;
    [|discriminate].
  intros H3.
  pose proof (download_file_frame nir_filename "nir.tif" w) as (Hh1 & Hk1 & Hf1).
  pose proof (download_file_frame red_filename "red.tif" w1) as (Hh2 & Hk2 & Hf2).
  pose proof (download_file_frame mtl_filename "meta.json" w2) as (Hh3 & Hk3 & Hf3).
  rewrite H1 in Hh1, Hk1, Hf1. rewrite H2 in Hh2, Hk2, Hf2.
  rewrite H3 in Hh3, Hk3, Hf3. cbn [snd] in *.
  apply download_file_returned in H1 as (_ & Hd1 & Hr1).
  apply download_file_returned in H2 as (_ & Hd2 & Hr2).
  apply download_file_returned in H3 as (_ & Hd3 & Hr3).
  assert (Hred : files w1 !! "red.tif" = files w !! "red.tif") by (by apply Hf1).
  assert (Hmeta : files w2 !! "meta.json" = files w !! "meta.json").
  { rewrite Hf2 by done. by apply Hf1. }
  split; [|split].
  - rewrite Hr3, Hr2, Hr1, Hred, Hmeta, <- !app_assoc. reflexivity.
  - intros u d Hin. apply elem_of_cons in Hin as [[= -> ->]|Hin].
    { rewrite Hf3, Hf2 by done. exact Hd1. }
    apply elem_of_cons in Hin as [[= -> ->]|Hin].
    { rewrite Hf3 by done. rewrite Hd2, Hred, Hh1. reflexivity. }
    apply list_elem_of_singleton in Hin as [= -> ->].
    rewrite Hd3, Hmeta, Hh2, Hh1. reflexivity.
  - intros p Hp.
    rewrite Hf3, Hf2, Hf1; [reflexivity|..]; intros ->; apply Hp;
      repeat constructor.
Qed.

Lemma download_cell_fetches_what_is_missing_witness :
  exists w',
    download_cell Scene.disk_with_red = (Ok tt, w') /\
    requests w' = [nir_filename; mtl_filename] /\
    files w' !! "red.tif" = Some Sample.tiff /\
    files w' !! "nir.tif" = Some Sample.not_found_page.
Proof.
  eexists. split; [reflexivity|].
  pose proof (download_cell_fetches_what_is_missing Scene.disk_with_red _ eq_refl)
    as (Hreq & Hfiles & _).
  split; [exact Hreq|]. split.
  - apply (Hfiles red_filename "red.tif"). repeat constructor.
  - apply (Hfiles nir_filename "nir.tif"). repeat constructor.
Defined.

Lemma download_cell_returned_all_present (w w' : world) :
  download_cell w = (Ok tt, w') ->
  is_Some (files w' !! "nir.tif") /\ is_Some (files w' !! "red.tif") /\
  is_Some (files w' !! "meta.json").
Proof.
  rewrite download_cell_unfold.
  destruct (download_file nir_filename "nir.tif" w) as [[[]|e1] w1] eqn:H1;
    [|discriminate].
  destruct (download_file red_filename "red.tif" w1) as [[[]|e2] w2] eqn:H2;
    [|discriminate].
  intros H3.
  pose proof (download_file_frame red_filename "red.tif" w1) as (_ & Hk2 & _).
  pose proof (download_file_frame mtl_filename "meta.json" w2) as (_ & Hk3 & _).
  rewrite H2 in Hk2. rewrite H3 in Hk3. cbn [snd] in *.
  apply download_file_returned in H1 as ([c1 Hc1] & _).
  apply download_file_returned in H2 as ([c2 Hc2] & _).
  apply download_file_returned in H3 as (Hs3 & _).
  split; [|split]; [| |exact Hs3].
  - exists c1. apply Hk3, Hk2, Hc1.
  - exists c2. apply Hk3, Hc2.
Qed.

(** X5.  The download cell is idempotent: running it twice in sequence
    leaves the world, request log and output included, as running it once. *)
Theorem download_cell_idempotent (w : world) :
  (download_cell;; download_cell) w = download_cell w.
Proof.
  rewrite io_bind_unfold.
  destruct (download_cell w) as [[[]|e] w'] eqn:Hc; [|reflexivity].
  apply download_cell_returned_all_present in Hc as (Hn & Hr & Hm).
  rewrite download_cell_unfold.
  rewrite (download_file_existing _ _ _ Hn), (download_file_existing _ _ _ Hr).
  exact (download_file_existing _ _ _ Hm).
Qed.

(** X6.  When the download cell raises, one of its three downloads did: its
    destination was missing, and the exception is the one the client raised
    for its source or the one raised by writing the body the service sent.
    Unless the client rejected the URL, that GET is the last request logged.
    Nothing that was on disk is lost, and the downloads before the failing
    one are on disk: a failure on the red band leaves [nir.tif] in place, a
    failure on the metadata leaves both bands in place. *)
Theorem download_cell_failure_keeps_progress (w w1 : world) (e : exn) :
  download_cell w = (Raise e, w1) ->
  (exists u d,
     (u, d) ∈ [(nir_filename, "nir.tif"); (red_filename, "red.tif");
               (mtl_filename, "meta.json")] /\
     files w !! d = None /\
     raises_on u d w e /\
     ((http w u = None /\ get_error w u = Rejected e) \/
      last (requests w1) = Some u) /\
     (d = "nir.tif" \/
      (d = "red.tif" /\ is_Some (files w1 !! "nir.tif")) \/
      (d = "meta.json" /\ is_Some (files w1 !! "nir.tif") /\
       is_Some (files w1 !! "red.tif")))) /\
  (forall p c, files w !! p = Some c -> files w1 !! p = Some c).
Proof.
  rewrite download_cell_unfold.
  pose proof (download_file_frame nir_filename "nir.tif" w) as (_ & Hk1 & Hf1).
  pose proof (download_file_platform nir_filename "nir.tif" w) as (Hh1 & Hg1 & Hs1 & _).
  destruct (download_file nir_filename "nir.tif" w) as [[[]|e1] wa] eqn:H1;
    cbn [snd] in *.
  2:{ intros [= <- <-]. split; [|exact Hk1].
      apply download_file_raise_inv in H1 as (Hd & Hr & Hl).
      exists nir_filename, "nir.tif". split; [repeat constructor|]. auto. }
  apply download_file_ok_present in H1 as Hn.
  pose proof (download_file_frame red_filename "red.tif" wa) as (_ & Hk2 & Hf2).
  pose proof (download_file_platform red_filename "red.tif" wa) as (Hh2 & Hg2 & Hs2 & _).
  destruct (download_file red_filename "red.tif" wa) as [[[]|e2] wb] eqn:H2;
    cbn [snd] in *.
  2:{ intros [= <- <-]. split; [|by eauto].
      apply download_file_raise_inv in H2 as (Hd & Hr & Hl).
      apply (raises_on_platform _ _ w) in Hr; [|assumption..].
      rewrite Hh1, Hg1 in Hl.
      rewrite Hf1 in Hd by done.
      exists red_filename, "red.tif".
      split; [repeat constructor|]. split; [exact Hd|]. split; [exact Hr|].
      split; [exact Hl|]. right; left. split; [reflexivity|].
      destruct Hn as [c Hc]. exists c. by apply Hk2. }
  apply download_file_ok_present in H2 as Hr.
  pose proof (download_file_frame mtl_filename "meta.json" wb) as (_ & Hk3 & Hf3).
  intros H3. rewrite H3 in Hk3, Hf3. cbn [snd] in *. split; [|by eauto].
  apply download_file_raise_inv in H3 as (Hd & Hr3 & Hl).
  apply (raises_on_platform _ _ w) in Hr3; [|congruence..].
  rewrite Hh2, Hg2, Hh1, Hg1 in Hl.
  rewrite Hf2, Hf1 in Hd by done.
  exists mtl_filename, "meta.json".
  split; [repeat constructor|]. split; [exact Hd|]. split; [exact Hr3|].
  split; [exact Hl|]. right; right. split; [reflexivity|].
  destruct Hn as [c Hc], Hr as [c' Hc']. split.
  - exists c. by apply Hk3, Hk2.
  - exists c'. by apply Hk3.
Qed.

Lemma download_cell_failure_keeps_progress_witness :
  exists w1,
    download_cell Scene.bands_only_disk = (Raise (ConnectionError mtl_filename), w1) /\
    is_Some (files w1 !! "nir.tif") /\ is_Some (files w1 !! "red.tif") /\
    forall p c, files Scene.bands_only_disk !! p = Some c -> files w1 !! p = Some c.
Proof.
  eexists. split; [reflexivity|].
  destruct (download_cell_failure_keeps_progress Scene.bands_only_disk _ _ eq_refl)
    as [_ Hkeep].
  split; [vm_compute; eauto|]. split; [vm_compute; eauto|]. exact Hkeep.
Defined.

(** ** More on [load_scale_factors] *)

Lemma load_scale_factors_world (json_load : bytes -> option json)
    (filename : string) (band_number : Z) (w : world) :
  snd (load_scale_factors json_load filename band_number w) = w.
Proof.
  unfold load_scale_factors, load_json. rewrite !io_bind_unfold.
  unfold read_file. destruct (files w !! filename) as [data|]; [|reflexivity].
  destruct (json_load data) as [doc|]; reflexivity.
Qed.

(** X7.  [load_scale_factors] only reads: it leaves the world as it found
    it, whatever the outcome.  A missing file gives [FileNotFoundError] with
    the path; a file that [json.load] does not decode gives
    [UnicodeDecodeError] when its contents are not text and
    [JSONDecodeError] when they are; none of them is turned into a lookup
    error. *)
Theorem load_scale_factors_file_errors (json_load : bytes -> option json)
    (filename : string) (band_number : Z) (w : world) :
  snd (load_scale_factors json_load filename band_number w) = w /\
  (files w !! filename = None ->
   fst (load_scale_factors json_load filename band_number w)
   = Raise (FileNotFoundError filename)) /\
  (forall data, files w !! filename = Some data -> json_load data = None ->
   fst (load_scale_factors json_load filename band_number w)
   = Raise (if is_text w data then JSONDecodeError else UnicodeDecodeError) /\
   is_lookup_error (if is_text w data then JSONDecodeError else UnicodeDecodeError)
   = false).
Proof.
  split; [apply load_scale_factors_world|].
  unfold load_scale_factors, load_json. rewrite !io_bind_unfold. unfold read_file.
  split.
  - intros ->. reflexivity.
  - intros data -> ->. split; [reflexivity|]. by destruct (is_text w data).
Qed.

Lemma load_scale_factors_file_errors_witness :
  fst (load_scale_factors Sample.decoder "meta.json" 4 Sample.empty_disk)
  = Raise (FileNotFoundError "meta.json") /\
  fst (load_scale_factors Sample.decoder "red.tif" 4 Scene.disk_with_red)
  = Raise JSONDecodeError /\
  fst (load_scale_factors Sample.decoder "meta.json" 4 Scene.disk_with_binary)
  = Raise UnicodeDecodeError.
Proof.
  split; [|split].
  - apply (proj1 (proj2 (load_scale_factors_file_errors
                           Sample.decoder "meta.json" 4 Sample.empty_disk))).
    reflexivity.
  - apply (proj2 (proj2 (load_scale_factors_file_errors
                           Sample.decoder "red.tif" 4 Scene.disk_with_red))
                 Sample.tiff).
    + reflexivity.
    + reflexivity.
  - apply (proj2 (proj2 (load_scale_factors_file_errors
                           Sample.decoder "meta.json" 4 Scene.disk_with_binary))
                 Scene.binary).
    + reflexivity.
    + reflexivity.
Defined.

(** X8.  The [KeyError] names the first key that is missing on the way:
    the outer key before the inner one, the inner one before the band's keys,
    and the multiplier's key before the offset's, also when both are
    missing. *)
Theorem load_scale_factors_names_first_missing_key
    (json_load : bytes -> option json) (filename : string) (band_number : Z)
    (w : world) (data : bytes) (o1 : gmap string json) :
  files w !! filename = Some data ->
  json_load data = Some (JObject o1) ->
  let r := fst (load_scale_factors json_load filename band_number w) in
  (o1 !! "L1_METADATA_FILE" = None -> r = Raise (KeyError "L1_METADATA_FILE")) /\
  (forall o2, o1 !! "L1_METADATA_FILE" = Some (JObject o2) ->
              o2 !! "RADIOMETRIC_RESCALING" = None ->
              r = Raise (KeyError "RADIOMETRIC_RESCALING")) /\
  (forall o3, reaches (JObject o1) rescaling_path (JObject o3) ->
              o3 !! mult_key band_number = None ->
              r = Raise (KeyError (mult_key band_number))) /\
  (forall o3 m, reaches (JObject o1) rescaling_path (JObject o3) ->
                o3 !! mult_key band_number = Some m ->
                o3 !! add_key band_number = None ->
                r = Raise (KeyError (add_key band_number))).
Proof.
  intros Hf Hj r. subst r.
  rewrite (load_scale_factors_decoded json_load _ _ _ _ _ Hf Hj). cbn [fst].
  unfold scale_factors, mbind, result_bind, getitem.
  split; [|split; [|split]].
  - intros ->. reflexivity.
  - intros o2 -> ->. reflexivity.
  - intros o3 Hr Hm. apply reaches_rescaling in Hr as (o1' & o2 & [= <-] & -> & ->).
    rewrite Hm. reflexivity.
  - intros o3 m Hr Hm Ha.
    apply reaches_rescaling in Hr as (o1' & o2 & [= <-] & -> & ->).
    rewrite Hm, Ha. reflexivity.
Qed.

Lemma load_scale_factors_names_first_missing_key_witness :
  fst (load_scale_factors Sample.decoder "meta.json" 5 Sample.disk_with_meta)
  = Raise (KeyError (mult_key 5)).
Proof.
  apply (proj1 (proj2 (proj2 (load_scale_factors_names_first_missing_key
           Sample.decoder "meta.json" 5 Sample.disk_with_meta Sample.meta_text _
           eq_refl eq_refl))) Sample.rescaling).
  - eapply reaches_step; [reflexivity|].
    eapply reaches_step; [reflexivity|]. constructor.
  - reflexivity.
Defined.

Lemma mult_key_inj (b b' : Z) : mult_key b = mult_key b' -> b = b'.
Proof.
  unfold mult_key. intros H. apply String.app_inj in H.
  by apply (inj pretty) in H.
Qed.

Lemma add_key_inj (b b' : Z) : add_key b = add_key b' -> b = b'.
Proof.
  unfold add_key. intros H. apply String.app_inj in H.
  by apply (inj pretty) in H.
Qed.

Lemma mult_key_ne_add_key (b b' : Z) : mult_key b <> add_key b'.
Proof. unfold mult_key, add_key. cbn. intros [=]. Qed.

Lemma scale_factors_of_rescaling (doc : json) (o3 : gmap string json) (band : Z) :
  reaches doc rescaling_path (JObject o3) ->
  scale_factors doc band =
    match o3 !! mult_key band with
    | Some m =>
        match o3 !! add_key band with
        | Some a => Ok (m, a)
        | None => Raise (KeyError (add_key band))
        end
    | None => Raise (KeyError (mult_key band))
    end.
Proof.
  intros Hr. apply reaches_rescaling in Hr as (o1 & o2 & -> & H1 & H2).
  unfold scale_factors, mbind, result_bind, getitem. rewrite H1, H2.
  destruct (o3 !! mult_key band); [|reflexivity].
  destruct (o3 !! add_key band); reflexivity.
Qed.

(** X9.  Bands do not interfere.  The keys of two different bands are
    different, and a multiplier key is never an offset key; so what is loaded
    for a band is the same in two documents whose rescaling mappings differ
    only in entries of another band. *)
Theorem load_scale_factors_bands_independent
    (doc doc' : json) (o3 : gmap string json) (band other : Z) (m' a' : json) :
  band <> other ->
  reaches doc rescaling_path (JObject o3) ->
  reaches doc' rescaling_path
          (JObject (<[mult_key other := m']> (<[add_key other := a']> o3))) ->
  mult_key band <> mult_key other /\
  add_key band <> add_key other /\
  scale_factors doc' band = scale_factors doc band.
Proof.
  intros Hne Hr Hr'.
  assert (Hmm : mult_key band <> mult_key other)
    by (intros H; by apply mult_key_inj in H).
  assert (Haa : add_key band <> add_key other)
    by (intros H; by apply add_key_inj in H).
  split; [exact Hmm|]. split; [exact Haa|].
  rewrite (scale_factors_of_rescaling doc' _ band Hr').
  rewrite (scale_factors_of_rescaling doc _ band Hr).
  rewrite !lookup_insert_ne; try done; intros H; symmetry in H;
    by apply mult_key_ne_add_key in H.
Qed.

Lemma load_scale_factors_bands_independent_witness :
  scale_factors
    (JObject {[ "L1_METADATA_FILE" :=
       JObject {[ "RADIOMETRIC_RESCALING" :=
         JObject (<[mult_key 5 := JFloat 1%float]>
                    (<[add_key 5 := JFloat 0%float]> Sample.rescaling)) ]} ]}) 4
  = scale_factors Sample.meta_doc 4.
Proof.
  apply (load_scale_factors_bands_independent
           Sample.meta_doc _ Sample.rescaling 4 5 (JFloat 1%float) (JFloat 0%float)).
  - discriminate.
  - eapply reaches_step; [reflexivity|].
    eapply reaches_step; [reflexivity|]. constructor.
  - eapply reaches_step; [reflexivity|].
    eapply reaches_step; [reflexivity|]. constructor.
Defined.

(** ** From the download to the coefficients *)

Section Pipeline.

Variable json_load : bytes -> option json.

Lemma load_scale_factors_read (filename : string) (band : Z) (w : world) (data : bytes) :
  files w !! filename = Some data ->
  load_scale_factors json_load filename band w =
    (match json_load data with
     | Some doc => scale_factors doc band
     | None => Raise (if is_text w data then JSONDecodeError else UnicodeDecodeError)
     end, w).
Proof.
  intros Hf. unfold load_scale_factors, load_json. rewrite !io_bind_unfold.
  unfold read_file. rewrite Hf. destruct (json_load data); reflexivity.
Qed.

Lemma calculate_reflectance_world {E} `{Numeric E}
    (ds : DataArray E) (band : Z) (metafile : string) (w : world) :
  snd (calculate_reflectance json_load ds band metafile w) = w.
Proof.
  unfold calculate_reflectance. rewrite io_bind_unfold.
  pose proof (load_scale_factors_world json_load metafile band w) as Hw.
  destruct (load_scale_factors json_load metafile band w) as [[[M_p A_p]|e] w1];
    cbn [snd] in Hw; subst w1; [|reflexivity].
  rewrite io_bind_unfold. unfold lift.
  destruct (linear_rescale M_p A_p ds); reflexivity.
Qed.

End Pipeline.

(** X10.  What the service sends for the metadata is what the loader reads.
    With the metadata file missing and writable, downloading it and then
    loading a band's coefficients gives the coefficients of the decoded
    response body, whatever the status code; when the body does not decode,
    it gives [JSONDecodeError] for a body that is text and
    [UnicodeDecodeError] for one that is not.  One GET is issued on the
    way.  When the file cannot be written, the write's exception ends the
    sequence and nothing is loaded. *)
Theorem download_then_load_reads_the_response
    (json_load : bytes -> option json) (u metafile : string) (band_number : Z)
    (w : world) (status : Z) (body : bytes) :
  files w !! metafile = None ->
  http w u = Some (Response status body) ->
  (store w metafile body = Written ->
   exists w',
     (download_file u metafile;;
      load_scale_factors json_load metafile band_number) w
     = (match json_load body with
        | Some doc => scale_factors doc band_number
        | None => Raise (if is_text w body then JSONDecodeError
                         else UnicodeDecodeError)
        end, w') /\
     files w' !! metafile = Some body /\
     requests w' = requests w ++ [u]) /\
  (forall e remains, store w metafile body = NotWritten e remains ->
   exists w',
     (download_file u metafile;;
      load_scale_factors json_load metafile band_number) w = (Raise e, w') /\
     files w' !! metafile = remains /\
     requests w' = requests w ++ [u]).
Proof.
  intros Hd Hu. split.
  - intros Hs. eexists. rewrite io_bind_unfold.
    rewrite (download_file_fetch u metafile w _ Hd Hu Hs).
    split; [|split].
    + erewrite load_scale_factors_read by (cbn; apply lookup_insert_eq).
      reflexivity.
    + cbn. apply lookup_insert_eq.
    + reflexivity.
  - intros e remains Hs. rewrite io_bind_unfold.
    rewrite (download_file_missing u metafile w Hd), Hu. cbn [content].
    rewrite Hs. destruct remains as [part|]; eexists.
    + split; [reflexivity|]. split; [cbn; apply lookup_insert_eq|reflexivity].
    + split; [reflexivity|]. split; [exact Hd|reflexivity].
Qed.

Lemma download_then_load_reads_the_response_witness :
  exists w',
    (download_file mtl_filename "meta.json";;
     load_scale_factors Sample.decoder "meta.json" 4) Sample.empty_disk
    = (Raise JSONDecodeError, w') /\
    files w' !! "meta.json" = Some Sample.not_found_page /\
    requests w' = requests Sample.empty_disk ++ [mtl_filename].
Proof.
  apply (proj1 (download_then_load_reads_the_response
           Sample.decoder mtl_filename "meta.json" 4 Sample.empty_disk
           404 Sample.not_found_page eq_refl eq_refl)).
  reflexivity.
Defined.

(** X11.  A bad metadata file sticks.  Once the metadata file holds contents
    that do not decode, downloading and loading again fails again, with
    [JSONDecodeError] for contents that are text and [UnicodeDecodeError]
    for contents that are not, whatever source is named and whatever the
    service would now answer, and issues no request: the file is never
    fetched anew. *)
Theorem bad_metadata_is_never_refreshed
    (json_load : bytes -> option json) (u metafile : string) (band_number : Z)
    (w : world) (data : bytes) :
  files w !! metafile = Some data ->
  json_load data = None ->
  (download_file u metafile;;
   load_scale_factors json_load metafile band_number) w
  = (Raise (if is_text w data then JSONDecodeError else UnicodeDecodeError), w).
Proof.
  intros Hd Hj. rewrite io_bind_unfold.
  rewrite download_file_existing by (rewrite Hd; eauto).
  rewrite (load_scale_factors_read json_load _ _ _ _ Hd), Hj. reflexivity.
Qed.

Lemma bad_metadata_is_never_refreshed_witness :
  (download_file mtl_filename "meta.json";;
   load_scale_factors Sample.decoder "meta.json" 4) Scene.disk_with_error_page
  = (Raise JSONDecodeError, Scene.disk_with_error_page).
Proof.
  apply (bad_metadata_is_never_refreshed
           Sample.decoder mtl_filename "meta.json" 4 Scene.disk_with_error_page
           Sample.not_found_page).
  - reflexivity.
  - reflexivity.
Defined.

(** ** The reflectance calls and the index *)

(** X12.  [calculate_reflectance] only reads, and a failure of the loader is
    its failure: the world is left as it was whatever the outcome, and when
    [load_scale_factors] raises, [calculate_reflectance] raises the same
    exception without computing anything. *)
Theorem calculate_reflectance_propagates_loader_failure
    (json_load : bytes -> option json) (E : Type) (num : Numeric E)
    (ds : DataArray E) (band_number : Z) (metafile : string) (w : world) :
  snd (calculate_reflectance json_load ds band_number metafile w) = w /\
  (forall e,
      fst (load_scale_factors json_load metafile band_number w) = Raise e ->
      fst (calculate_reflectance json_load ds band_number metafile w) = Raise e).
Proof.
  split; [apply calculate_reflectance_world|].
  intros e. unfold calculate_reflectance. rewrite io_bind_unfold.
  destruct (load_scale_factors json_load metafile band_number w) as [[p|e'] w1];
    cbn [fst]; [discriminate|].
  intros [= ->]. reflexivity.
Qed.

Lemma calculate_reflectance_propagates_loader_failure_witness :
  fst (calculate_reflectance Sample.decoder (Sample.pixel 218 I) 4 "meta.json"
                             Sample.empty_disk)
  = Raise (FileNotFoundError "meta.json").
Proof.
  apply (proj2 (calculate_reflectance_propagates_loader_failure
                  Sample.decoder uint16 _ (Sample.pixel 218 I) 4 "meta.json"
                  Sample.empty_disk)).
  reflexivity.
Defined.

Lemma calculate_reflectance_found
    (json_load : bytes -> option json) {E} `{Numeric E}
    (ds : DataArray E) (band : Z) (metafile : string) (w : world)
    (data : bytes) (doc : json) (m a : float) :
  files w !! metafile = Some data ->
  json_load data = Some doc ->
  contains_factors doc band (JFloat m) (JFloat a) ->
  calculate_reflectance json_load ds band metafile w
  = (Ok (add_scalar (scalar_mul m ds) a), w).
Proof.
  intros Hf Hj Hc. apply calculate_reflectance_loaded.
  rewrite (load_scale_factors_decoded json_load _ _ _ _ _ Hf Hj).
  by rewrite (scale_factors_found _ _ _ _ Hc).
Qed.

(** X13.  The notebook's pipeline.  With the coefficients of bands 4 and 5
    in [meta.json] and the red and near-infrared rasters on one grid, the two
    reflectance calls and the index all succeed without touching the world;
    the result lies on the grid of the inputs, is well formed, and holds at
    each position the normalized difference of the two rescaled pixels, the
    near-infrared one first. *)
Theorem ndvi_cell_computes_the_index
    (json_load : bytes -> option json) (E : Type) (num : Numeric E)
    (red nir : DataArray E) (w : world) (data : bytes) (doc : json)
    (m4 a4 m5 a5 : float) :
  files w !! "meta.json" = Some data ->
  json_load data = Some doc ->
  contains_factors doc 4 (JFloat m4) (JFloat a4) ->
  contains_factors doc 5 (JFloat m5) (JFloat a5) ->
  well_formed red -> well_formed nir -> same_grid red nir ->
  exists R,
    ndvi_cell json_load red nir w = (Ok R, w) /\
    same_grid R nir /\ well_formed R /\
    forall i r n, values red !! i = Some r -> values nir !! i = Some n ->
      values R !! i =
        Some (((m5 * as_float64 n + a5) - (m4 * as_float64 r + a4))
              / ((m5 * as_float64 n + a5) + (m4 * as_float64 r + a4)))%float.
Proof.
  intros Hf Hj H4 H5 Hred Hnir Hgrid.
  assert (Hlen : length (values red) = length (values nir))
    by exact (well_formed_same_length red nir Hred Hnir Hgrid).
  destruct Hgrid as (Hd & Hs & Hc).
  assert (Htoa : same_grid (add_scalar (scalar_mul m5 nir) a5)
                           (add_scalar (scalar_mul m4 red) a4)).
  { repeat split; cbn; auto. }
  eexists. split.
  { unfold ndvi_cell, reflectance_cell. rewrite !io_bind_unfold.
    rewrite (calculate_reflectance_found json_load red 4 _ _ _ _ _ _ Hf Hj H4).
    rewrite io_bind_unfold.
    rewrite (calculate_reflectance_found json_load nir 5 _ _ _ _ _ _ Hf Hj H5).
    cbn. unfold lift. rewrite (ndvi_same_grid _ _ Htoa). reflexivity. }
  split; [repeat split|]. split.
  - destruct Hnir as [Hn1 Hn2]. split; [exact Hn1|]. cbn.
    rewrite length_zip_with, !length_map, Hlen, Nat.min_id. exact Hn2.
  - intros i r n Hr Hn. cbn.
    rewrite lookup_zip_with, !list_lookup_fmap, Hr, Hn. reflexivity.
Qed.

Lemma ndvi_cell_computes_the_index_witness :
  exists R,
    ndvi_cell Scene.decoder (Sample.pixel 8000 I) (Sample.pixel 20000 I)
              Scene.disk_with_two_bands
    = (Ok R, Scene.disk_with_two_bands) /\
    same_grid R (Sample.pixel 20000 I) /\ well_formed R /\
    forall i r n,
      values (Sample.pixel 8000 I) !! i = Some r ->
      values (Sample.pixel 20000 I) !! i = Some n ->
      values R !! i =
        Some (((Scene.mult * as_float64 n + Scene.offset)
               - (Scene.mult * as_float64 r + Scene.offset))
              / ((Scene.mult * as_float64 n + Scene.offset)
                 + (Scene.mult * as_float64 r + Scene.offset)))%float.
Proof.
  apply (ndvi_cell_computes_the_index
           Scene.decoder uint16 _ (Sample.pixel 8000 I) (Sample.pixel 20000 I)
           Scene.disk_with_two_bands Scene.two_band_text Scene.two_band_doc).
  - reflexivity.
  - reflexivity.
  - exists Scene.two_band_rescaling. split; [|split; reflexivity].
    eapply reaches_step; [reflexivity|].
    eapply reaches_step; [reflexivity|]. constructor.
  - exists Scene.two_band_rescaling. split; [|split; reflexivity].
    eapply reaches_step; [reflexivity|].
    eapply reaches_step; [reflexivity|]. constructor.
  - split; reflexivity.
  - split; reflexivity.
  - repeat split.
Defined.

(** ** More on the index in binary64 *)

Lemma float_positive_finite (a : float) :
  (0 <? a)%float = true -> (a <? infinity)%float = true ->
  exists m e, Prim2SF a = S754_finite false m e.
Proof.
  rewrite !ltb_spec.
  change (Prim2SF 0) with (S754_zero false).
  change (Prim2SF infinity) with (S754_infinity false).
  destruct (Prim2SF a) as [s|[|]| |[|] m e]; cbn; try discriminate; eauto.
Qed.

Lemma float_zero_inv (b : float) :
  (b =? 0)%float = true -> exists s, Prim2SF b = S754_zero s.
Proof.
  rewrite FloatAxioms.eqb_spec. change (Prim2SF 0) with (S754_zero false).
  apply SFeqb_zero_inv.
Qed.

Lemma float_normalized_difference_sign (a b : float) :
  (0 <=? a)%float = true -> (a <? infinity)%float = true ->
  (0 <=? b)%float = true -> (b <? infinity)%float = true ->
  (a + b =? 0)%float = false ->
  ((b <=? a)%float = true -> (0 <=? (a - b) / (a + b))%float = true) /\
  ((a <=? b)%float = true -> ((a - b) / (a + b) <=? 0)%float = true).
Proof.
  intros Ha Hfa Hb Hfb Hnz.
  apply float_nonneg_finite in Ha; [|exact Hfa].
  apply float_nonneg_finite in Hb; [|exact Hfb].
  rewrite FloatAxioms.eqb_spec, add_spec in Hnz.
  change (Prim2SF 0) with (S754_zero false) in Hnz.
  rewrite !leb_spec, div_spec, sub_spec, add_spec.
  change (Prim2SF 0) with (S754_zero false).
  apply (SF_normalized_difference_sign FloatOps.prec FloatOps.emax);
    try assumption; reflexivity.
Qed.

Lemma float_normalized_difference_swap (a b : float) :
  ((b - a) / (b + a) = - ((a - b) / (a + b)))%float \/
  (((a - b) / (a + b) =? 0)%float = true /\
   ((b - a) / (b + a) =? 0)%float = true).
Proof.
  destruct (SF_normalized_difference_swap FloatOps.prec FloatOps.emax
              (Prim2SF a) (Prim2SF b)) as [H|[Hz Hz']].
  - left. apply Prim2SF_inj.
    rewrite opp_spec, !div_spec, !sub_spec, !add_spec. exact H.
  - right. rewrite !FloatAxioms.eqb_spec, !div_spec, !sub_spec, !add_spec.
    change (Prim2SF 0) with (S754_zero false).
    unfold SF64div, SF64sub, SF64add.
    destruct (SFdiv _ _ (SFsub _ _ (Prim2SF a) (Prim2SF b)) _);
      cbn in Hz; try tauto.
    destruct (SFdiv _ _ (SFsub _ _ (Prim2SF b) (Prim2SF a)) _);
      cbn in Hz'; tauto.
Qed.

Lemma float_quotient_of_equal_magnitudes (x y : float) (sx sy : bool) m e :
  Prim2SF x = S754_finite sx m e -> Prim2SF y = S754_finite sy m e ->
  Prim2SF (x / y) = S754_finite (xorb sx sy) 4503599627370496 (1 - FloatOps.prec).
Proof.
  intros Hx Hy. pose proof (Prim2SF_valid (x / y)) as Hv.
  rewrite div_spec, Hx, Hy in Hv |- *.
  apply (SFdiv_self FloatOps.prec FloatOps.emax); [reflexivity|reflexivity| |exact Hv].
  reflexivity.
Qed.

Lemma float_normalized_difference_extremes (a b : float) :
  ((0 <? a)%float = true -> (a <? infinity)%float = true ->
   (b =? 0)%float = true -> ((a - b) / (a + b))%float = 1%float) /\
  ((a =? 0)%float = true -> (0 <? b)%float = true ->
   (b <? infinity)%float = true -> ((a - b) / (a + b))%float = (-1)%float).
Proof.
  split.
  - intros Ha Hfa Hb.
    destruct (float_positive_finite a Ha Hfa) as (m & e & Hx).
    destruct (float_zero_inv b Hb) as [s Hy].
    apply Prim2SF_inj.
    rewrite (float_quotient_of_equal_magnitudes (a - b) (a + b) false false m e).
    + reflexivity.
    + rewrite sub_spec, Hx, Hy. reflexivity.
    + rewrite add_spec, Hx, Hy. reflexivity.
  - intros Ha Hb Hfb.
    destruct (float_positive_finite b Hb Hfb) as (m & e & Hy).
    destruct (float_zero_inv a Ha) as [s Hx].
    apply Prim2SF_inj.
    rewrite (float_quotient_of_equal_magnitudes (a - b) (a + b) true false m e).
    + reflexivity.
    + rewrite sub_spec, Hx, Hy. reflexivity.
    + rewrite add_spec, Hx, Hy. reflexivity.
Qed.

(** X14.  The sign of the index tells which band is brighter.  For finite,
    non-negative inputs on one grid without zero sums: where the first array
    is at least the second the element is not below zero, and where it is at
    most the second the element is not above zero. *)
Theorem ndvi_sign_follows_the_brighter_band (A B : DataArray float) :
  same_grid A B ->
  (forall i a, values A !! i = Some a ->
               (0 <=? a)%float = true /\ (a <? infinity)%float = true) ->
  (forall i b, values B !! i = Some b ->
               (0 <=? b)%float = true /\ (b <? infinity)%float = true) ->
  (forall i a b, values A !! i = Some a -> values B !! i = Some b ->
                 (a + b =? 0)%float = false) ->
  exists R,
    ndvi A B = Ok R /\
    forall i a b, values A !! i = Some a -> values B !! i = Some b ->
      exists q, values R !! i = Some q /\
        ((b <=? a)%float = true -> (0 <=? q)%float = true) /\
        ((a <=? b)%float = true -> (q <=? 0)%float = true).
Proof.
  intros HAB HposA HposB Hnz.
  eexists. split; [exact (ndvi_same_grid A B HAB)|]. cbn.
  intros i a b Ha Hb. eexists.
  split; [rewrite lookup_zip_with, Ha, Hb; reflexivity|].
  destruct (HposA i a Ha) as [Ha0 Hafin].
  destruct (HposB i b Hb) as [Hb0 Hbfin].
  apply float_normalized_difference_sign; try assumption.
  exact (Hnz i a b Ha Hb).
Qed.

Lemma ndvi_sign_follows_the_brighter_band_witness :
  exists R,
    ndvi (Sample.cell 1%float) (Sample.cell 3%float) = Ok R /\
    forall i a b,
      values (Sample.cell 1%float) !! i = Some a ->
      values (Sample.cell 3%float) !! i = Some b ->
      exists q, values R !! i = Some q /\
        ((b <=? a)%float = true -> (0 <=? q)%float = true) /\
        ((a <=? b)%float = true -> (q <=? 0)%float = true).
Proof.
  apply (ndvi_sign_follows_the_brighter_band (Sample.cell 1%float) (Sample.cell 3%float)).
  - repeat split.
  - intros [|i] a; cbn; [|discriminate]. intros [= <-]. split; reflexivity.
  - intros [|i] b; cbn; [|discriminate]. intros [= <-]. split; reflexivity.
  - intros [|i] a b; cbn; [|discriminate]. intros [= <-] [= <-]. reflexivity.
Defined.

(** X15.  The bounds are attained.  On one grid, where the second array is
    zero and the first is positive and finite the element is exactly one, and
    where the first is zero and the second is positive and finite it is
    exactly minus one. *)
Theorem ndvi_reaches_the_bounds (A B : DataArray float) :
  same_grid A B ->
  exists R,
    ndvi A B = Ok R /\
    forall i a b, values A !! i = Some a -> values B !! i = Some b ->
      ((0 <? a)%float = true -> (a <? infinity)%float = true ->
       (b =? 0)%float = true -> values R !! i = Some 1%float) /\
      ((a =? 0)%float = true -> (0 <? b)%float = true ->
       (b <? infinity)%float = true -> values R !! i = Some (-1)%float).
Proof.
  intros HAB. eexists. split; [exact (ndvi_same_grid A B HAB)|]. cbn.
  intros i a b Ha Hb. rewrite lookup_zip_with, Ha, Hb. cbn.
  destruct (float_normalized_difference_extremes a b) as [H1 H2].
  split.
  - intros. f_equal. by apply H1.
  - intros. f_equal. by apply H2.
Qed.

Lemma ndvi_reaches_the_bounds_witness :
  exists R,
    ndvi (Sample.cell 0.5%float) (Sample.cell 0%float) = Ok R /\
    values R !! 0%nat = Some 1%float.
Proof.
  destruct (ndvi_reaches_the_bounds (Sample.cell 0.5%float) (Sample.cell 0%float))
    as (R & HR & Hval).
  - repeat split.
  - exists R. split; [exact HR|].
    apply (proj1 (Hval 0%nat 0.5%float 0%float eq_refl eq_refl)); reflexivity.
Defined.

Lemma same_grid_sym {E F} (A : DataArray E) (B : DataArray F) :
  same_grid A B -> same_grid B A.
Proof. intros (Hd & Hs & Hc). repeat split; congruence. Qed.

(** X16.  Exchanging the two bands negates the index.  On one grid, the
    index of [B] against [A] has as many elements as that of [A] against
    [B], and each is the negation of its counterpart, except that where both
    are zero their signs may agree. *)
Theorem ndvi_exchanged_bands_negate (A B : DataArray float) :
  same_grid A B ->
  exists R R',
    ndvi A B = Ok R /\ ndvi B A = Ok R' /\
    length (values R') = length (values R) /\
    forall i q q', values R !! i = Some q -> values R' !! i = Some q' ->
      q' = (- q)%float \/ ((q =? 0)%float = true /\ (q' =? 0)%float = true).
Proof.
  intros HAB. eexists _, _.
  split; [exact (ndvi_same_grid A B HAB)|].
  split; [exact (ndvi_same_grid B A (same_grid_sym A B HAB))|].
  cbn. split.
  - rewrite !length_zip_with. lia.
  - intros i q q' Hq Hq'.
    apply lookup_zip_with_Some in Hq as (a & b & -> & Ha & Hb).
    apply lookup_zip_with_Some in Hq' as (b' & a' & -> & Hb' & Ha').
    assert (a' = a) by congruence. assert (b' = b) by congruence. subst a' b'.
    apply float_normalized_difference_swap.
Qed.

Lemma ndvi_exchanged_bands_negate_witness :
  exists R R',
    ndvi (Sample.cell 3%float) (Sample.cell 1%float) = Ok R /\
    ndvi (Sample.cell 1%float) (Sample.cell 3%float) = Ok R' /\
    length (values R') = length (values R) /\
    forall i q q', values R !! i = Some q -> values R' !! i = Some q' ->
      q' = (- q)%float \/ ((q =? 0)%float = true /\ (q' =? 0)%float = true).
Proof.
  apply (ndvi_exchanged_bands_negate (Sample.cell 3%float) (Sample.cell 1%float)).
  repeat split.
Defined.

(** ** The overview cell *)

(** X17.  The overview cell needs a second overview: with fewer than two
    decimation factors it raises [IndexError].  With a positive second factor
    it reads a one-band shape whose height and width, multiplied back by the
    factor, do not exceed the raster's and fall short of them by less than
    the factor. *)
Theorem out_shape_within_the_raster (src : Overview.dataset) :
  ((length (Overview.overviews src) < 2)%nat ->
   Overview.out_shape src = inl Overview.IndexError) /\
  (forall oview, Overview.overviews src !! 1%nat = Some oview -> 0 < oview ->
     exists h w,
       Overview.out_shape src = inr (1, h, w) /\
       h * oview <= Overview.height src < (h + 1) * oview /\
       w * oview <= Overview.width src < (w + 1) * oview).
Proof.
  unfold Overview.out_shape. split.
  - intros Hlen. rewrite lookup_ge_None_2 by lia. reflexivity.
  - intros oview -> Hpos. rewrite decide_False by lia.
    eexists _, _. split; [reflexivity|].
    pose proof (Z.mul_div_le (Overview.height src) oview Hpos).
    pose proof (Z.mul_succ_div_gt (Overview.height src) oview Hpos).
    pose proof (Z.mul_div_le (Overview.width src) oview Hpos).
    pose proof (Z.mul_succ_div_gt (Overview.width src) oview Hpos).
    lia.
Qed.

Lemma out_shape_within_the_raster_witness :
  Overview.out_shape (Overview.Dataset 7741 7591 [3]) = inl Overview.IndexError /\
  exists h w,
    Overview.out_shape (Overview.Dataset 7741 7591 [3; 9; 27; 81]) = inr (1, h, w) /\
    h * 9 <= 7741 < (h + 1) * 9 /\
    w * 9 <= 7591 < (w + 1) * 9.
Proof.
  split.
  - apply (proj1 (out_shape_within_the_raster (Overview.Dataset 7741 7591 [3]))).
    cbn. lia.
  - apply (proj2 (out_shape_within_the_raster
                    (Overview.Dataset 7741 7591 [3; 9; 27; 81])) 9).
    + reflexivity.
    + lia.
Defined.
